(** * Company identifier extraction: a shallow embedding

    The development follows the Python sources
      - [new_vat_extractor_nl.py]            (module [NL]),
      - [uk_company_number_extractor.py]     (module [UK]),
      - [complete_multi_country_vat_extractor.py] (module [Complete]),
    and the two library pieces they lean on: regular expressions ([Re]) and
    [difflib.SequenceMatcher] ([Difflib]).

    Text is ASCII text: a Python [str] is a [string], one [ascii] per
    character.  Python integers are [Z]; indices and lengths are [nat].
    A similarity score is the exact rational [2*M/T] that Python rounds to a
    float; for the lengths at hand the comparisons agree. *)

From Stdlib Require Import ZArith QArith List String Ascii Bool Lia.
From stdpp Require Import gmap strings list sorting.
Import ListNotations.
Open Scope string_scope.
Open Scope nat_scope.

(** ** Python built-ins on strings *)
Module Py.

(** [c in '0123456789'] for one character. *)
Definition is_digit_char (c : ascii) : bool :=
  (48 <=? nat_of_ascii c) && (nat_of_ascii c <=? 57).

Definition is_upper_char (c : ascii) : bool :=
  (65 <=? nat_of_ascii c) && (nat_of_ascii c <=? 90).

Definition is_lower_char (c : ascii) : bool :=
  (97 <=? nat_of_ascii c) && (nat_of_ascii c <=? 122).

(** Whitespace as [str.isspace], [str.strip] and the pattern [\s] see it:
    tab, newline, vertical tab, form feed, carriage return, the four
    separators 0x1c..0x1f and the space. *)
Definition is_space_char (c : ascii) : bool :=
  let n := nat_of_ascii c in
  ((9 <=? n) && (n <=? 13)) || ((28 <=? n) && (n <=? 31)) || (n =? 32).

(** The pattern [\w]: letters, digits and the underscore. *)
Definition is_word_char (c : ascii) : bool :=
  is_digit_char c || is_upper_char c || is_lower_char c || (nat_of_ascii c =? 95).

Definition lower_char (c : ascii) : ascii :=
  if is_upper_char c then ascii_of_nat (nat_of_ascii c + 32) else c.

Definition upper_char (c : ascii) : ascii :=
  if is_lower_char c then ascii_of_nat (nat_of_ascii c - 32) else c.

Definition chars (s : string) : list ascii := list_ascii_of_string s.
Definition str (l : list ascii) : string := string_of_list_ascii l.

Definition len (s : string) : nat := String.length s.

(** Truth value of a string: [not s] is [negb (truthy s)]. *)
Definition truthy (s : string) : bool := negb (String.eqb s "").

(** [s.isdigit()]: at least one character, all of them digits. *)
Definition isdigit (s : string) : bool :=
  truthy s && forallb is_digit_char (chars s).

(** [int(d)] for a one-character string; the callers apply it to digits
    only, behind an [isdigit] guard. *)
Definition int (c : ascii) : Z := Z.of_nat (nat_of_ascii c) - 48.

Definition startswith (s p : string) : bool := String.prefix p s.

Definition lower (s : string) : string := str (map lower_char (chars s)).
Definition upper (s : string) : string := str (map upper_char (chars s)).

Fixpoint lstrip_chars (l : list ascii) : list ascii :=
  match l with
  | c :: l' => if is_space_char c then lstrip_chars l' else l
  | [] => []
  end.

(** [s.strip()] *)
Definition strip (s : string) : string :=
  str (rev (lstrip_chars (rev (lstrip_chars (chars s))))).

(** [s.rstrip('/')] *)
Fixpoint lstrip_slash (l : list ascii) : list ascii :=
  match l with
  | c :: l' => if Ascii.eqb c "/" then lstrip_slash l' else l
  | [] => []
  end.

Definition rstrip_slash (s : string) : string :=
  str (rev (lstrip_slash (rev (chars s)))).

(** [p in s] for strings. *)
Fixpoint contains (p s : string) : bool :=
  String.prefix p s ||
  match s with
  | EmptyString => false
  | String _ s' => contains p s'
  end.

(** [len(s.split())]: the number of runs of characters that are not
    whitespace. *)
Fixpoint count_words (l : list ascii) (in_word : bool) : nat :=
  match l with
  | [] => 0
  | c :: l' =>
      if is_space_char c then count_words l' false
      else if in_word then count_words l' true
      else S (count_words l' true)
  end.

Definition split_len (s : string) : nat := count_words (chars s) false.

(** [sum(...)] over integers. *)
Definition sum (l : list Z) : Z := fold_left Z.add l 0%Z.

(** [range(n)] *)
Definition range (n : nat) : list nat := seq 0 n.

End Py.

(** ** Regular expressions, as far as the patterns of the extractors go

    A backtracking matcher with Python's order of preference: alternatives
    left to right, repetitions greedy.  Every pattern of the extractors has at
    most one capturing group, so one capture is kept. *)
Module Re.

Inductive re : Type :=
| Eps                              (* the empty pattern *)
| Chr (c : ascii)                  (* a literal character *)
| Cls (p : ascii -> bool)          (* a character class [...] or \s, \w *)
| Cat (r1 r2 : re)                 (* r1 r2 *)
| Alt (r1 r2 : re)                 (* r1|r2 *)
| Star (p : ascii -> bool)         (* [...]*, greedy *)
| Grp (r : re)                     (* ( r ), group 1 *)
| Look (r : re).                   (* (?= r ) *)

(** Under [re.IGNORECASE] a literal matches both cases, and so does a class
    that holds one of the two cases. *)
Definition chr_matches (icase : bool) (c x : ascii) : bool :=
  if icase then Ascii.eqb (Py.lower_char c) (Py.lower_char x) else Ascii.eqb c x.

Definition cls_matches (icase : bool) (p : ascii -> bool) (x : ascii) : bool :=
  p x || (icase && (p (Py.lower_char x) || p (Py.upper_char x))).

(** [m icase r s g k]: match [r] at the start of [s], with [g] the capture
    so far; [k] continues on the rest of the text and fails to make the
    matcher try its next choice. *)
Fixpoint m {R : Type} (icase : bool) (r : re) (s : list ascii)
    (g : option (list ascii))
    (k : list ascii -> option (list ascii) -> option R) : option R :=
  match r with
  | Eps => k s g
  | Chr c =>
      match s with
      | x :: s' => if chr_matches icase c x then k s' g else None
      | [] => None
      end
  | Cls p =>
      match s with
      | x :: s' => if cls_matches icase p x then k s' g else None
      | [] => None
      end
  | Cat r1 r2 => m icase r1 s g (fun s' g' => m icase r2 s' g' k)
  | Alt r1 r2 =>
      match m icase r1 s g k with
      | Some x => Some x
      | None => m icase r2 s g k
      end
  | Star p =>
      (fix star (t : list ascii) : option R :=
         match t with
         | x :: t' =>
             if cls_matches icase p x
             then match star t' with Some y => Some y | None => k t g end
             else k t g
         | [] => k t g
         end) s
  | Grp r1 =>
      m icase r1 s g
        (fun s' _ => k s' (Some (firstn (length s - length s') s)))
  | Look r1 =>
      match m icase r1 s g (fun _ _ => Some tt) with
      | Some _ => k s g
      | None => None
      end
  end.

(** Derived forms. *)
Fixpoint lit_chars (l : list ascii) : re :=
  match l with
  | [] => Eps
  | c :: l' => Cat (Chr c) (lit_chars l')
  end.

Definition lit (s : string) : re := lit_chars (Py.chars s).
Definition opt (r : re) : re := Alt r Eps.              (* r? *)
Definition plus (p : ascii -> bool) : re := Cat (Cls p) (Star p).   (* [...]+ *)

Fixpoint rep (n : nat) (r : re) : re :=                (* r{n} *)
  match n with
  | O => Eps
  | S n' => Cat r (rep n' r)
  end.

Fixpoint rep_upto (n : nat) (r : re) : re :=           (* r{0,n}, greedy *)
  match n with
  | O => Eps
  | S n' => opt (Cat r (rep_upto n' r))
  end.

Definition rep_range (lo hi : nat) (r : re) : re :=    (* r{lo,hi} *)
  Cat (rep lo r) (rep_upto (hi - lo) r).

Fixpoint seq_re (l : list re) : re :=
  match l with
  | [] => Eps
  | r :: l' => Cat r (seq_re l')
  end.

Fixpoint alt_re (r : re) (l : list re) : re :=
  match l with
  | [] => r
  | r' :: l' => Alt r (alt_re r' l')
  end.

(** Classes that occur in the patterns. *)
Definition digit : ascii -> bool := Py.is_digit_char.                 (* [0-9] *)
Definition space : ascii -> bool := Py.is_space_char.                 (* \s *)
Definition one_of (s : string) (x : ascii) : bool :=
  existsb (Ascii.eqb x) (Py.chars s).
Definition space_or (s : string) (x : ascii) : bool := space x || one_of s x.
Definition upper_or_digit (x : ascii) : bool :=                       (* [0-9A-Z] *)
  Py.is_digit_char x || Py.is_upper_char x.

(** A match object: [group(0)] and [group(1)]. *)
Record match_obj : Type := { group0 : string; group1 : option string }.

(** [match.group(1) if len(match.groups()) > 0 else match.group(0)]: each
    pattern below that has a group has it take part in every match. *)
Definition code_of (mo : match_obj) : string :=
  match group1 mo with Some g => g | None => group0 mo end.

(** One attempt at the start of [s]: the text left after the match, and the
    capture. *)
Definition match_here (icase : bool) (r : re) (s : list ascii)
    : option (list ascii * option (list ascii)) :=
  m icase r s None (fun s' g => Some (s', g)).

(** [re.finditer]: left to right, each match starting where the previous one
    ended ([skip] counts the characters of the current match still to pass).
    The patterns used here match at least one character. *)
Fixpoint finditer_from (icase : bool) (r : re) (s : list ascii) (skip : nat)
    : list match_obj :=
  match s with
  | [] => []
  | _ :: s' =>
      match skip with
      | S n => finditer_from icase r s' n
      | O =>
          match match_here icase r s with
          | Some (rest, g) =>
              let n := length s - length rest in
              {| group0 := Py.str (firstn n s); group1 := option_map Py.str g |}
                :: finditer_from icase r s' (n - 1)
          | None => finditer_from icase r s' 0
          end
      end
  end.

Definition finditer (icase : bool) (r : re) (s : string) : list match_obj :=
  finditer_from icase r (Py.chars s) 0.

(** [re.search]: the first match, if any. *)
Definition search (icase : bool) (r : re) (s : string) : option match_obj :=
  head (finditer icase r s).

(** [re.sub(r'[^0-9]', '', code)] *)
Definition keep_digits (s : string) : string :=
  Py.str (List.filter Py.is_digit_char (Py.chars s)).

End Re.

(** ** [difflib.SequenceMatcher(None, a, b)]

    The matcher of the Python standard library, with its defaults: no junk
    predicate ([isjunk] is [None], so the junk set is empty and the two
    junk-extension loops of [find_longest_match] do nothing) and
    [autojunk=True]. *)
Module Difflib.
Local Open Scope list_scope.

(** A similarity score: the exact value of [2.0 * matches / length]. *)
Definition calculate_ratio (matches length : nat) : Q :=
  if length =? 0 then 1%Q
  else (inject_Z (Z.of_nat (2 * matches)) / inject_Z (Z.of_nat length))%Q.

(** [enumerate(l)] *)
Definition enumerate {X : Type} (l : list X) : list (nat * X) :=
  combine (seq 0 (length l)) l.

(** [x == y] for two elements read from the sequences. *)
Definition same_elt {A : Type} `{EqDecision A} (x y : option A) : bool :=
  match x, y with
  | Some u, Some v => bool_decide (u = v)
  | _, _ => false
  end.

(** A block [(i, j, k)]: [a[i:i+k] == b[j:j+k]]. *)
Definition block : Type := (nat * nat * nat)%type.
Definition block_size (x : block) : nat := snd x.

Section SequenceMatcher.
Context {A : Type} `{Countable A}.
Variables a b : list A.

(** [__chain_b]: [b2j] maps each element of [b] to the ascending list of its
    positions. *)
Definition chain_step (b2j : gmap A (list nat)) (p : nat * A) : gmap A (list nat) :=
  <[snd p := default [] (b2j !! snd p) ++ [fst p]]> b2j.

Definition b2j_all : gmap A (list nat) := fold_left chain_step (enumerate b) ∅.

(** Popular elements: with [n >= 200], those that occur more than
    [n // 100 + 1] times; they are deleted from [b2j]. *)
Definition is_popular (idxs : list nat) : bool :=
  (200 <=? length b) && (length b / 100 + 1 <? length idxs).

Definition b2j : gmap A (list nat) :=
  filter (fun kv => is_popular (snd kv) = false) b2j_all.

(** [j2len.get(j - 1, 0)]; for [j = 0] the key is [-1], never present. *)
Definition j2lenget (j2len : gmap nat nat) (j : nat) : nat :=
  match j with
  | O => 0
  | S j' => default 0 (j2len !! j')
  end.

(** The inner loop of [find_longest_match] over [b2j.get(a[i], [])]:
    [continue] below [blo], [break] from [bhi] on.  An index [i - k + 1] is
    written [i + 1 - k]. *)
Fixpoint row (i blo bhi : nat) (js : list nat) (j2len : gmap nat nat)
    (best : block) (newj2len : gmap nat nat) : block * gmap nat nat :=
  match js with
  | [] => (best, newj2len)
  | j :: js' =>
      if j <? blo then row i blo bhi js' j2len best newj2len
      else if bhi <=? j then (best, newj2len)
      else
        let k := j2lenget j2len j + 1 in
        let best' := if block_size best <? k then (i + 1 - k, j + 1 - k, k) else best in
        row i blo bhi js' j2len best' (<[j := k]> newj2len)
  end.

(** One turn of the outer loop, [for i in range(alo, ahi)]; the range lies
    within [a]. *)
Definition scan_step (blo bhi : nat) (st : block * gmap nat nat) (i : nat)
    : block * gmap nat nat :=
  match a !! i with
  | Some x => row i blo bhi (default [] (b2j !! x)) (snd st) (fst st) ∅
  | None => st
  end.

(** [while besti > alo and bestj > blo and a[besti-1] == b[bestj-1]] *)
Fixpoint extend_left (alo blo besti bestj bestsize : nat) {struct besti} : block :=
  match besti, bestj with
  | S i', S j' =>
      if (alo <? besti) && (blo <? bestj) && same_elt (a !! i') (b !! j')
      then extend_left alo blo i' j' (S bestsize)
      else (besti, bestj, bestsize)
  | _, _ => (besti, bestj, bestsize)
  end.

(** [while besti+bestsize < ahi and bestj+bestsize < bhi and
    a[besti+bestsize] == b[bestj+bestsize]]; [n] is started at
    [ahi - (besti + bestsize)], the number of turns the first test allows. *)
Fixpoint extend_right (ahi bhi besti bestj n bestsize : nat) : nat :=
  match n with
  | O => bestsize
  | S n' =>
      if (besti + bestsize <? ahi) && (bestj + bestsize <? bhi)
         && same_elt (a !! (besti + bestsize)) (b !! (bestj + bestsize))
      then extend_right ahi bhi besti bestj n' (S bestsize)
      else bestsize
  end.

Definition find_longest_match (alo ahi blo bhi : nat) : block :=
  let '((besti, bestj, bestsize), _) :=
    fold_left (scan_step blo bhi) (seq alo (ahi - alo)) ((alo, blo, 0), ∅) in
  let '(besti, bestj, bestsize) := extend_left alo blo besti bestj bestsize in
  let bestsize :=
    extend_right ahi bhi besti bestj (ahi - (besti + bestsize)) bestsize in
  (besti, bestj, bestsize).

(** The work list of [get_matching_blocks]: [queue.pop()] takes the entry
    appended last, here the head.  [None] when [fuel] turns do not empty the
    queue. *)
Definition region : Type := (nat * nat * nat * nat)%type.

Fixpoint blocks_loop (fuel : nat) (queue : list region) (acc : list block)
    : option (list block) :=
  match queue with
  | [] => Some acc
  | (alo, ahi, blo, bhi) :: queue' =>
      match fuel with
      | O => None
      | S fuel' =>
          let '(i, j, k) := find_longest_match alo ahi blo bhi in
          if k =? 0 then blocks_loop fuel' queue' acc
          else
            let q1 := if (alo <? i) && (blo <? j)
                      then (alo, i, blo, j) :: queue' else queue' in
            let q2 := if (i + k <? ahi) && (j + k <? bhi)
                      then (i + k, ahi, j + k, bhi) :: q1 else q1 in
            blocks_loop fuel' q2 (acc ++ [(i, j, k)])
      end
  end.

(** Every turn either closes a region or splits it around a block of at
    least one element, so [2 * len(a) + 1] turns are enough (lemma
    [blocks_loop_fuel] below). *)
Definition found_blocks : list block :=
  default [] (blocks_loop (2 * length a + 1) [(0, length a, 0, length b)] []).

(** [matching_blocks.sort()] *)
Definition block_le (x y : block) : bool :=
  let '(i1, j1, k1) := x in
  let '(i2, j2, k2) := y in
  (i1 <? i2) || ((i1 =? i2) && ((j1 <? j2) || ((j1 =? j2) && (k1 <=? k2)))).

Fixpoint insert_block (x : block) (l : list block) : list block :=
  match l with
  | [] => [x]
  | y :: l' => if block_le x y then x :: l else y :: insert_block x l'
  end.

Definition sort_blocks (l : list block) : list block := foldr insert_block [] l.

(** The pass that merges adjacent blocks; the state is [(i1, j1, k1)] and
    [non_adjacent]. *)
Definition collapse_step (st : block * list block) (x : block) : block * list block :=
  let '((i1, j1, k1), non_adjacent) := st in
  let '(i2, j2, k2) := x in
  if (i1 + k1 =? i2) && (j1 + k1 =? j2)
  then ((i1, j1, k1 + k2), non_adjacent)
  else ((i2, j2, k2),
        if k1 =? 0 then non_adjacent else non_adjacent ++ [(i1, j1, k1)]).

(** [get_matching_blocks], the sentinel [(la, lb, 0)] at the end. *)
Definition get_matching_blocks : list block :=
  let '((i1, j1, k1), non_adjacent) :=
    fold_left collapse_step (sort_blocks found_blocks) ((0, 0, 0), []) in
  let non_adjacent :=
    if k1 =? 0 then non_adjacent else non_adjacent ++ [(i1, j1, k1)] in
  non_adjacent ++ [(length a, length b, 0)].

(** [ratio]: [sum(triple[-1] for triple in self.get_matching_blocks())]
    against the total length. *)
Definition matches : nat := foldr Nat.add 0 (map block_size get_matching_blocks).

Definition ratio : Q := calculate_ratio matches (length a + length b).

End SequenceMatcher.

(** On strings: the elements are the characters. *)
Definition ratio_str (x y : string) : Q := ratio (Py.chars x) (Py.chars y).

End Difflib.

(** ** Effects: the network, the browser, exceptions

    A computation runs in a state (is the browser driver set up, and which
    calls went out so far) and ends in a value or in a raised exception.  The
    outside world answers each call; its answer may depend on everything that
    was asked before. *)
Module Eff.

(** An exception: whether it belongs to [requests.exceptions.RequestException],
    and [str(e)]. *)
Record exn : Type := Exn { is_request_exception : bool; message : string }.

Inductive event : Type :=
| EvGet (url : string)            (* session.get(url, ...) *)
| EvDriverStart                   (* webdriver.Chrome(options=...) *)
| EvDriverGet (url : string)      (* driver.get(url) *)
| EvKvkSearch (name : string)     (* the KvK register search form *)
| EvLeiLookup (name : string)     (* the LEI lookup form *)
| EvInfo (line : string).         (* logger.info(line), for the lines that
                                     announce a step or a url *)

Record state : Type := { driver : bool; log : list event }.

Definition M (A : Type) : Type := state -> (exn + A) * state.

Definition ret {A : Type} (x : A) : M A := fun st => (inr x, st).

Definition raise {A : Type} (e : exn) : M A := fun st => (inl e, st).

Definition bind {A B : Type} (c : M A) (k : A -> M B) : M B :=
  fun st =>
    match c st with
    | (inl e, st') => (inl e, st')
    | (inr x, st') => k x st'
    end.

(** [try: c  except Exception as e: h e] *)
Definition try_except {A : Type} (c : M A) (h : exn -> M A) : M A :=
  fun st =>
    match c st with
    | (inl e, st') => h e st'
    | (inr x, st') => (inr x, st')
    end.

Definition get_driver : M bool := fun st => (inr (driver st), st).

Definition set_driver (d : bool) : M unit :=
  fun st => (inr tt, {| driver := d; log := log st |}).

(** A call to the outside: it is logged, and answered from the history. *)
Definition call {A : Type} (ev : event) (answer : list event -> exn + A) : M A :=
  fun st =>
    (answer (log st), {| driver := driver st; log := (log st ++ [ev])%list |}).

(** [self.logger.info(line)] *)
Definition info (line : string) : M unit := call (EvInfo line) (fun _ => inr tt).

(** What a computation ends with from a state: its value, unless it raises,
    and the state it leaves. *)
Definition value_of {A : Type} (c : M A) (st : state) : option A :=
  match fst (c st) with
  | inr x => Some x
  | inl _ => None
  end.

Definition raised_by {A : Type} (c : M A) (st : state) : option exn :=
  match fst (c st) with
  | inr _ => None
  | inl e => Some e
  end.

Definition state_after {A : Type} (c : M A) (st : state) : state := snd (c st).

Definition initial : state := {| driver := false; log := [] |}.

(** An HTTP response as the extractors read it. *)
Record response : Type :=
  { status_code : nat; content_type : string; text : string }.

(** A page loaded in the browser; the driver gives no access to the HTTP
    status of the navigation. *)
Record browser_page : Type := { nav_status : nat; page_source : string }.

End Eff.

Notation "'do' x <- c1 ; c2" := (Eff.bind c1 (fun x => c2))
  (at level 10, x name, c1 at level 100, c2 at level 200,
   format "'[v' 'do'  x  <-  c1 ; '/' c2 ']'").
Notation "'run' c1 ; c2" := (Eff.bind c1 (fun _ => c2))
  (at level 10, c1 at level 100, c2 at level 200,
   format "'[v' 'run'  c1 ; '/' c2 ']'").

(** ** [new_vat_extractor_nl.py]: the Dutch extractor *)
Module NL.
Import Re.
Local Open Scope list_scope.

(** *** Patterns ([__init__]) *)

Definition sep : re := Star (space_or "#:").                  (* [\s#:]* *)
Definition ws : re := Star space.                             (* \s* *)
Definition digits (n : nat) : re := rep n (Cls digit).        (* [0-9]{n} *)
Definition dash : re := opt (Cls (space_or "-")).             (* [\s\-]? *)

Definition kvk_patterns : list re :=
  [ seq_re [lit "KvK"; sep; Grp (digits 8)];
    seq_re [Alt (seq_re [lit "Kamer"; ws; lit "van"; ws; lit "Koophandel"])
                (seq_re [lit "K.v.K"; opt (Chr ".")]);
            sep; Grp (digits 8)];
    seq_re [lit "KvK"; ws; opt (Chr ":"); ws;
            Grp (seq_re [digits 2; dash; digits 2; dash; digits 2; dash; digits 2])];
    seq_re [Alt (seq_re [lit "Chamber"; ws; lit "of"; ws; lit "Commerce"]) (lit "CoC");
            sep; Grp (digits 8)] ].

Definition rsin_patterns : list re :=
  [ seq_re [lit "RSIN"; sep; Grp (digits 9)];
    seq_re [lit "Rechtspersonen"; ws; lit "Samenwerkingsverbanden"; ws;
            lit "Informatie"; ws; lit "Nummer"; sep; Grp (digits 9)] ].

Definition lei_patterns : list re :=
  [ seq_re [lit "LEI"; sep; Grp (rep 20 (Cls upper_or_digit))];
    seq_re [lit "Legal"; ws; lit "Entity"; ws; lit "Identifier"; sep;
            Grp (rep 20 (Cls upper_or_digit))] ].

Definition btw_tail : re :=                  (* (?:NL)?([0-9]{9})B[0-9]{2} *)
  seq_re [opt (lit "NL"); Grp (digits 9); lit "B"; digits 2].

Definition nummer : re := Alt (lit "nummer") (lit "number").

Definition btw_patterns : list re :=
  [ seq_re [lit "BTW"; sep; btw_tail];
    seq_re [lit "VAT"; sep; btw_tail];
    seq_re [Alt (seq_re [lit "BTW"; Star (space_or "-"); nummer])
                (seq_re [lit "VAT"; Star (space_or "-"); nummer]);
            sep; btw_tail] ].

(** *** Validators *)
(** [validate_kvk_number]: 8 digits, the first one not a zero. *)
Definition validate_kvk_number (kvk_number : string) : bool :=
  if negb (Py.truthy kvk_number) || negb (Py.len kvk_number =? 8)
     || negb (Py.isdigit kvk_number)
  then false
  else negb (Py.startswith kvk_number "0").

(** [digits = [int(d) for d in rsin_number]] *)
Definition digits_of (s : string) : list Z := map Py.int (Py.chars s).

(** [sum(digits[i] * (9 - i) for i in range(8)) % 11] *)
Definition checksum_of (digits : list Z) : Z :=
  (Py.sum (map (fun i => nth i digits 0 * (9 - Z.of_nat i)) (Py.range 8)) mod 11)%Z.

(** [validate_rsin_number]: 9 digits with checksum. *)
Definition validate_rsin_number (rsin_number : string) : bool :=
  if negb (Py.truthy rsin_number) || negb (Py.len rsin_number =? 9)
     || negb (Py.isdigit rsin_number)
  then false
  else
    let digits := digits_of rsin_number in
    let checksum := checksum_of digits in
    if (checksum <? 2)%Z
    then (nth 8 digits 0 =? checksum)%Z
    else (nth 8 digits 0 =? 11 - checksum)%Z.

(** [validate_btw_number] *)
Definition validate_btw_number (btw_number : string) : bool :=
  if negb (Py.truthy btw_number) || negb (Py.len btw_number =? 9)
     || negb (Py.isdigit btw_number)
  then false
  else validate_rsin_number btw_number.

(** [validate_lei_code]: 20 characters, letters and digits after
    upper-casing. *)
Definition validate_lei_code (lei_code : string) : bool :=
  if negb (Py.truthy lei_code) || negb (Py.len lei_code =? 20)
  then false
  else forallb Re.upper_or_digit (Py.chars (Py.upper lei_code)).

(** A string with one character replaced: the single-digit mutation of a
    test vector. *)
Fixpoint replace_nth (i : nat) (c : ascii) (l : list ascii) : list ascii :=
  match l, i with
  | [], _ => []
  | _ :: l', O => c :: l'
  | x :: l', S i' => x :: replace_nth i' c l'
  end.

Definition mutate (i : nat) (c : ascii) (s : string) : string :=
  Py.str (replace_nth i c (Py.chars s)).

(** *** [extract_codes_from_html] *)

Record codes : Type :=
  { kvk : option string; rsin : option string; lei : option string; btw : option string }.

(** The loop over the matches of one pattern: the first cleaned code that the
    validator accepts ([break]). *)
Fixpoint first_valid (clean : string -> string) (valid : string -> bool)
    (ms : list match_obj) : option string :=
  match ms with
  | [] => None
  | mo :: ms' =>
      let clean_code := clean (code_of mo) in
      if valid clean_code then Some clean_code else first_valid clean valid ms'
  end.

(** The loop over the patterns of one kind, left as soon as a code is found. *)
Fixpoint first_code (clean : string -> string) (valid : string -> bool)
    (patterns : list re) (html_content : string) : option string :=
  match patterns with
  | [] => None
  | p :: patterns' =>
      match first_valid clean valid (finditer true p html_content) with
      | Some c => Some c
      | None => first_code clean valid patterns' html_content
      end
  end.

(** [re.sub(r'[^A-Z0-9]', '', code.upper())] *)
Definition clean_lei (code : string) : string :=
  Py.str (List.filter upper_or_digit (Py.chars (Py.upper code))).

Definition extract_codes_from_html (html_content : string) : codes :=
  {| kvk := first_code keep_digits validate_kvk_number kvk_patterns html_content;
     rsin := first_code keep_digits validate_rsin_number rsin_patterns html_content;
     lei := first_code clean_lei validate_lei_code lei_patterns html_content;
     btw := first_code keep_digits validate_btw_number btw_patterns html_content |}.

(** *** [similarity] *)

(** [unidecode.unidecode]: ASCII text is left as it is. *)
Definition unidecode (s : string) : string := s.

(** [re.sub(r'[^\w\s]', ' ', s)] *)
Definition punct_to_space (c : ascii) : ascii :=
  if Py.is_word_char c || Py.is_space_char c then c else " "%char.

(** [re.sub(r'\s+', ' ', s)]: each run of whitespace becomes one space. *)
Fixpoint collapse_spaces (l : list ascii) (in_run : bool) : list ascii :=
  match l with
  | [] => []
  | c :: l' =>
      if Py.is_space_char c
      then if in_run then collapse_spaces l' true
           else " "%char :: collapse_spaces l' true
      else c :: collapse_spaces l' false
  end.

Definition collapse (s : string) : string := Py.str (collapse_spaces (Py.chars s) false).

Definition normalize (s : string) : string :=
  let s := unidecode (Py.lower s) in
  let s := Py.str (map punct_to_space (Py.chars s)) in
  Py.strip (collapse s).

Definition similarity (a b : string) : Q :=
  if negb (Py.truthy a) || negb (Py.truthy b) then 0%Q
  else Difflib.ratio_str (normalize a) (normalize b).

(** [x > y] on scores. *)
Definition gt (x y : Q) : bool := negb (Qle_bool x y).

(** *** [extract_legal_name_from_website]

    What BeautifulSoup and the suffix patterns find in a page, place by
    place and in document order; each string is the candidate as the length
    and similarity tests see it: [clean_name] for the matches in the title, [content]
    for a meta tag (with its [meta_name]), [name] for a JSON-LD field (with
    its [name_field]), [header_text] for a header (with its tag), [clean_name]
    for the copyright matches and for the matches in the page text. *)
Record scan : Type :=
  { title_names : list string;
    meta_names : list (string * string);
    json_ld_names : list (string * string);
    header_names : list (string * string);
    copyright_names : list string;
    text_names : list string }.

Definition candidate : Type := (string * string * Q)%type.    (* name, source, similarity *)

(** [5 <= len(name) <= 150 and self.similarity(name, company_name) > 0.2] *)
Definition passes (name company_name : string) : bool :=
  (5 <=? Py.len name) && (Py.len name <=? 150) && gt (similarity name company_name) (2 # 10).

(** [re.search(r'cookie|privacy|voorwaarden|contact|home|menu|login|search',
    clean_name, re.I)] *)
Definition boilerplate : re :=
  alt_re (lit "cookie")
    [lit "privacy"; lit "voorwaarden"; lit "contact"; lit "home"; lit "menu";
     lit "login"; lit "search"].

Definition passes_text (name company_name : string) : bool :=
  (5 <=? Py.len name) && (Py.len name <=? 150)
  && negb (bool_decide (is_Some (search true boilerplate name)))
  && (2 <=? Py.split_len name)
  && gt (similarity name company_name) (2 # 10).

(** The candidates of one place, tagged with their source. *)
Definition tagged (company_name : string) (l : list (string * string)) : list candidate :=
  map (fun p => (snd p, fst p, similarity (snd p) company_name))
      (List.filter (fun p => passes (snd p) company_name) l).

(** [found_names], in the order the places are scanned. *)
Definition found_names (sc : scan) (company_name : string) : list candidate :=
  tagged company_name (map (fun n => ("title", n)) (title_names sc))
  ++ tagged company_name (map (fun p => ("meta:" ++ fst p, snd p)%string) (meta_names sc))
  ++ tagged company_name (map (fun p => ("json-ld:" ++ fst p, snd p)%string) (json_ld_names sc))
  ++ tagged company_name (map (fun p => ("header:" ++ fst p, snd p)%string) (header_names sc))
  ++ tagged company_name (map (fun n => ("copyright", n)) (copyright_names sc))
  ++ map (fun n => (n, "text_search", similarity n company_name))
         (List.filter (fun n => passes_text n company_name) (text_names sc)).

(** [unique_names]: a dict, its keys in insertion order. *)
Definition unique : Type := list (string * (string * Q)).

Fixpoint dict_get (d : unique) (name : string) : option (string * Q) :=
  match d with
  | [] => None
  | (n, v) :: d' => if String.eqb n name then Some v else dict_get d' name
  end.

(** [d[name] = v]: a present key keeps its place, a new one goes last. *)
Fixpoint dict_set (d : unique) (name : string) (v : string * Q) : unique :=
  match d with
  | [] => [(name, v)]
  | (n, v') :: d' =>
      if String.eqb n name then (n, v) :: d' else (n, v') :: dict_set d' name v
  end.

(** [if name not in unique_names or unique_names[name][1] < similarity] *)
Definition unique_step (d : unique) (c : candidate) : unique :=
  let '(name, source, sim) := c in
  match dict_get d name with
  | None => dict_set d name (source, sim)
  | Some (_, old) => if gt sim old then dict_set d name (source, sim) else d
  end.

(** [sorted_names.sort(key=lambda x: x[2], reverse=True)]: a stable sort, the
    higher similarity first, equal ones in the order they had. *)
Fixpoint insert_by_sim (c : candidate) (l : list candidate) : list candidate :=
  match l with
  | [] => [c]
  | c' :: l' => if gt (snd c') (snd c) then c' :: insert_by_sim c l' else c :: l
  end.

Definition sort_by_sim (l : list candidate) : list candidate := foldr insert_by_sim [] l.

Definition sorted_names (sc : scan) (company_name : string) : list candidate :=
  sort_by_sim
    (map (fun kv => (fst kv, fst (snd kv), snd (snd kv)))
         (fold_left unique_step (found_names sc company_name) [])).

(** The top five, as [(name, source)]. *)
Definition extract_legal_name_from_website (sc : scan) (company_name : string)
    : list (string * string) :=
  map (fun c => (fst (fst c), snd (fst c))) (firstn 5 (sorted_names sc company_name)).

(** *** The outside world of the Dutch extractor *)

(** The answers to [session.get] and to the browser, the two search forms
    driven through the browser (with the two results the caller reads: the
    number and the legal name, or the LEI code and the name), and what
    BeautifulSoup finds in a page, which may fail on a malformed one. *)
Record world : Type :=
  { session_get : list Eff.event -> string -> Eff.exn + Eff.response;
    chrome_start : list Eff.event -> option Eff.exn;
    driver_get : list Eff.event -> string -> Eff.exn + Eff.browser_page;
    kvk_register : list Eff.event -> string -> Eff.exn + (option string * option string);
    lei_lookup : list Eff.event -> string -> Eff.exn + (option string * option string);
    soup : string -> Eff.exn + scan }.

Definition truthy_opt (o : option string) : bool :=
  match o with
  | Some s => Py.truthy s
  | None => false
  end.

(** [setup_selenium]: a failure to start the browser leaves [self.driver]
    at [None]. *)
Definition setup_selenium (w : world) : Eff.M unit :=
  do d <- Eff.get_driver;
  if d then Eff.ret tt
  else
    Eff.try_except
      (do started <- Eff.call Eff.EvDriverStart
                       (fun h => match chrome_start w h with
                                 | Some e => inl e
                                 | None => inr tt
                                 end);
       Eff.set_driver true)
      (fun _ => Eff.set_driver false).

(** [response.raise_for_status()]: an [HTTPError], which is a
    [RequestException], for the codes 400 to 599. *)
Definition raise_for_status (r : Eff.response) : Eff.M unit :=
  if (400 <=? Eff.status_code r) && (Eff.status_code r <? 600)
  then Eff.raise {| Eff.is_request_exception := true; Eff.message := "HTTPError" |}
  else Eff.ret tt.

(** [fetch_with_requests]: only a [RequestException] is caught. *)
Definition fetch_with_requests (w : world) (url : string) : Eff.M (option string) :=
  Eff.try_except
    (do response <- Eff.call (Eff.EvGet url) (fun h => session_get w h url);
     run raise_for_status response;
     let content_type := Py.lower (Eff.content_type response) in
     if Py.contains "html" content_type || Py.contains "xml" content_type
     then Eff.ret (Some (Eff.text response))
     else Eff.ret None)
    (fun e => if Eff.is_request_exception e then Eff.ret None else Eff.raise e).

(** [fetch_with_selenium] *)
Definition fetch_with_selenium (w : world) (url : string) : Eff.M (option string) :=
  run setup_selenium w;
  do d <- Eff.get_driver;
  if negb d then Eff.ret None
  else
    Eff.try_except
      (do page <- Eff.call (Eff.EvDriverGet url) (fun h => driver_get w h url);
       Eff.ret (Some (Eff.page_source page)))
      (fun _ => Eff.ret None).

(** [search_kvk_register_enhanced] and [search_lei_lookup]: without a
    driver they give up at once; otherwise the form is driven, inside a
    [try] whose handler logs the exception and lets the function return
    [None, None]. *)
Definition search_kvk_register_enhanced (w : world) (company_name : string)
    : Eff.M (option string * option string) :=
  run setup_selenium w;
  do d <- Eff.get_driver;
  if negb d then Eff.ret (None, None)
  else
    Eff.try_except
      (Eff.call (Eff.EvKvkSearch company_name) (fun h => kvk_register w h company_name))
      (fun _ => Eff.ret (None, None)).

Definition search_lei_lookup (w : world) (company_name : string)
    : Eff.M (option string * option string) :=
  run setup_selenium w;
  do d <- Eff.get_driver;
  if negb d then Eff.ret (None, None)
  else
    Eff.try_except
      (Eff.call (Eff.EvLeiLookup company_name) (fun h => lei_lookup w h company_name))
      (fun _ => Eff.ret (None, None)).

(** [get_dutch_paths] *)
Definition get_dutch_paths : list string :=
  [ ""; "/contact"; "/contactgegevens"; "/contact-us"; "/contact-info";
    "/over-ons"; "/about"; "/about-us"; "/bedrijfsinfo"; "/bedrijfsinformatie";
    "/algemene-voorwaarden"; "/legal"; "/juridisch"; "/colofon"; "/impressum";
    "/privacy"; "/privacy-policy"; "/privacybeleid";
    "/footer"; "/imprint"; "/company-info" ]%string.

(** [if code_value and not found_codes[code_type]]: the first code of each
    kind is kept. *)
Definition keep_first (found new : option string) : option string :=
  if truthy_opt new && negb (truthy_opt found) then new else found.

Definition merge_codes (found new : codes) : codes :=
  {| kvk := keep_first (kvk found) (kvk new);
     rsin := keep_first (rsin found) (rsin new);
     lei := keep_first (lei found) (lei new);
     btw := keep_first (btw found) (btw new) |}.

Definition no_codes : codes := {| kvk := None; rsin := None; lei := None; btw := None |}.

(** The body of the loop of [search_website_for_info] for one url, inside
    its [try]: the new [found_legal_names] and [found_codes], and whether the
    loop is left ([break]).  The codes are merged before the names are
    looked for. *)
Definition visit (w : world) (url company_name : string)
    (names : list (string * string)) (found : codes)
    : Eff.M (list (string * string) * codes * bool) :=
  Eff.try_except
    (do first <- fetch_with_requests w url;
     do html_content <-
       (if truthy_opt first then Eff.ret first else fetch_with_selenium w url);
     match html_content with
     | Some html =>
         if Py.truthy html then
           let found' := merge_codes found (extract_codes_from_html html) in
           match soup w html with
           | inl _ => Eff.ret (names, found', false)
           | inr sc =>
               let names' := names ++ extract_legal_name_from_website sc company_name in
               Eff.ret (names', found',
                        truthy_opt (kvk found')
                        && negb (bool_decide (names' = [])))
           end
         else Eff.ret (names, found, false)
     | None => Eff.ret (names, found, false)
     end)
    (fun _ => Eff.ret (names, found, false)).

Fixpoint visit_paths (w : world) (base company_name : string) (paths : list string)
    (names : list (string * string)) (found : codes)
    : Eff.M (list (string * string) * codes) :=
  match paths with
  | [] => Eff.ret (names, found)
  | path :: paths' =>
      run Eff.info ("Checking: " ++ base ++ path);
      do r <- visit w (base ++ path)%string company_name names found;
      if snd r then Eff.ret (fst r)
      else visit_paths w base company_name paths' (fst (fst r)) (snd (fst r))
  end.

(** [search_website_for_info] *)
Definition search_website_for_info (w : world) (base_url company_name : string)
    : Eff.M (list (string * string) * codes) :=
  visit_paths w (Py.rstrip_slash base_url) company_name get_dutch_paths [] no_codes.


(** *** [process_single_dutch_company] *)

(** A row of the input, as far as the resolution reads it:
    [company['name']] and [company.get('website', '')]. *)
Record company : Type := { name : string; website : string }.

(** The result dict; the fields that only copy columns of the input row are
    left out. *)
Record result : Type :=
  { original_company_name : string;
    result_website : string;
    legal_name_website : string;
    legal_name_source : string;
    legal_name_kvk : option string;
    kvk_number : option string;
    result_rsin : option string;
    result_lei : option string;
    result_btw : option string;
    status : string;
    search_location : string;
    search_attempts : list string;
    error : option string }.

Definition set_status (v : string) (r : result) : result :=
  {| original_company_name := original_company_name r; result_website := result_website r;
     legal_name_website := legal_name_website r; legal_name_source := legal_name_source r;
     legal_name_kvk := legal_name_kvk r; kvk_number := kvk_number r;
     result_rsin := result_rsin r; result_lei := result_lei r; result_btw := result_btw r;
     status := v; search_location := search_location r;
     search_attempts := search_attempts r; error := error r |}.

Definition set_search_location (v : string) (r : result) : result :=
  {| original_company_name := original_company_name r; result_website := result_website r;
     legal_name_website := legal_name_website r; legal_name_source := legal_name_source r;
     legal_name_kvk := legal_name_kvk r; kvk_number := kvk_number r;
     result_rsin := result_rsin r; result_lei := result_lei r; result_btw := result_btw r;
     status := status r; search_location := v;
     search_attempts := search_attempts r; error := error r |}.

Definition set_error (v : option string) (r : result) : result :=
  {| original_company_name := original_company_name r; result_website := result_website r;
     legal_name_website := legal_name_website r; legal_name_source := legal_name_source r;
     legal_name_kvk := legal_name_kvk r; kvk_number := kvk_number r;
     result_rsin := result_rsin r; result_lei := result_lei r; result_btw := result_btw r;
     status := status r; search_location := search_location r;
     search_attempts := search_attempts r; error := v |}.

(** [result['search_attempts'].append(v)] *)
Definition add_attempt (v : string) (r : result) : result :=
  {| original_company_name := original_company_name r; result_website := result_website r;
     legal_name_website := legal_name_website r; legal_name_source := legal_name_source r;
     legal_name_kvk := legal_name_kvk r; kvk_number := kvk_number r;
     result_rsin := result_rsin r; result_lei := result_lei r; result_btw := result_btw r;
     status := status r; search_location := search_location r;
     search_attempts := search_attempts r ++ [v]; error := error r |}.

Definition set_kvk (number legal_name : option string) (r : result) : result :=
  {| original_company_name := original_company_name r; result_website := result_website r;
     legal_name_website := legal_name_website r; legal_name_source := legal_name_source r;
     legal_name_kvk := legal_name; kvk_number := number;
     result_rsin := result_rsin r; result_lei := result_lei r; result_btw := result_btw r;
     status := status r; search_location := search_location r;
     search_attempts := search_attempts r; error := error r |}.

Definition set_legal_name_website (n source : string) (r : result) : result :=
  {| original_company_name := original_company_name r; result_website := result_website r;
     legal_name_website := n; legal_name_source := source;
     legal_name_kvk := legal_name_kvk r; kvk_number := kvk_number r;
     result_rsin := result_rsin r; result_lei := result_lei r; result_btw := result_btw r;
     status := status r; search_location := search_location r;
     search_attempts := search_attempts r; error := error r |}.

(** The four assignments from [website_codes]. *)
Definition set_codes (c : codes) (r : result) : result :=
  {| original_company_name := original_company_name r; result_website := result_website r;
     legal_name_website := legal_name_website r; legal_name_source := legal_name_source r;
     legal_name_kvk := legal_name_kvk r; kvk_number := kvk c;
     result_rsin := rsin c; result_lei := lei c; result_btw := btw c;
     status := status r; search_location := search_location r;
     search_attempts := search_attempts r; error := error r |}.

Definition set_lei (v : option string) (r : result) : result :=
  {| original_company_name := original_company_name r; result_website := result_website r;
     legal_name_website := legal_name_website r; legal_name_source := legal_name_source r;
     legal_name_kvk := legal_name_kvk r; kvk_number := kvk_number r;
     result_rsin := result_rsin r; result_lei := v; result_btw := result_btw r;
     status := status r; search_location := search_location r;
     search_attempts := search_attempts r; error := error r |}.

Definition initial_result (company_name site : string) : result :=
  {| original_company_name := company_name; result_website := site;
     legal_name_website := ""; legal_name_source := "";
     legal_name_kvk := Some ""%string; kvk_number := Some ""%string;
     result_rsin := Some ""%string; result_lei := Some ""%string;
     result_btw := Some ""%string;
     status := "not_found"; search_location := ""; search_attempts := [];
     error := None |}.

(** The three searches the resolution calls on [self]: the register search,
    the scan of the site and the LEI lookup.  The resolution is written over
    them, whatever they return or raise. *)
Record searches : Type :=
  { by_register : string -> Eff.M (option string * option string);
    by_website : string -> string -> Eff.M (list (string * string) * codes);
    by_lei : string -> Eff.M (option string * option string) }.

(** The methods of this class. *)
Definition searches_of (w : world) : searches :=
  {| by_register := search_kvk_register_enhanced w;
     by_website := search_website_for_info w;
     by_lei := search_lei_lookup w |}.

(** How the [try] block is left: by a [return] (or by running to its end),
    or by an exception, with the result dict as it stands by then. *)
Inductive outcome : Type :=
| Returned (r : result)
| Raised (e : Eff.exn) (r : result).

(** A call inside the [try] block, the result dict being [r] at that
    point. *)
Definition attempt {A : Type} (r : result) (c : Eff.M A)
    (k : A -> Eff.M outcome) : Eff.M outcome :=
  fun st =>
    match c st with
    | (inl e, st') => (inr (Raised e r), st')
    | (inr x, st') => k x st'
    end.

Definition text_of (o : option string) : string := default ""%string o.

(** Step 5 and the end of the [try] block. *)
Definition other_codes (website_codes : codes) (r : result) : result :=
  if truthy_opt (rsin website_codes) || truthy_opt (btw website_codes) then
    let found_codes :=
      (if truthy_opt (rsin website_codes) then ["RSIN"%string] else [])
      ++ (if truthy_opt (btw website_codes) then ["BTW"%string] else []) in
    add_attempt ("Found other codes on website: " ++ String.concat ", " found_codes)
      (set_search_location "website_other_codes" (set_status "found_partial" r))
  else
    add_attempt "All search methods exhausted without success"
      (set_search_location "exhausted_all_methods" (set_status "not_found" r)).

(** Step 4: the loop over [legal_names_with_sources[:2]]. *)
Fixpoint lei_retry (m : searches) (names : list (string * string))
    (last : option string * option string) : Eff.M (option string * option string) :=
  match names with
  | [] => Eff.ret last
  | (legal_name, _) :: names' =>
      do r <- by_lei m legal_name;
      if truthy_opt (fst r) then Eff.ret r else lei_retry m names' r
  end.

Definition lei_step (m : searches) (company_name : string)
    (legal_names : list (string * string)) (website_codes : codes) (r : result)
    : Eff.M outcome :=
  run Eff.info "Step 4: Trying LEI lookup as fallback...";
  attempt r
    (do first <- by_lei m company_name;
     if negb (truthy_opt (fst first)) && negb (bool_decide (legal_names = []))
     then lei_retry m (firstn 2 legal_names) first
     else Eff.ret first)
    (fun found =>
       let '(lei_code, lei_legal_name) := found in
       if truthy_opt lei_code then
         let r := set_lei lei_code r in
         let r := if truthy_opt lei_legal_name
                  then set_legal_name_website (text_of lei_legal_name) "lei_lookup" r
                  else r in
         Eff.ret (Returned
           (add_attempt ("LEI lookup successful: " ++ text_of lei_code)
              (set_search_location "lei_lookup" (set_status "found_lei_only" r))))
       else
         Eff.ret (Returned (other_codes website_codes (add_attempt "LEI lookup failed" r)))).

(** Step 3: the loop over [legal_names_with_sources[:3]]; [k] is what
    follows the loop. *)
Fixpoint kvk_by_legal_name (m : searches) (names : list (string * string)) (r : result)
    (k : result -> Eff.M outcome) : Eff.M outcome :=
  match names with
  | [] => k r
  | (legal_name, _) :: names' =>
      run Eff.info ("Step 3: Trying KvK search with legal name: " ++ legal_name);
      attempt r (by_register m legal_name)
        (fun found =>
           let '(kvk_number_from_legal, kvk_legal_name_found) := found in
           if truthy_opt kvk_number_from_legal then
             Eff.ret (Returned
               (add_attempt ("KvK search via website legal name successful: "
                             ++ text_of kvk_number_from_legal)
                  (set_search_location "kvk_via_website_name"
                     (set_status "found"
                        (set_kvk kvk_number_from_legal kvk_legal_name_found r)))))
           else
             kvk_by_legal_name m names'
               (add_attempt ("KvK search with '" ++ legal_name ++ "' failed") r) k)
  end.

(** Step 2 and what follows it. *)
Definition website_step (m : searches) (company_name site : string) (r : result)
    : Eff.M outcome :=
  run Eff.info "Step 2: Scraping website for legal names...";
  attempt r (by_website m site company_name)
    (fun found =>
       let '(legal_names, website_codes) := found in
       let r :=
         match legal_names with
         | (n, source) :: _ =>
             add_attempt ("Website scraping found legal name: " ++ n)
               (set_legal_name_website n source r)
         | [] => add_attempt "Website scraping found no legal names" r
         end in
       let r := set_codes website_codes r in
       if truthy_opt (kvk website_codes) then
         Eff.ret (Returned
           (add_attempt ("Website direct extraction successful: "
                         ++ text_of (kvk website_codes))
              (set_search_location "website_direct" (set_status "found" r))))
       else
         kvk_by_legal_name m (firstn 3 legal_names) r
           (lei_step m company_name legal_names website_codes)).

(** The [try] block. *)
Definition try_block (m : searches) (company_name site : string) (r : result)
    : Eff.M outcome :=
  run Eff.info "Step 1: Searching KvK register with original name...";
  attempt r (by_register m company_name)
    (fun found =>
       let '(kvk_number, kvk_legal_name) := found in
       if truthy_opt kvk_number && truthy_opt kvk_legal_name then
         Eff.ret (Returned
           (add_attempt ("KvK direct search successful: " ++ text_of kvk_number)
              (set_search_location "kvk_register_direct"
                 (set_status "found" (set_kvk kvk_number kvk_legal_name r)))))
       else
         let r := add_attempt "KvK direct search failed" r in
         if negb (Py.truthy site) then
           Eff.ret (Returned
             (add_attempt "No website available for scraping"
                (set_error (Some "No website provided and not found in KvK register"%string)
                   (set_status "no_website" r))))
         else website_step m company_name site r).

(** [website = company.get('website', '').strip()], with the scheme put in
    front of a bare host. *)
Definition website_of (c : company) : string :=
  let site := Py.strip (website c) in
  if Py.truthy site && negb (Py.startswith site "http")
  then ("https://" ++ site)%string else site.

(** [process_single_dutch_company], over the three searches: what the
    [try] block raises becomes the row with the status [error]. *)
Definition process_single_dutch_company_with (m : searches) (c : company)
    : Eff.M result :=
  let site := website_of c in
  do out <- try_block m (name c) site (initial_result (name c) site);
  match out with
  | Returned r => Eff.ret r
  | Raised e r =>
      Eff.ret (add_attempt ("Error occurred: " ++ Eff.message e)
                 (set_status "error" (set_error (Some (Eff.message e)) r)))
  end.

Definition process_single_dutch_company (w : world) (c : company) : Eff.M result :=
  process_single_dutch_company_with (searches_of w) c.

(** [process_dutch_companies]: one result per company, in order. *)
Fixpoint process_dutch_companies_with (m : searches) (companies : list company)
    : Eff.M (list result) :=
  match companies with
  | [] => Eff.ret []
  | c :: companies' =>
      do r <- process_single_dutch_company_with m c;
      do rs <- process_dutch_companies_with m companies';
      Eff.ret (r :: rs)
  end.

Definition process_dutch_companies (w : world) (companies : list company)
    : Eff.M (list result) :=
  process_dutch_companies_with (searches_of w) companies.

End NL.

(** ** [uk_company_number_extractor.py]: the UK extractor *)
Module UK.
Import Re.
Local Open Scope list_scope.

(** [company_number_patterns] *)
Definition sp1 : re := plus space.                                  (* \s+ *)
Definition number8 : re := Grp (rep 8 (Cls digit)).                 (* ([0-9]{8}) *)

Definition company_number_patterns : list re :=
  [ seq_re [lit "Company"; sp1; lit "number"; Star (space_or ":"); number8];
    seq_re [lit "Company"; sp1; lit "No"; Star (space_or ".:"); number8];
    seq_re [lit "Registration"; sp1; lit "number"; Star (space_or ":"); number8];
    seq_re [lit "Registered"; sp1; lit "number"; Star (space_or ":"); number8];
    seq_re [number8;
            Look (seq_re [Star space;
                          alt_re (lit "Company") [lit "Registration"; lit "Registered"]])];
    seq_re [alt_re (lit "SC") [lit "OC"; lit "SO"]; Grp (rep 6 (Cls digit))] ].

(** [similarity]: no guard in this file. *)
Definition similarity (a b : string) : Q :=
  Difflib.ratio_str (Py.lower a) (Py.lower b).

(** The loop over the matches of one pattern.  [so] tells whether the
    branch for the prefix SO is there: it is in this file, and it is not in
    the copy of [complete_multi_country_vat_extractor.py]. *)
Fixpoint number_in_matches (so : bool) (ms : list match_obj) : option string :=
  match ms with
  | [] => None
  | mo :: ms' =>
      let clean_code := keep_digits (code_of mo) in
      let whole := Py.upper (group0 mo) in
      if (Py.len clean_code =? 8) && Py.isdigit clean_code then Some clean_code
      else if (Py.len clean_code =? 6) && Py.isdigit clean_code then
        if Py.contains "SC" whole then Some ("SC" ++ clean_code)%string
        else if Py.contains "OC" whole then Some ("OC" ++ clean_code)%string
        else if so && Py.contains "SO" whole then Some ("SO" ++ clean_code)%string
        else number_in_matches so ms'
      else number_in_matches so ms'
  end.

Fixpoint number_in_patterns (so : bool) (patterns : list re) (html_content : string)
    : option string :=
  match patterns with
  | [] => None
  | p :: patterns' =>
      match number_in_matches so (finditer true p html_content) with
      | Some c => Some c
      | None => number_in_patterns so patterns' html_content
      end
  end.

(** [extract_company_number_from_html] *)
Definition extract_company_number_from_html (html_content : string) : option string :=
  number_in_patterns true company_number_patterns html_content.

(** The outside world of the UK extractor: [session.get], the [a] elements
    BeautifulSoup finds in a page, each with its text and its [href], the
    name, status and type it reads off a company page, and the legal name that
    [extract_legal_name_structured_approach] ends with. *)
Record world : Type :=
  { session_get : list Eff.event -> string -> Eff.exn + Eff.response;
    anchors : string -> Eff.exn + list (string * string);
    company_page : string -> Eff.exn + (string * string * string);
    legal_name_on_site : string -> string -> Eff.exn + string }.

Definition companies_house : string :=
  "https://find-and-update.company-information.service.gov.uk".

(** [re.sub(r'[^\w\s]', '', company_name).strip()] *)
Definition clean_name (company_name : string) : string :=
  Py.strip (Py.str (List.filter (fun c => Py.is_word_char c || Py.is_space_char c)
                      (Py.chars company_name))).

(** [/company/([0-9A-Z]{6,8})] *)
Definition company_link : re :=
  seq_re [lit "/company/"; Grp (rep_range 6 8 (Cls upper_or_digit))].

(** The loop over [company_links]: the first link whose text is close
    enough to the name. *)
Fixpoint first_close_link (sim : string -> string -> Q) (company_name : string)
    (links : list (string * string)) : option string :=
  match links with
  | [] => None
  | (company_text, href) :: links' =>
      match search false company_link href with
      | Some mo =>
          if NL.gt (sim (Py.lower company_text) (Py.lower company_name)) (6 # 10)
          then group1 mo
          else first_close_link sim company_name links'
      | None => first_close_link sim company_name links'
      end
  end.

(** [search_companies_house_by_name]; the query goes out as the parameter
    [q] of the search url. *)
Definition search_by_name (sim : string -> string -> Q)
    (get : list Eff.event -> string -> Eff.exn + Eff.response)
    (links_of : string -> Eff.exn + list (string * string))
    (company_name : string) : Eff.M (option string) :=
  Eff.try_except
    (let url := (companies_house ++ "/search/companies?q=" ++ clean_name company_name)%string in
     do response <- Eff.call (Eff.EvGet url) (fun h => get h url);
     if Eff.status_code response =? 200 then
       match links_of (Eff.text response) with
       | inl e => Eff.raise e
       | inr links =>
           Eff.ret (first_close_link sim company_name
                      (List.filter
                         (fun l => bool_decide (is_Some (search false company_link (snd l))))
                         links))
       end
     else Eff.ret None)
    (fun _ => Eff.ret None).

Definition search_companies_house_by_name (w : world) (company_name : string)
    : Eff.M (option string) :=
  search_by_name similarity (session_get w) (anchors w) company_name.

(** [get_company_details_from_companies_house]: the name, the status, the
    type and the url of the company page. *)
Definition get_company_details_from_companies_house (w : world) (company_number : string)
    : Eff.M (option (string * string * string * string)) :=
  Eff.try_except
    (let url := (companies_house ++ "/company/" ++ company_number)%string in
     do response <- Eff.call (Eff.EvGet url) (fun h => session_get w h url);
     if Eff.status_code response =? 200 then
       match company_page w (Eff.text response) with
       | inl e => Eff.raise e
       | inr d => Eff.ret (Some (d, url))
       end
     else Eff.ret None)
    (fun _ => Eff.ret None).

Record result : Type :=
  { portfolio_company : string;
    company_url : string;
    legal_name : string;
    company_number : string;
    status : string;
    company_type : string;
    source : string;
    search_method : string;
    companies_house_url : string }.

Definition set_legal_name (v : string) (r : result) : result :=
  {| portfolio_company := portfolio_company r; company_url := company_url r;
     legal_name := v; company_number := company_number r; status := status r;
     company_type := company_type r; source := source r;
     search_method := search_method r; companies_house_url := companies_house_url r |}.

Definition set_company_number (v : string) (r : result) : result :=
  {| portfolio_company := portfolio_company r; company_url := company_url r;
     legal_name := legal_name r; company_number := v; status := status r;
     company_type := company_type r; source := source r;
     search_method := search_method r; companies_house_url := companies_house_url r |}.

Definition set_search_method (v : string) (r : result) : result :=
  {| portfolio_company := portfolio_company r; company_url := company_url r;
     legal_name := legal_name r; company_number := company_number r; status := status r;
     company_type := company_type r; source := source r;
     search_method := v; companies_house_url := companies_house_url r |}.

Definition set_companies_house_url (v : string) (r : result) : result :=
  {| portfolio_company := portfolio_company r; company_url := company_url r;
     legal_name := legal_name r; company_number := company_number r; status := status r;
     company_type := company_type r; source := source r;
     search_method := search_method r; companies_house_url := v |}.

(** [result.update({...})] with the details of the company page. *)
Definition set_details (number : string) (d : string * string * string * string)
    (r : result) : result :=
  let '(company_name, company_status, type_text, url) := d in
  {| portfolio_company := portfolio_company r; company_url := company_url r;
     legal_name := company_name; company_number := number; status := company_status;
     company_type := type_text; source := source r;
     search_method := search_method r; companies_house_url := url |}.

Definition initial_result (company_name url : string) : result :=
  {| portfolio_company := company_name; company_url := url; legal_name := "";
     company_number := ""; status := ""; company_type := "";
     source := "Companies House"; search_method := "companies_house_web";
     companies_house_url := "" |}.

(** The part of [process_company_with_companies_house] on the company's
    own website, inside its [try]: an exception leaves the result as it
    stands by then. *)
Definition website_part (w : world) (company_name url : string) (r : result)
    : Eff.M result :=
  if Py.truthy url then
    Eff.try_except
      (do response <- Eff.call (Eff.EvGet url) (fun h => session_get w h url);
       if Eff.status_code response =? 200 then
         let r :=
           match extract_company_number_from_html (Eff.text response) with
           | Some website_company_number =>
               if Py.truthy website_company_number
               then set_search_method "website_extraction"
                      (set_company_number website_company_number r)
               else r
           | None => r
           end in
         match legal_name_on_site w (Eff.text response) company_name with
         | inl _ => Eff.ret r
         | inr found =>
             if Py.truthy found && negb (String.eqb found company_name)
             then Eff.ret (set_legal_name found r)
             else Eff.ret r
         end
       else Eff.ret r)
      (fun _ => Eff.ret r)
  else Eff.ret r.

(** [process_company_with_companies_house] *)
Definition process_company_with_companies_house (w : world) (company_name url : string)
    : Eff.M result :=
  let r := initial_result company_name url in
  Eff.try_except
    (do found <- search_companies_house_by_name w company_name;
     do r <-
       (match found with
        | Some number =>
            if Py.truthy number then
              do company_details <- get_company_details_from_companies_house w number;
              match company_details with
              | Some d => Eff.ret (set_details number d r)
              | None =>
                  Eff.ret (set_companies_house_url
                             (companies_house ++ "/company/" ++ number)
                             (set_company_number number (set_legal_name company_name r)))
              end
            else Eff.ret (set_legal_name company_name r)
        | None => Eff.ret (set_legal_name company_name r)
        end);
     website_part w company_name url r)
    (fun _ => Eff.ret (set_legal_name company_name r)).

End UK.

(** ** [complete_multi_country_vat_extractor.py]: the orchestrator *)
Module Complete.
Import Re.
Local Open Scope list_scope.

(** [COUNTRY_CODES] *)
Definition COUNTRY_CODES : gmap string string :=
  list_to_map
    [ ("AT", "Austria"); ("CH", "Switzerland"); ("DE", "Germany"); ("FR", "France");
      ("GB", "United Kingdom"); ("IT", "Italy"); ("LU", "Luxembourg");
      ("NL", "Netherlands"); ("PT", "Portugal") ]%string.

(** A result dict. *)
Abbreviation result := (gmap string string).

Definition new_result (company_name company_url : string) (extra : list (string * string))
    : result :=
  list_to_map
    ([ ("company_name", company_name); ("website", company_url);
       ("legal_name", company_name) ]%string
     ++ extra ++ [ ("status", "Not Found") ]%string).

(** [r.get(key)] of the dict a computation ended with. *)
Definition field (key : string) (o : option result) : option string :=
  match o with
  | Some r => r !! key
  | None => None
  end.

(** [result.update(...)] with a list of pairs, and the status set to
    [Found]. *)
Definition found_with (pairs : list (string * string)) (r : result) : result :=
  <["status" := "Found"]> (foldl (fun acc kv => <[fst kv := snd kv]> acc) r pairs).

(** The outside world: [session.get], and the [a] elements of a Companies
    House result page. *)
Record world : Type :=
  { session_get : list Eff.event -> string -> Eff.exn + Eff.response;
    anchors : string -> Eff.exn + list (string * string) }.

(** The shape the extractors share: with a url, fetch the page and, on a
    200, put what [extract] finds in it into the result; an exception is
    logged and the result returned as it is. *)
Definition from_website (w : world) (extract : string -> list (string * string))
    (company_url : string) (r : result) : Eff.M result :=
  if Py.truthy company_url then
    Eff.try_except
      (do response <- Eff.call (Eff.EvGet company_url) (fun h => session_get w h company_url);
       if Eff.status_code response =? 200 then
         match extract (Eff.text response) with
         | [] => Eff.ret r
         | pairs => Eff.ret (found_with pairs r)
         end
       else Eff.ret r)
      (fun _ => Eff.ret r)
  else Eff.ret r.

(** *** [UKCompanyNumberExtractor] *)
Module UKCompanyNumberExtractor.

Definition similarity (a b : string) : Q :=
  if negb (Py.truthy a) || negb (Py.truthy b) then 0%Q
  else Difflib.ratio_str (Py.lower a) (Py.lower b).

(** The same patterns as in [uk_company_number_extractor.py], without the
    branch for the prefix SO. *)
Definition extract_company_number_from_html (html_content : string) : option string :=
  UK.number_in_patterns false UK.company_number_patterns html_content.

Definition search_companies_house_by_name (w : world) (company_name : string)
    : Eff.M (option string) :=
  UK.search_by_name similarity (session_get w) (anchors w) company_name.

Definition website_number (html_content : string) : list (string * string) :=
  match extract_company_number_from_html html_content with
  | Some website_company_number =>
      if Py.truthy website_company_number
      then [("company_number", website_company_number)]%string
      else []
  | None => []
  end.

(** [process_company] *)
Definition process_company (w : world) (company_name company_url : string)
    : Eff.M result :=
  let r := new_result company_name company_url [("company_number", "")]%string in
  Eff.try_except
    (do found <- search_companies_house_by_name w company_name;
     let r :=
       match found with
       | Some company_number =>
           if Py.truthy company_number
           then found_with [("company_number", company_number)]%string r
           else r
       | None => r
       end in
     from_website w website_number company_url r)
    (fun _ => Eff.ret r).

End UKCompanyNumberExtractor.

(** *** [DutchKvKExtractor], the copy in this file *)
Module DutchKvKExtractor.

Definition kvk_patterns : list re :=
  [ seq_re [lit "KvK"; NL.sep; Grp (NL.digits 8)];
    seq_re [lit "KvK-nummer"; NL.sep; Grp (NL.digits 8)];
    seq_re [lit "Kamer"; plus space; lit "van"; plus space; lit "Koophandel";
            NL.sep; Grp (NL.digits 8)];
    seq_re [lit "Chamber"; plus space; lit "of"; plus space; lit "Commerce";
            NL.sep; Grp (NL.digits 8)];
    seq_re [lit "CoC"; NL.sep; Grp (NL.digits 8)] ].

Definition btw_patterns : list re :=
  [ seq_re [lit "BTW"; NL.sep; NL.btw_tail];
    seq_re [lit "VAT"; NL.sep; NL.btw_tail];
    seq_re [lit "NL"; Grp (NL.digits 9); lit "B"; NL.digits 2] ].

(** [len(clean_code) == n and clean_code.isdigit()] *)
Definition n_digits (n : nat) (clean_code : string) : bool :=
  (Py.len clean_code =? n) && Py.isdigit clean_code.

Definition extract_kvk_from_html (html_content : string) : option string :=
  NL.first_code keep_digits (n_digits 8) kvk_patterns html_content.

Definition extract_btw_from_html (html_content : string) : option string :=
  NL.first_code keep_digits (n_digits 9) btw_patterns html_content.

Definition pair_if (key : string) (v : option string) : list (string * string) :=
  match v with
  | Some s => if Py.truthy s then [(key, s)] else []
  | None => []
  end.

Definition process_company (w : world) (company_name company_url : string)
    : Eff.M result :=
  from_website w
    (fun html => pair_if "kvk" (extract_kvk_from_html html)
                 ++ pair_if "btw" (extract_btw_from_html html))
    company_url (new_result company_name company_url []).

End DutchKvKExtractor.

(** *** The other seven extractors

    They have the shape of [from_website]; what each one scans a page for is
    a function of the page text alone and is taken as given: the pairs of
    number type and value for Germany, one code each for France, Italy,
    Portugal, Austria and Switzerland, and a dict of codes for Luxembourg. *)
Record scans : Type :=
  { extract_tax_number_from_html : string -> list (string * string);
    extract_siren_from_html : string -> option string;
    extract_vat_from_html_it : string -> option string;
    extract_nif_from_text : string -> option string;
    extract_vat_from_html_at : string -> option string;
    extract_uid_from_html : string -> option string;
    extract_codes_from_html_lu : string -> list (string * string) }.

(** [number_type.lower().replace('-', '_')] *)
Definition key_of_type (number_type : string) : string :=
  Py.str (map (fun c => if Ascii.eqb c "-" then "_"%char else c)
            (Py.chars (Py.lower number_type))).

Definition process_company_de (px : scans) (w : world) (company_name company_url : string)
    : Eff.M result :=
  from_website w
    (fun html => map (fun p => (key_of_type (fst p), snd p))
                     (extract_tax_number_from_html px html))
    company_url (new_result company_name company_url []).

Definition process_company_one (key : string) (extract : string -> option string)
    (w : world) (company_name company_url : string) : Eff.M result :=
  from_website w (fun html => DutchKvKExtractor.pair_if key (extract html))
    company_url (new_result company_name company_url []).

Definition process_company_lu (px : scans) (w : world) (company_name company_url : string)
    : Eff.M result :=
  from_website w (extract_codes_from_html_lu px)
    company_url (new_result company_name company_url []).

(** *** [CompleteMultiCountryVATExtractor] *)

(** [self.extractors] *)
Definition extractors (px : scans) (w : world)
    : gmap string (string -> string -> Eff.M result) :=
  list_to_map
    [ ("GB"%string, UKCompanyNumberExtractor.process_company w);
      ("DE"%string, process_company_de px w);
      ("FR"%string, process_company_one "siren" (extract_siren_from_html px) w);
      ("IT"%string, process_company_one "partita_iva" (extract_vat_from_html_it px) w);
      ("PT"%string, process_company_one "nif" (extract_nif_from_text px) w);
      ("NL"%string, DutchKvKExtractor.process_company w);
      ("AT"%string, process_company_one "vat" (extract_vat_from_html_at px) w);
      ("CH"%string, process_company_one "uid" (extract_uid_from_html px) w);
      ("LU"%string, process_company_lu px w) ].

(** [process_single_company] *)
Definition process_single_company (px : scans) (w : world)
    (company_name website country_code : string) : Eff.M result :=
  match extractors px w !! country_code with
  | Some extractor => extractor company_name website
  | None =>
      Eff.ret (list_to_map
                 [ ("company_name", company_name); ("website", website);
                   ("country", default country_code (COUNTRY_CODES !! country_code));
                   ("status", "Country not supported") ]%string)
  end.

(** A data frame: its column labels, and per row the text of each cell,
    [str(row[col])]; the index runs from 0. *)
Record dataframe : Type :=
  { columns : list string; rows : list (string -> string) }.

(** [[col for col in df.columns if any(keyword in col.lower() ...)]] *)
Definition matching_columns (keywords : list string) (df : dataframe) : list string :=
  List.filter (fun col => existsb (fun keyword => Py.contains keyword (Py.lower col)) keywords)
    (columns df).

(** The country of a row: [GB] unless the cell holds one of the nine codes;
    the names are looked up in upper case, as the cell was made. *)
Definition country_of (country_col : option string) (row : string -> string) : string :=
  match country_col with
  | None => "GB"
  | Some col =>
      let country_val := Py.upper (Py.strip (row col)) in
      if (Py.len country_val =? 2) && bool_decide (is_Some (COUNTRY_CODES !! country_val))
      then country_val
      else
        match List.find (fun kv => String.eqb (snd kv) country_val)
                (map_to_list COUNTRY_CODES) with
        | Some kv => fst kv
        | None => "GB"
        end
  end.

(** The loop of [process_company_list] over the rows; [progress_callback]
    is the caller's, and may raise. *)
Fixpoint process_rows (px : scans) (w : world)
    (progress_callback : option (nat -> nat -> option Eff.exn))
    (company_col : string) (website_col country_col : option string)
    (total idx : nat) (rows : list (string -> string)) : Eff.M (list result) :=
  match rows with
  | [] => Eff.ret []
  | row :: rows' =>
      run (match progress_callback with
           | Some callback =>
               match callback (idx + 1) total with
               | Some e => Eff.raise e
               | None => Eff.ret tt
               end
           | None => Eff.ret tt
           end);
      let company_name := Py.strip (row company_col) in
      let website := match website_col with
                     | Some col => Py.strip (row col)
                     | None => ""%string
                     end in
      let country_code := country_of country_col row in
      do r <- process_single_company px w company_name website country_code;
      do rs <- process_rows px w progress_callback company_col website_col country_col
                 total (S idx) rows';
      Eff.ret (r :: rs)
  end.

(** [process_company_list]; [df.columns[0]] of a frame without columns
    raises an [IndexError]. *)
Definition process_company_list (px : scans) (w : world) (df : dataframe)
    (progress_callback : option (nat -> nat -> option Eff.exn)) : Eff.M (list result) :=
  let name_cols := matching_columns ["company"; "name"; "portfolio"; "firm"]%string df in
  let website_col := head (matching_columns ["website"; "url"; "link"; "web"]%string df) in
  let country_col := head (matching_columns ["country"; "nation"; "geography"]%string df) in
  match head (name_cols ++ columns df) with
  | Some company_col =>
      process_rows px w progress_callback company_col website_col country_col
        (length (rows df)) 0 (rows df)
  | None =>
      Eff.raise {| Eff.is_request_exception := false;
                   Eff.message := "index 0 is out of bounds for axis 0 with size 0" |}
  end.

End Complete.

(** ** [new_vat_extractor_nl.py]: the sheet of companies and the summary *)
Module NLSheets.
Local Open Scope list_scope.

(** A sheet as pandas reads it: the column labels (text, each label once),
    and per row the cell under each label: [None] for an empty cell (NaN),
    else its text, [str(cell)]. *)
Record sheet : Type :=
  { columns : list string; rows : list (string -> option string) }.

(** [column_mappings] *)
Definition column_mappings : list (string * list string) :=
  [ ("pe_name", ["PE NAME"; "PE_NAME"; "Private Equity"; "PE"]);
    ("pe_country", ["Country (HQ)"; "PE Country"; "Country"]);
    ("pe_website", ["Website"; "PE Website"; "PE_Website"]);
    ("company_name", ["Portfolio Companies"; "Company Name"; "Target Company"; "Company"]);
    ("target_website", ["Target Website"; "Company Website"; "Website"; "URL"]);
    ("target_geography", ["Target Geography"; "Geography"; "Location"]);
    ("target_industry", ["Target Industry"; "Industry"; "Sector"]);
    ("target_sub_industry", ["Target Sub-Industry"; "Sub Industry"; "Sub-Industry"]);
    ("entry_year", ["Entry"; "Entry Year"; "Year"]) ]%string.

(** [column_mappings[key]] *)
Definition possible_names (key : string) : list string :=
  match List.find (fun kv => String.eqb (fst kv) key) column_mappings with
  | Some kv => snd kv
  | None => []
  end.

(** [any(col.strip().lower() == name.lower() for name in possible_names)] *)
Definition exact_match (names : list string) (col : string) : bool :=
  existsb (fun name => String.eqb (Py.lower (Py.strip col)) (Py.lower name)) names.

(** The inner loop: [name.lower() in col.lower() or col.lower() in
    name.lower()] for one of the names. *)
Definition partial_match (names : list string) (col : string) : bool :=
  existsb (fun name => Py.contains (Py.lower name) (Py.lower col)
                       || Py.contains (Py.lower col) (Py.lower name)) names.

(** The loop over [df.columns] for one key; [found] is
    [found_columns.get(key)].  An exact match ends the loop; a partial match
    is taken while nothing (or an empty label) is there. *)
Fixpoint find_column (names : list string) (cols : list string) (found : option string)
    : option string :=
  match cols with
  | [] => found
  | col :: cols' =>
      if exact_match names col then Some col
      else if negb (NL.truthy_opt found) && partial_match names col
           then find_column names cols' (Some col)
           else find_column names cols' found
  end.

(** [found_columns.get(key)] after the loops. *)
Definition found_column (key : string) (df : sheet) : option string :=
  find_column (possible_names key) (columns df) None.

(** [str(row[col]).strip()] when the column was found and the cell is not
    empty, else the empty string. *)
Definition cell_text (row : string -> option string) (col : option string) : string :=
  match col with
  | Some c =>
      match row c with
      | Some t => Py.strip t
      | None => ""
      end
  | None => ""
  end.

(** One row: skipped when the name is missing or blank. *)
Definition load_row (name_col : string) (website_col : option string)
    (row : string -> option string) : option NL.company :=
  match row name_col with
  | None => None
  | Some t =>
      if String.eqb (Py.strip t) "" then None
      else Some {| NL.name := Py.strip t; NL.website := cell_text row website_col |}
  end.

Fixpoint load_rows (name_col : string) (website_col : option string)
    (rows : list (string -> option string)) : list NL.company :=
  match rows with
  | [] => []
  | row :: rows' =>
      match load_row name_col website_col row with
      | Some c => c :: load_rows name_col website_col rows'
      | None => load_rows name_col website_col rows'
      end
  end.

Definition missing_columns : Eff.exn :=
  {| Eff.is_request_exception := false;
     Eff.message := "Missing required columns for company names. Expected one of: ['Portfolio Companies', 'Company Name', 'Target Company', 'Company']" |}.

(** [load_companies_from_excel]: [read] is what [pd.read_excel] gives; an
    exception is logged and raised again.  Of the company dicts the name and
    the website are kept, as in [NL.company]. *)
Definition load_companies_from_excel (read : Eff.exn + sheet) : Eff.exn + list NL.company :=
  match read with
  | inl e => inl e
  | inr df =>
      match found_column "company_name" df with
      | None => inl missing_columns
      | Some name_col =>
          inr (load_rows name_col (found_column "target_website" df) (rows df))
      end
  end.

(** [len([r for r in self.results if r[field] == value])] *)
Definition count (field : NL.result -> string) (value : string) (results : list NL.result)
    : nat :=
  length (List.filter (fun r => String.eqb (field r) value) results).

(** The numbers [generate_summary_report] prints. *)
Record summary : Type :=
  { total : nat;
    found : nat; found_lei : nat; found_partial : nat;
    not_found : nat; errors : nat; no_website : nat;
    kvk_direct : nat; website_direct : nat; kvk_via_website : nat; lei_found : nat;
    total_success : nat }.

(** [generate_summary_report]: nothing but a notice for an empty list (so
    the percentages never divide by zero). *)
Definition generate_summary_report (results : list NL.result) : option summary :=
  let total := length results in
  if total =? 0 then None
  else
    let found := count NL.status "found" results in
    let found_lei := count NL.status "found_lei_only" results in
    let found_partial := count NL.status "found_partial" results in
    Some {| total := total;
            found := found;
            found_lei := found_lei;
            found_partial := found_partial;
            not_found := count NL.status "not_found" results;
            errors := count NL.status "error" results;
            no_website := count NL.status "no_website" results;
            kvk_direct := count NL.search_location "kvk_register_direct" results;
            website_direct := count NL.search_location "website_direct" results;
            kvk_via_website := count NL.search_location "kvk_via_website_name" results;
            lei_found := count NL.search_location "lei_lookup" results;
            total_success := found + found_lei + found_partial |}.

End NLSheets.

(** ** [uk_company_number_extractor.py]: the list of companies *)
Module UKPortfolio.
Local Open Scope list_scope.

(** An element of [companies_data]: a dict (its values under [name] and
    [url] are text), or anything else, of which [str(...)] is taken. *)
Inductive company_data : Type :=
| Dict (d : gmap string string)
| Other (text : string).

(** [company_data.get('name', '')], or [str(company_data)] *)
Definition name_of (c : company_data) : string :=
  match c with
  | Dict d => default ""%string (d !! "name"%string)
  | Other text => text
  end.

(** [company_data.get('url', '')], or the empty string *)
Definition url_of (c : company_data) : string :=
  match c with
  | Dict d => default ""%string (d !! "url"%string)
  | Other _ => ""%string
  end.

(** [process_portfolio_companies]: [self.results] starts empty, and an
    element without a name is passed over. *)
Fixpoint process_portfolio_companies (w : UK.world) (companies_data : list company_data)
    : Eff.M (list UK.result) :=
  match companies_data with
  | [] => Eff.ret []
  | c :: companies_data' =>
      if Py.truthy (name_of c) then
        do r <- UK.process_company_with_companies_house w (name_of c) (url_of c);
        do rs <- process_portfolio_companies w companies_data';
        Eff.ret (r :: rs)
      else process_portfolio_companies w companies_data'
  end.

End UKPortfolio.

(** ** [complete_multi_country_vat_extractor.py]: three more extractors

    The extractors for Italy, Austria and Luxembourg, with their patterns;
    each [process_company] is [Complete.from_website] around the scan. *)
Module ItalyVATExtractor.
Import Re.
Local Open Scope list_scope.

Definition number11 : re := Grp (NL.digits 11).               (* ([0-9]{11}) *)

(** [vat_patterns] *)
Definition vat_patterns : list re :=
  [ seq_re [Chr "P"; opt (Chr "."); NL.ws; lit "IVA"; NL.sep; number11];
    seq_re [lit "Partita"; plus space; lit "IVA"; NL.sep; number11];
    seq_re [lit "Codice"; plus space; lit "Fiscale"; NL.sep; number11];
    seq_re [lit "C."; NL.ws; Chr "F"; opt (Chr "."); NL.sep; number11];
    seq_re [lit "CF"; NL.sep; number11];
    seq_re [lit "VAT"; NL.sep; lit "IT"; number11] ].

(** [extract_vat_from_html] *)
Definition extract_vat_from_html (html_content : string) : option string :=
  NL.first_code keep_digits (Complete.DutchKvKExtractor.n_digits 11) vat_patterns
    html_content.

Definition process_company (w : Complete.world) (company_name company_url : string)
    : Eff.M Complete.result :=
  Complete.process_company_one "partita_iva" extract_vat_from_html w company_name company_url.

End ItalyVATExtractor.

Module AustrianCompanyExtractor.
Import Re.
Local Open Scope list_scope.

Definition number8 : re := Grp (NL.digits 8).                 (* ([0-9]{8}) *)
Definition atu : re := seq_re [lit "ATU"; NL.ws; number8].    (* ATU\s*([0-9]{8}) *)

(** [vat_patterns], each with its text, which [extract_vat_from_html]
    looks at. *)
Definition vat_patterns : list (string * re) :=
  [ ("ATU\s*([0-9]{8})"%string, atu);
    ("VAT\s*ID[\s:\-]*ATU\s*([0-9]{8})"%string,
     seq_re [lit "VAT"; NL.ws; lit "ID"; Star (space_or ":-"); atu]);
    ("Umsatzsteuer[\-\s]*(?:ID|nummer)[\s:\-]*ATU\s*([0-9]{8})"%string,
     seq_re [lit "Umsatzsteuer"; Star (space_or "-"); Alt (lit "ID") (lit "nummer");
             Star (space_or ":-"); atu]);
    ("FN\s*([0-9]{6}[a-z])"%string,
     seq_re [lit "FN"; NL.ws; Grp (Cat (NL.digits 6) (Cls Py.is_lower_char))]) ].

(** The loop over the matches of one pattern. *)
Fixpoint vat_in_matches (pattern : string) (ms : list match_obj) : option string :=
  match ms with
  | [] => None
  | mo :: ms' =>
      let code := code_of mo in
      if Py.startswith pattern "ATU" && (Py.len code =? 8) && Py.isdigit code
      then Some ("ATU" ++ code)%string
      else if Py.startswith pattern "FN" && (Py.len code =? 7)
      then Some ("FN" ++ code)%string
      else vat_in_matches pattern ms'
  end.

Fixpoint vat_in_patterns (patterns : list (string * re)) (html_content : string)
    : option string :=
  match patterns with
  | [] => None
  | (pattern, r) :: patterns' =>
      match vat_in_matches pattern (finditer true r html_content) with
      | Some vat => Some vat
      | None => vat_in_patterns patterns' html_content
      end
  end.

(** [extract_vat_from_html] *)
Definition extract_vat_from_html (html_content : string) : option string :=
  vat_in_patterns vat_patterns html_content.

Definition process_company (w : Complete.world) (company_name company_url : string)
    : Eff.M Complete.result :=
  Complete.process_company_one "vat" extract_vat_from_html w company_name company_url.

End AustrianCompanyExtractor.

Module LuxembourgCompanyExtractor.
Import Re.
Local Open Scope list_scope.

Definition lu : re := seq_re [lit "LU"; NL.ws; Grp (NL.digits 8)].   (* LU\s*([0-9]{8}) *)

(** [vat_patterns], each with its text. *)
Definition vat_patterns : list (string * re) :=
  [ ("LU\s*([0-9]{8})"%string, lu);
    ("VAT[\s:]*LU\s*([0-9]{8})"%string, seq_re [lit "VAT"; Star (space_or ":"); lu]);
    ("B\s*([0-9]{6})"%string, seq_re [Chr "B"; NL.ws; Grp (NL.digits 6)]) ].

(** [results]: the two keys the loop can set, in the order it sets them. *)
Record codes : Type := { vat : option string; registration_no : option string }.

(** The loop over the matches of one pattern: every match counts, so the
    last one stays. *)
Fixpoint codes_in_matches (pattern : string) (ms : list match_obj) (results : codes)
    : codes :=
  match ms with
  | [] => results
  | mo :: ms' =>
      let code := code_of mo in
      codes_in_matches pattern ms'
        (if Py.startswith pattern "LU" && (Py.len code =? 8)
         then {| vat := Some ("LU" ++ code)%string;
                 registration_no := registration_no results |}
         else if Py.startswith pattern "B" && (Py.len code =? 6)
         then {| vat := vat results;
                 registration_no := Some ("B" ++ code)%string |}
         else results)
  end.

Fixpoint codes_in_patterns (patterns : list (string * re)) (html_content : string)
    (results : codes) : codes :=
  match patterns with
  | [] => results
  | (pattern, r) :: patterns' =>
      codes_in_patterns patterns' html_content
        (codes_in_matches pattern (finditer true r html_content) results)
  end.

(** [extract_codes_from_html]: the dict as its items. *)
Definition extract_codes_from_html (html_content : string) : list (string * string) :=
  let results :=
    codes_in_patterns vat_patterns html_content
      {| vat := None; registration_no := None |} in
  match vat results with Some v => [("vat"%string, v)] | None => [] end
  ++ match registration_no results with
     | Some v => [("registration_no"%string, v)]
     | None => []
     end.

Definition process_company (w : Complete.world) (company_name company_url : string)
    : Eff.M Complete.result :=
  Complete.from_website w extract_codes_from_html company_url
    (Complete.new_result company_name company_url []).

End LuxembourgCompanyExtractor.

(** ** Example worlds and inputs *)
Module Examples.
Local Open Scope list_scope.

(** A 200 response with an HTML body. *)
Definition html_page (body : string) : Eff.response :=
  {| Eff.status_code := 200; Eff.content_type := "text/html; charset=utf-8";
     Eff.text := body |}.

Definition connection_error : Eff.exn :=
  {| Eff.is_request_exception := true; Eff.message := "Connection refused" |}.

(** A web where one url answers with the given page and every other request
    fails to connect. *)
Definition one_page (url body : string) (_ : list Eff.event) (asked : string)
    : Eff.exn + Eff.response :=
  if String.eqb asked url then inr (html_page body) else inl connection_error.

(** Scans that find nothing, for the seven extractors that are not unfolded. *)
Definition no_scans : Complete.scans :=
  {| Complete.extract_tax_number_from_html := fun _ => [];
     Complete.extract_siren_from_html := fun _ => None;
     Complete.extract_vat_from_html_it := fun _ => None;
     Complete.extract_nif_from_text := fun _ => None;
     Complete.extract_vat_from_html_at := fun _ => None;
     Complete.extract_uid_from_html := fun _ => None;
     Complete.extract_codes_from_html_lu := fun _ => [] |}.

(** The scenario of the specification: the site of a Dutch company shows
    "KvK: 01234567". *)
Definition acme_nl : Complete.world :=
  {| Complete.session_get := one_page "https://acme.nl" "KvK: 01234567";
     Complete.anchors := fun _ => inr [] |}.

(** A web where nothing can be reached. *)
Definition offline : Complete.world :=
  {| Complete.session_get := fun _ _ => inl connection_error;
     Complete.anchors := fun _ => inr [] |}.

(** Companies House lists Acme Ltd under 12345678, and the site of the
    company gives the number 87654321. *)
Definition acme_uk_search : string :=
  (UK.companies_house ++ "/search/companies?q=Acme Ltd")%string.

Definition acme_uk_get (_ : list Eff.event) (asked : string) : Eff.exn + Eff.response :=
  if String.eqb asked "https://acme.co.uk"
  then inr (html_page "Acme Ltd. Company number: 87654321")
  else if String.eqb asked acme_uk_search then inr (html_page "results")
  else inl connection_error.

Definition acme_uk : Complete.world :=
  {| Complete.session_get := acme_uk_get;
     Complete.anchors := fun _ => inr [("Acme Ltd", "/company/12345678")]%string |}.

Definition acme_uk_original : UK.world :=
  {| UK.session_get := acme_uk_get;
     UK.anchors := fun _ => inr [("Acme Ltd", "/company/12345678")]%string;
     UK.company_page := fun _ => inr ("ACME LTD", "Active", "Private limited Company")%string;
     UK.legal_name_on_site := fun _ _ => inr "Acme Ltd"%string |}.

Definition nothing_scanned : NL.scan :=
  {| NL.title_names := []; NL.meta_names := []; NL.json_ld_names := [];
     NL.header_names := []; NL.copyright_names := []; NL.text_names := [] |}.

(** A Dutch world: the web answers through [get], the browser starts and
    cannot load any page, and the two search forms find nothing. *)
Definition dutch (get : list Eff.event -> string -> Eff.exn + Eff.response)
    (page : NL.scan) : NL.world :=
  {| NL.session_get := get;
     NL.chrome_start := fun _ => None;
     NL.driver_get := fun _ _ => inl {| Eff.is_request_exception := false;
                                        Eff.message := "net::ERR_CONNECTION_REFUSED" |};
     NL.kvk_register := fun _ _ => inr (None, None);
     NL.lei_lookup := fun _ _ => inr (None, None);
     NL.soup := fun _ => inr page |}.

Definition dutch_offline : NL.world :=
  dutch (fun _ _ => inl connection_error) nothing_scanned.

(** A register search that fails outside its own handler, next to the
    methods of the class for the rest. *)
Definition form_error : Eff.exn :=
  {| Eff.is_request_exception := false;
     Eff.message := "Message: no such element: input#search" |}.

Definition failing_register : NL.searches :=
  {| NL.by_register := fun _ => Eff.raise form_error;
     NL.by_website := NL.search_website_for_info dutch_offline;
     NL.by_lei := NL.search_lei_lookup dutch_offline |}.

(** Companies House answers, and its result page cannot be parsed. *)
Definition parse_error : Eff.exn :=
  {| Eff.is_request_exception := false; Eff.message := "unexpected end of data" |}.

Definition unreadable_results : Complete.world :=
  {| Complete.session_get := fun _ _ => inr (html_page "results");
     Complete.anchors := fun _ => inl parse_error |}.

(** A sheet of two British companies without websites, and a progress
    callback that fails at the second row. *)
Definition two_rows : Complete.dataframe :=
  {| Complete.columns := ["Company"; "Country"]%string;
     Complete.rows :=
       [ (fun col => if String.eqb col "Company" then "Acme Ltd" else "GB")%string;
         (fun col => if String.eqb col "Company" then "Bolt Ltd" else "GB")%string ] |}.

Definition widget_error : Eff.exn :=
  {| Eff.is_request_exception := false; Eff.message := "progress bar is gone" |}.

Definition failing_callback (done total : nat) : option Eff.exn :=
  if done =? 2 then Some widget_error else None.

(** The register knows Acme under its trade name. *)
Definition register_knows : NL.world :=
  {| NL.session_get := fun _ _ => inl connection_error;
     NL.chrome_start := fun _ => None;
     NL.driver_get := NL.driver_get dutch_offline;
     NL.kvk_register := fun _ _ => inr (Some "12345678", Some "Acme B.V.")%string;
     NL.lei_lookup := fun _ _ => inr (None, None);
     NL.soup := fun _ => inr nothing_scanned |}.

(** The register knows nothing, and the front page of the site of Acme
    shows its KvK number. *)
Definition acme_site : NL.world :=
  dutch (one_page "https://acme.nl" "<p>KvK: 12345678</p>") nothing_scanned.

(** A page whose title names "Acme BV" and whose JSON-LD block names
    "Acme NV". *)
Definition two_names : NL.scan :=
  {| NL.title_names := ["Acme BV"%string];
     NL.meta_names := [];
     NL.json_ld_names := [("name", "Acme NV")%string];
     NL.header_names := [];
     NL.copyright_names := [];
     NL.text_names := [] |}.

(** A redirection page: the status 300 with an HTML body. *)
Definition multiple_choices : Eff.response :=
  {| Eff.status_code := 300; Eff.content_type := "text/html";
     Eff.text := "<h1>Multiple Choices</h1>" |}.

(** A sheet with a column that only resembles a name label before the one
    that is a name label, and with a row without a name. *)
Definition portfolio_sheet : NLSheets.sheet :=
  {| NLSheets.columns := ["Company Website"; "Company Name"]%string;
     NLSheets.rows :=
       [ (fun col => if String.eqb col "Company Name" then Some " Acme B.V. "
                     else Some "acme.nl")%string;
         (fun col => if String.eqb col "Company Name" then None
                     else Some "bolt.nl")%string ] |}.

(** The site of an Italian company shows its Partita IVA. *)
Definition acme_it : Complete.world :=
  {| Complete.session_get := one_page "https://acme.it" "Acme S.r.l. - P.IVA 12345678901";
     Complete.anchors := fun _ => inr [] |}.

End Examples.

(** * Properties *)

(** ** The Dutch validators *)

(** The input is a string of exactly nine digits. *)
Definition nine_digits (s : string) : bool := (Py.len s =? 9) && Py.isdigit s.

(** The check as the specification words it: with the digits d0..d8 and
    checksum = (9*d0 + 8*d1 + ... + 2*d7) mod 11, d8 is the checksum when that is
    below 2 and 11 - checksum otherwise. *)
Definition rsin_formula (d : list Z) : Prop :=
  let checksum := ((9 * nth 0 d 0 + 8 * nth 1 d 0 + 7 * nth 2 d 0 + 6 * nth 3 d 0
                   + 5 * nth 4 d 0 + 4 * nth 5 d 0 + 3 * nth 6 d 0 + 2 * nth 7 d 0) mod 11)%Z in
  ((checksum < 2)%Z /\ nth 8 d 0%Z = checksum) \/
  ((2 <= checksum)%Z /\ nth 8 d 0%Z = (11 - checksum)%Z).

Lemma chars_str l : Py.chars (Py.str l) = l.
Proof. apply list_ascii_of_string_of_list_ascii. Qed.

Lemma str_chars s : Py.str (Py.chars s) = s.
Proof. apply string_of_list_ascii_of_string. Qed.

Lemma len_chars s : Py.len s = length (Py.chars s).
Proof. unfold Py.len, Py.chars. induction s; simpl; auto. Qed.

Lemma is_digit_int c : Py.is_digit_char c = true -> (0 <= Py.int c <= 9)%Z.
Proof.
  unfold Py.is_digit_char, Py.int. intros H.
  apply andb_true_iff in H as [H1 H2].
  apply Nat.leb_le in H1, H2. lia.
Qed.

Lemma int_inj c c' : Py.int c = Py.int c' -> c = c'.
Proof.
  unfold Py.int. intros H.
  assert (nat_of_ascii c = nat_of_ascii c') by lia.
  rewrite <- (ascii_nat_embedding c), <- (ascii_nat_embedding c'). congruence.
Qed.

Lemma checksum_unfold d0 d1 d2 d3 d4 d5 d6 d7 d8 :
  NL.checksum_of [d0;d1;d2;d3;d4;d5;d6;d7;d8] =
  ((9*d0 + 8*d1 + 7*d2 + 6*d3 + 5*d4 + 4*d5 + 3*d6 + 2*d7) mod 11)%Z.
Proof. unfold NL.checksum_of, Py.sum, Py.range. simpl. f_equal. lia. Qed.

Lemma nine_digits_chars s :
  nine_digits s = true ->
  exists c0 c1 c2 c3 c4 c5 c6 c7 c8,
    Py.chars s = [c0;c1;c2;c3;c4;c5;c6;c7;c8] /\
    Forall (fun c => Py.is_digit_char c = true) [c0;c1;c2;c3;c4;c5;c6;c7;c8].
Proof.
  unfold nine_digits, Py.isdigit. intros H.
  apply andb_true_iff in H as [Hl H]. apply andb_true_iff in H as [_ Hd].
  apply Nat.eqb_eq in Hl. rewrite len_chars in Hl.
  pose proof (proj1 (forallb_forall _ _) Hd) as Hd'.
  destruct (Py.chars s) as [|c0 [|c1 [|c2 [|c3 [|c4 [|c5 [|c6 [|c7 [|c8 [|? ?]]]]]]]]]]; simpl in Hl; try discriminate.
  exists c0, c1, c2, c3, c4, c5, c6, c7, c8. split; [reflexivity|].
  apply Forall_forall. intros x Hx. apply Hd'. apply list_elem_of_In. exact Hx.
Qed.

(** The body of [validate_rsin_number] after its guard. *)
Definition rsin_ok (d : list Z) : bool :=
  let checksum := NL.checksum_of d in
  if (checksum <? 2)%Z then (nth 8 d 0 =? checksum)%Z else (nth 8 d 0 =? 11 - checksum)%Z.

Lemma validate_rsin_guarded s :
  NL.validate_rsin_number s = nine_digits s && rsin_ok (NL.digits_of s).
Proof.
  unfold NL.validate_rsin_number, nine_digits, Py.isdigit, rsin_ok.
  destruct (Py.truthy s), (Py.len s =? 9), (forallb Py.is_digit_char (Py.chars s)); reflexivity.
Qed.

Lemma rsin_ok_formula d0 d1 d2 d3 d4 d5 d6 d7 d8 :
  rsin_ok [d0;d1;d2;d3;d4;d5;d6;d7;d8] = true <->
  rsin_formula [d0;d1;d2;d3;d4;d5;d6;d7;d8].
Proof.
  unfold rsin_ok, rsin_formula. rewrite checksum_unfold. cbn [nth].
  set (c := ((9*d0 + 8*d1 + 7*d2 + 6*d3 + 5*d4 + 4*d5 + 3*d6 + 2*d7) mod 11)%Z).
  destruct (Z.ltb_spec c 2); rewrite Z.eqb_eq; lia.
Qed.

Definition digit_val (x : Z) : Prop := (0 <= x <= 9)%Z.

(** Replacing one digit moves the weighted sum by a multiple of a weight in
    2..9, never by a multiple of 11. *)
Lemma mutation_arith (w S x x' : Z) :
  (2 <= w <= 9)%Z -> digit_val x -> digit_val x' -> x <> x' ->
  ((S + w * x) mod 11 <> (S + w * x') mod 11)%Z.
Proof.
  unfold digit_val. intros Hw Hx Hx' Hne Heq.
  assert (Hd : ((w * (x - x')) mod 11 = 0)%Z).
  { replace (w * (x - x'))%Z with ((S + w * x) - (S + w * x'))%Z by lia.
    rewrite Zminus_mod, Heq, Z.sub_diag. reflexivity. }
  apply Z.mod_divide in Hd; [|lia].
  destruct Hd as [k Hk].
  assert (w = 2 \/ w = 3 \/ w = 4 \/ w = 5 \/ w = 6 \/ w = 7 \/ w = 8 \/ w = 9)%Z as Hcases by lia.
  assert (-9 <= x - x' <= 9)%Z by lia.
  destruct Hcases as [->|[->|[->|[->|[->|[->|[->| ->]]]]]]]; lia.
Qed.

Ltac mod_bounds :=
  repeat match goal with
  | |- context [(?a mod 11)%Z] =>
      let c := fresh "c" in
      let Hc := fresh "Hc" in
      pose proof (Z.mod_pos_bound a 11 ltac:(lia)) as Hc;
      set (c := (a mod 11)%Z) in *; clearbody c
  | _ : context [(?a mod 11)%Z] |- _ =>
      let c := fresh "c" in
      let Hc := fresh "Hc" in
      pose proof (Z.mod_pos_bound a 11 ltac:(lia)) as Hc;
      set (c := (a mod 11)%Z) in *; clearbody c
  end.

Lemma mutation_digits (c0 c1 c2 c3 c4 c5 c6 c7 c8 c : ascii) (i : nat) :
  let l := [c0;c1;c2;c3;c4;c5;c6;c7;c8] in
  Forall (fun x => Py.is_digit_char x = true) l ->
  Py.is_digit_char c = true ->
  i < 9 -> nth i l c <> c ->
  rsin_ok (map Py.int l) = true ->
  (rsin_ok (map Py.int (NL.replace_nth i c l)) = true <->
   i < 8 /\ Py.int c8 = 1%Z /\
   (NL.checksum_of (map Py.int (NL.replace_nth i c l)) = 1%Z \/
    NL.checksum_of (map Py.int (NL.replace_nth i c l)) = 10%Z)).
Proof.
  intros l Hl Hc Hi Hne Hok. subst l.
  repeat match goal with H : Forall _ (_ :: _) |- _ => inversion H; subst; clear H end.
  repeat match goal with H : Py.is_digit_char _ = true |- _ => apply is_digit_int in H end.
  assert (Hdiff : forall y, nth i [c0;c1;c2;c3;c4;c5;c6;c7;c8] c = y -> Py.int y <> Py.int c).
  { intros y Hy Heq. apply Hne. rewrite Hy. apply int_inj. exact Heq. }
  cbn [map] in Hok. apply rsin_ok_formula in Hok. unfold rsin_formula in Hok. cbn [nth] in Hok.
  revert Hdiff.
  let rec cases :=
    destruct i as [|i];
    [ intros Hdiff; specialize (Hdiff _ eq_refl); cbn [nth] in Hdiff | first [ exfalso; lia | cases ] ] in cases;
  cbn [NL.replace_nth map]; rewrite rsin_ok_formula, checksum_unfold;
  unfold rsin_formula; cbn [nth].
  1: pose proof (mutation_arith 9 (8 * Py.int c1 + 7 * Py.int c2 + 6 * Py.int c3 + 5 * Py.int c4 + 4 * Py.int c5 + 3 * Py.int c6 + 2 * Py.int c7) (Py.int c0) (Py.int c)) as HA.
  2: pose proof (mutation_arith 8 (9 * Py.int c0 + 7 * Py.int c2 + 6 * Py.int c3 + 5 * Py.int c4 + 4 * Py.int c5 + 3 * Py.int c6 + 2 * Py.int c7) (Py.int c1) (Py.int c)) as HA.
  3: pose proof (mutation_arith 7 (9 * Py.int c0 + 8 * Py.int c1 + 6 * Py.int c3 + 5 * Py.int c4 + 4 * Py.int c5 + 3 * Py.int c6 + 2 * Py.int c7) (Py.int c2) (Py.int c)) as HA.
  4: pose proof (mutation_arith 6 (9 * Py.int c0 + 8 * Py.int c1 + 7 * Py.int c2 + 5 * Py.int c4 + 4 * Py.int c5 + 3 * Py.int c6 + 2 * Py.int c7) (Py.int c3) (Py.int c)) as HA.
  5: pose proof (mutation_arith 5 (9 * Py.int c0 + 8 * Py.int c1 + 7 * Py.int c2 + 6 * Py.int c3 + 4 * Py.int c5 + 3 * Py.int c6 + 2 * Py.int c7) (Py.int c4) (Py.int c)) as HA.
  6: pose proof (mutation_arith 4 (9 * Py.int c0 + 8 * Py.int c1 + 7 * Py.int c2 + 6 * Py.int c3 + 5 * Py.int c4 + 3 * Py.int c6 + 2 * Py.int c7) (Py.int c5) (Py.int c)) as HA.
  7: pose proof (mutation_arith 3 (9 * Py.int c0 + 8 * Py.int c1 + 7 * Py.int c2 + 6 * Py.int c3 + 5 * Py.int c4 + 4 * Py.int c5 + 2 * Py.int c7) (Py.int c6) (Py.int c)) as HA.
  8: pose proof (mutation_arith 2 (9 * Py.int c0 + 8 * Py.int c1 + 7 * Py.int c2 + 6 * Py.int c3 + 5 * Py.int c4 + 4 * Py.int c5 + 3 * Py.int c6) (Py.int c7) (Py.int c)) as HA.
  1-8: unfold digit_val in HA;
       specialize (HA ltac:(lia) ltac:(lia) ltac:(lia) ltac:(lia));
       match type of HA with (?a mod 11 <> ?b mod 11)%Z =>
         match goal with |- context [(?a' mod 11)%Z] =>
           replace a' with b by lia end;
         match type of Hok with context [(?a' mod 11)%Z] =>
           replace a' with a in Hok by lia end
       end;
       mod_bounds; lia.
  mod_bounds. lia.
Qed.

Lemma mutate_chars i c s : Py.chars (NL.mutate i c s) = NL.replace_nth i c (Py.chars s).
Proof. unfold NL.mutate. apply chars_str. Qed.

Lemma replace_nth_length i c l : length (NL.replace_nth i c l) = length l.
Proof. revert i. induction l as [|x l IH]; intros [|i]; simpl; auto. Qed.

Lemma forallb_replace_nth (p : ascii -> bool) i c l :
  forallb p l = true -> p c = true -> forallb p (NL.replace_nth i c l) = true.
Proof.
  revert i. induction l as [|x l IH]; intros [|i] Hl Hc; simpl in *; auto.
  - apply andb_true_iff in Hl as [_ Hl]. rewrite Hc, Hl. reflexivity.
  - apply andb_true_iff in Hl as [Hx Hl]. rewrite Hx, IH; auto.
Qed.

Lemma nine_digits_spec s :
  nine_digits s = true <->
  length (Py.chars s) = 9 /\ forallb Py.is_digit_char (Py.chars s) = true.
Proof.
  unfold nine_digits, Py.isdigit, Py.truthy. rewrite len_chars.
  rewrite !andb_true_iff, Nat.eqb_eq. split.
  - intros [Hl [_ Hd]]. auto.
  - intros [Hl Hd]. repeat split; auto.
    destruct s; [discriminate Hl | reflexivity].
Qed.

Lemma validate_btw_rsin s : NL.validate_btw_number s = NL.validate_rsin_number s.
Proof.
  unfold NL.validate_btw_number, NL.validate_rsin_number.
  destruct (negb (Py.truthy s) || negb (Py.len s =? 9) || negb (Py.isdigit s)); reflexivity.
Qed.

(** C1 (amended).  [validate_rsin_number] and [validate_btw_number] agree; an
    input that is not exactly nine digits is rejected; a nine-digit input is
    accepted exactly when the weighted checksum formula holds; and a valid
    vector with one digit replaced by another digit is rejected, except that a
    change among the first eight digits of a vector ending in 1 is accepted
    when it takes the checksum to 1 or 10 (both of which ask for the check
    digit 1). *)
Theorem C1_rsin_checksum (s : string) :
  NL.validate_btw_number s = NL.validate_rsin_number s /\
  (nine_digits s = false -> NL.validate_rsin_number s = false) /\
  (nine_digits s = true ->
   (NL.validate_rsin_number s = true <-> rsin_formula (NL.digits_of s)) /\
   (NL.validate_rsin_number s = true ->
    forall (i : nat) (c : ascii),
      i < 9 -> Py.is_digit_char c = true -> nth i (Py.chars s) c <> c ->
      (NL.validate_rsin_number (NL.mutate i c s) = true <->
       i < 8 /\ nth 8 (NL.digits_of s) 0%Z = 1%Z /\
       (NL.checksum_of (NL.digits_of (NL.mutate i c s)) = 1%Z \/
        NL.checksum_of (NL.digits_of (NL.mutate i c s)) = 10%Z)))).
Proof.
  split; [apply validate_btw_rsin|]. split.
  - intros H. rewrite validate_rsin_guarded, H. reflexivity.
  - intros H9. pose proof (nine_digits_chars s H9)
      as (c0 & c1 & c2 & c3 & c4 & c5 & c6 & c7 & c8 & Hs & Hall).
    split.
    + rewrite validate_rsin_guarded, H9. cbn [andb].
      unfold NL.digits_of. rewrite Hs. cbn [map]. apply rsin_ok_formula.
    + intros Hv i c Hi Hc Hne.
      rewrite validate_rsin_guarded, H9 in Hv. cbn [andb] in Hv.
      assert (Hm9 : nine_digits (NL.mutate i c s) = true).
      { apply nine_digits_spec. rewrite mutate_chars, replace_nth_length.
        apply nine_digits_spec in H9 as [Hl Hd]. split; [exact Hl|].
        apply forallb_replace_nth; assumption. }
      rewrite validate_rsin_guarded, Hm9. cbn [andb].
      unfold NL.digits_of in *. rewrite mutate_chars, Hs in *.
      apply (mutation_digits c0 c1 c2 c3 c4 c5 c6 c7 c8 c i); auto.
Qed.

(** C1, witness: the valid vector 111222333 with its check digit changed. *)
Lemma C1_rsin_checksum_witness :
  NL.validate_rsin_number "111222338" = true /\
  NL.validate_rsin_number (NL.mutate 8 "3" "111222338") = false.
Proof.
  split; [reflexivity|].
  destruct (C1_rsin_checksum "111222338") as (_ & _ & H).
  destruct (H eq_refl) as [_ Hm].
  specialize (Hm eq_refl 8 "3"%char ltac:(lia) eq_refl ltac:(discriminate)).
  destruct (NL.validate_rsin_number (NL.mutate 8 "3" "111222338")); [|reflexivity].
  destruct (proj1 Hm eq_refl) as [Hlt _]. lia.
Defined.

(** C1, counterexample to the mutation clause as stated: 000000061 is valid,
    and so is 000000051, which differs from it in one digit. *)
Lemma C1_mutation_counterexample :
  NL.validate_rsin_number "000000061" = true /\
  NL.mutate 7 "5" "000000061" = "000000051"%string /\
  NL.validate_rsin_number (NL.mutate 7 "5" "000000061") = true.
Proof.
  split; [|split]; vm_compute; reflexivity.
Qed.

(** ** [SequenceMatcher] *)
Section DifflibFacts.
Context {A : Type} `{Countable A}.
Implicit Types a b : list A.
Local Open Scope list_scope.

Lemma combine_snoc {X Y : Type} (l1 : list X) (l2 : list Y) x y :
  length l1 = length l2 ->
  combine (l1 ++ [x]) (l2 ++ [y]) = combine l1 l2 ++ [(x, y)].
Proof.
  revert l2. induction l1 as [|u l1 IH]; intros [|v l2] Hl; simpl in *;
    try discriminate; [reflexivity|].
  rewrite IH by lia. reflexivity.
Qed.

Lemma enumerate_snoc (l : list A) y :
  Difflib.enumerate (l ++ [y]) = Difflib.enumerate l ++ [(length l, y)].
Proof.
  unfold Difflib.enumerate. rewrite length_app. simpl.
  rewrite Nat.add_1_r, seq_S. simpl.
  apply combine_snoc. rewrite length_seq. reflexivity.
Qed.

Lemma b2j_all_snoc (l : list A) y :
  Difflib.b2j_all (l ++ [y]) =
  Difflib.chain_step (Difflib.b2j_all l) (length l, y).
Proof.
  unfold Difflib.b2j_all. rewrite enumerate_snoc, fold_left_app. reflexivity.
Qed.

(** [b2j] before the purge: each element of [b] is mapped to the ascending
    list of its positions. *)
Lemma b2j_all_spec b x :
  match Difflib.b2j_all b !! x with
  | Some js =>
      StronglySorted lt js /\ (forall j, j ∈ js <-> b !! j = Some x)
  | None => forall j, b !! j <> Some x
  end.
Proof.
  induction b as [|y l IH] using rev_ind.
  - unfold Difflib.b2j_all. simpl. rewrite lookup_empty. intros j. discriminate.
  - rewrite b2j_all_snoc. unfold Difflib.chain_step. simpl.
    destruct (decide (y = x)) as [->|Hne].
    + rewrite lookup_insert_eq.
      destruct (Difflib.b2j_all l !! x) as [js|] eqn:E; simpl.
      * destruct IH as [Hs Hm]. split.
        -- apply StronglySorted_app. split; [|split; [exact Hs|]].
           ++ intros j1 j2 H1 H2. apply list_elem_of_singleton in H2. subst j2.
              apply Hm in H1. apply lookup_lt_Some in H1. exact H1.
           ++ repeat constructor.
        -- intros j. rewrite elem_of_app, list_elem_of_singleton, Hm, lookup_snoc_Some.
           split; intros [H1|H1]; auto.
           ++ left. split; [eapply lookup_lt_Some; eauto|exact H1].
           ++ left. tauto.
           ++ right. tauto.
      * split; [repeat constructor|].
        intros j. rewrite list_elem_of_singleton, lookup_snoc_Some.
        split; [intros ->; right; auto|].
        intros [[_ H1]|[H1 _]]; [exfalso; eapply IH; eauto | exact H1].
    + rewrite lookup_insert_ne by exact Hne.
      destruct (Difflib.b2j_all l !! x) as [js|] eqn:E.
      * destruct IH as [Hs Hm]. split; [exact Hs|].
        intros j. rewrite Hm, lookup_snoc_Some. split; [intros H1|intros [[_ H1]|[_ H1]]].
        -- left. split; [eapply lookup_lt_Some; eauto|exact H1].
        -- exact H1.
        -- contradiction.
      * intros j. rewrite lookup_snoc_Some. intros [[_ H1]|[_ H1]]; [eapply IH; eauto|contradiction].
Qed.

(** An element that [b2j] keeps: its positions, in ascending order. *)
Lemma b2j_Some b x js :
  Difflib.b2j b !! x = Some js ->
  StronglySorted lt js /\ (forall j, j ∈ js <-> b !! j = Some x).
Proof.
  unfold Difflib.b2j. intros Hf.
  apply map_lookup_filter_Some in Hf as [Hf _].
  pose proof (b2j_all_spec b x) as Hs. rewrite Hf in Hs. exact Hs.
Qed.


(** *** Bounds on the block that [find_longest_match] returns *)

Definition j2len_ok (alo blo bhi i : nat) (m : gmap nat nat) : Prop :=
  forall j v, m !! j = Some v -> blo <= j < bhi /\ v <= i - alo /\ v <= j + 1 - blo.

Definition best_ok (alo blo bhi i : nat) (x : Difflib.block) : Prop :=
  alo <= x.1.1 /\ blo <= x.1.2 /\ x.1.1 + x.2 <= i /\ x.1.2 + x.2 <= bhi.

Lemma j2lenget_bound alo blo bhi i m j :
  j2len_ok alo blo bhi i m -> blo <= j ->
  Difflib.j2lenget m j <= i - alo /\ Difflib.j2lenget m j <= j - blo.
Proof.
  intros Hm Hj. destruct j as [|j']; simpl; [lia|].
  destruct (m !! j') as [v|] eqn:E; simpl; [|lia].
  apply Hm in E. lia.
Qed.

Lemma row_bounds a b i alo blo bhi js j2len :
  alo <= i ->
  j2len_ok alo blo bhi i j2len ->
  forall best new,
    best_ok alo blo bhi (S i) best -> j2len_ok alo blo bhi (S i) new ->
    best_ok alo blo bhi (S i) (Difflib.row i blo bhi js j2len best new).1 /\
    j2len_ok alo blo bhi (S i) (Difflib.row i blo bhi js j2len best new).2.
Proof.
  intros Hi Hm. induction js as [|j js IH]; intros best new Hb Hn; simpl; [auto|].
  destruct (Nat.ltb_spec j blo); [apply IH; assumption|].
  destruct (Nat.leb_spec bhi j); [auto|].
  pose proof (j2lenget_bound alo blo bhi i j2len j Hm ltac:(lia)) as [Hq1 Hq2].
  apply IH.
  - destruct (Nat.ltb_spec (Difflib.block_size best) (Difflib.j2lenget j2len j + 1));
      [|exact Hb].
    unfold best_ok. simpl. lia.
  - intros j' v. rewrite lookup_insert_Some. intros [[<- <-]|[_ Hv]]; [lia|].
    apply Hn. exact Hv.
Qed.

Lemma scan_step_bounds a b alo blo bhi i st :
  alo <= i -> blo <= bhi ->
  best_ok alo blo bhi i st.1 -> j2len_ok alo blo bhi i st.2 ->
  best_ok alo blo bhi (S i) (Difflib.scan_step a b blo bhi st i).1 /\
  j2len_ok alo blo bhi (S i) (Difflib.scan_step a b blo bhi st i).2.
Proof.
  intros Hi Hb Hbest Hm. unfold Difflib.scan_step.
  destruct (a !! i) as [x|].
  - apply (row_bounds a b); auto.
    + unfold best_ok in *. lia.
    + intros j v. rewrite lookup_empty. discriminate.
  - split.
    + unfold best_ok in *. lia.
    + intros j v Hv. apply Hm in Hv. lia.
Qed.

Lemma scan_bounds a b alo blo bhi n :
  blo <= bhi ->
  forall i st,
    alo <= i ->
    best_ok alo blo bhi i st.1 -> j2len_ok alo blo bhi i st.2 ->
    best_ok alo blo bhi (i + n)
      (fold_left (Difflib.scan_step a b blo bhi) (seq i n) st).1.
Proof.
  intros Hb. induction n as [|n IH]; intros i st Hi Hbest Hm; simpl.
  - rewrite Nat.add_0_r. exact Hbest.
  - replace (i + S n) with (S i + n) by lia.
    destruct (scan_step_bounds a b alo blo bhi i st Hi Hb Hbest Hm) as [H1 H2].
    apply IH; auto.
Qed.

Lemma extend_left_bounds a b alo blo besti :
  forall bestj bestsize,
    alo <= besti -> blo <= bestj ->
    let r := Difflib.extend_left a b alo blo besti bestj bestsize in
    alo <= r.1.1 /\ blo <= r.1.2 /\
    r.1.1 + r.2 = besti + bestsize /\ r.1.2 + r.2 = bestj + bestsize.
Proof.
  induction besti as [|i IH]; intros bestj bestsize Ha Hb; simpl; [lia|].
  destruct bestj as [|j]; simpl; [lia|].
  destruct ((alo <? S i) && (blo <? S j) && Difflib.same_elt (a !! i) (b !! j)) eqn:E;
    simpl; [|lia].
  apply andb_true_iff in E as [E _]. apply andb_true_iff in E as [E1 E2].
  apply Nat.ltb_lt in E1, E2.
  specialize (IH j (S bestsize) ltac:(lia) ltac:(lia)). simpl in IH. lia.
Qed.

Lemma extend_right_bounds a b ahi bhi besti bestj n :
  forall bestsize,
    besti + bestsize <= ahi -> bestj + bestsize <= bhi ->
    let k := Difflib.extend_right a b ahi bhi besti bestj n bestsize in
    bestsize <= k /\ besti + k <= ahi /\ bestj + k <= bhi.
Proof.
  induction n as [|n IH]; intros bestsize Ha Hb; simpl; [lia|].
  destruct ((besti + bestsize <? ahi) && (bestj + bestsize <? bhi)
            && Difflib.same_elt (a !! (besti + bestsize)) (b !! (bestj + bestsize))) eqn:E;
    [|lia].
  apply andb_true_iff in E as [E _]. apply andb_true_iff in E as [E1 E2].
  apply Nat.ltb_lt in E1, E2.
  specialize (IH (S bestsize) ltac:(lia) ltac:(lia)). simpl in IH. lia.
Qed.

(** The block lies within the region it was searched in. *)
Lemma find_longest_match_bounds a b alo ahi blo bhi :
  alo <= ahi -> blo <= bhi ->
  let r := Difflib.find_longest_match a b alo ahi blo bhi in
  alo <= r.1.1 /\ r.1.1 + r.2 <= ahi /\ blo <= r.1.2 /\ r.1.2 + r.2 <= bhi.
Proof.
  intros Ha Hb. unfold Difflib.find_longest_match.
  pose proof (scan_bounds a b alo blo bhi (ahi - alo) Hb alo ((alo, blo, 0), ∅)
                ltac:(lia)) as Hs.
  destruct (fold_left (Difflib.scan_step a b blo bhi) (seq alo (ahi - alo))
              ((alo, blo, 0), ∅)) as [[[bi bj] bs] m].
  assert (Hbest : best_ok alo blo bhi (alo + (ahi - alo)) (bi, bj, bs)).
  { apply Hs.
    - unfold best_ok. simpl. lia.
    - intros j v. simpl. rewrite lookup_empty. discriminate. }
  unfold best_ok in Hbest. simpl in Hbest.
  pose proof (extend_left_bounds a b alo blo bi bj bs ltac:(lia) ltac:(lia)) as Hl.
  destruct (Difflib.extend_left a b alo blo bi bj bs) as [[bi' bj'] bs'].
  simpl in Hl.
  pose proof (extend_right_bounds a b ahi bhi bi' bj' (ahi - (bi' + bs')) bs'
                ltac:(lia) ltac:(lia)) as Hr.
  simpl in Hr. simpl. lia.
Qed.


(** *** The work list terminates, and what the blocks add up to *)

Definition total (l : list Difflib.block) : nat :=
  foldr Nat.add 0 (map Difflib.block_size l).

Definition region_ok (r : Difflib.region) : Prop :=
  r.1.1.1 <= r.1.1.2 /\ r.1.2 <= r.2.

Definition weight (q : list Difflib.region) : nat :=
  foldr Nat.add 0 (map (fun r : Difflib.region => 2 * (r.1.1.2 - r.1.1.1) + 1) q).

Definition span_a (q : list Difflib.region) : nat :=
  foldr Nat.add 0 (map (fun r : Difflib.region => r.1.1.2 - r.1.1.1) q).

Definition span_b (q : list Difflib.region) : nat :=
  foldr Nat.add 0 (map (fun r : Difflib.region => r.2 - r.1.2) q).

Lemma total_app l1 l2 : total (l1 ++ l2) = total l1 + total l2.
Proof.
  unfold total. rewrite map_app, foldr_app.
  induction (map Difflib.block_size l1) as [|x l IH]; simpl; [reflexivity|].
  rewrite IH. lia.
Qed.

Lemma blocks_loop_inv a b fuel :
  forall q acc,
    Forall region_ok q -> weight q <= fuel ->
    exists res,
      Difflib.blocks_loop a b fuel q acc = Some res /\
      total res <= total acc + span_a q /\
      total res <= total acc + span_b q.
Proof.
  induction fuel as [|fuel IH]; intros q acc Hq Hw.
  - destruct q as [|[[[alo ahi] blo] bhi] q]; simpl in *.
    + exists acc. split; [reflexivity|lia].
    + unfold weight in Hw. simpl in Hw. lia.
  - destruct q as [|[[[alo ahi] blo] bhi] q].
    + exists acc. simpl. split; [reflexivity|lia].
    + apply Forall_cons in Hq as [Hr Hq]. unfold region_ok in Hr. simpl in Hr.
      destruct Hr as [Ha Hb].
      pose proof (find_longest_match_bounds a b alo ahi blo bhi Ha Hb) as Hf.
      cbn [Difflib.blocks_loop].
      destruct (Difflib.find_longest_match a b alo ahi blo bhi) as [[i j] k].
      simpl in Hf.
      unfold weight, span_a, span_b in *. cbn [map foldr fst snd] in *.
      destruct (Nat.eqb_spec k 0) as [->|Hk].
      * destruct (IH q acc Hq ltac:(lia)) as (res & Hres & H1 & H2).
        exists res. split; [exact Hres|]. unfold span_a, span_b in *. lia.
      * set (q1 := if (alo <? i) && (blo <? j) then (alo, i, blo, j) :: q else q).
        set (q2 := if (i + k <? ahi) && (j + k <? bhi)
                   then (i + k, ahi, j + k, bhi) :: q1 else q1).
        assert (Hq2 : Forall region_ok q2).
        { subst q2 q1.
          destruct ((i + k <? ahi) && (j + k <? bhi)), ((alo <? i) && (blo <? j));
            repeat (apply Forall_cons; split); auto; unfold region_ok; simpl; lia. }
        assert (Hm : weight q2 + 1 <= weight ((alo, ahi, blo, bhi) :: q) /\
                     span_a q2 + k <= span_a ((alo, ahi, blo, bhi) :: q) /\
                     span_b q2 + k <= span_b ((alo, ahi, blo, bhi) :: q)).
        { subst q2 q1. unfold weight, span_a, span_b.
          destruct ((i + k <? ahi) && (j + k <? bhi)), ((alo <? i) && (blo <? j));
            cbn [map foldr fst snd]; lia. }
        unfold weight, span_a, span_b in Hm. cbn [map foldr fst snd] in Hm.
        destruct (IH q2 (acc ++ [(i, j, k)]) Hq2 ltac:(unfold weight; lia))
          as (res & Hres & H1 & H2).
        exists res. split; [exact Hres|].
        rewrite total_app in H1, H2.
        change (total [(i, j, k)]) with (k + 0) in H1, H2. lia.
Qed.

(** [2 * len(a) + 1] turns empty the work list. *)
Lemma blocks_loop_fuel a b :
  exists res,
    Difflib.blocks_loop a b (2 * length a + 1) [(0, length a, 0, length b)] [] = Some res /\
    Difflib.found_blocks a b = res /\
    total res <= length a /\ total res <= length b.
Proof.
  destruct (blocks_loop_inv a b (2 * length a + 1) [(0, length a, 0, length b)] [])
    as (res & Hres & H1 & H2).
  - repeat constructor; simpl; lia.
  - unfold weight. simpl. lia.
  - exists res. unfold Difflib.found_blocks. rewrite Hres.
    unfold span_a, span_b, total in *. simpl in *. repeat split; auto; lia.
Qed.

Lemma total_cons x l : total (x :: l) = Difflib.block_size x + total l.
Proof. reflexivity. Qed.

Lemma total_insert x l : total (Difflib.insert_block x l) = Difflib.block_size x + total l.
Proof.
  induction l as [|y l IH]; simpl; [reflexivity|].
  destruct (Difflib.block_le x y); [reflexivity|].
  rewrite !total_cons, IH. lia.
Qed.

Lemma total_sort l : total (Difflib.sort_blocks l) = total l.
Proof.
  induction l as [|x l IH]; simpl; [reflexivity|].
  rewrite total_insert, total_cons, IH. reflexivity.
Qed.

Lemma total_collapse l :
  forall st,
    (fold_left Difflib.collapse_step l st).1.2
      + total (fold_left Difflib.collapse_step l st).2
    = st.1.2 + total st.2 + total l.
Proof.
  induction l as [|[[i2 j2] k2] l IH]; intros [[[i1 j1] k1] na].
  - simpl. change (total []) with 0. lia.
  - cbn [fold_left]. rewrite IH, total_cons. unfold Difflib.collapse_step.
    destruct ((i1 + k1 =? i2) && (j1 + k1 =? j2)); cbn [fst snd Difflib.block_size].
    + lia.
    + destruct (Nat.eqb_spec k1 0) as [->|_]; [lia|].
      rewrite total_app, total_cons. change (total []) with 0.
      cbn [fst snd Difflib.block_size]. lia.
Qed.

(** Sorting and merging do not change what the sizes add up to. *)
Lemma matches_total a b : Difflib.matches a b = total (Difflib.found_blocks a b).
Proof.
  unfold Difflib.matches, Difflib.get_matching_blocks.
  pose proof (total_collapse (Difflib.sort_blocks (Difflib.found_blocks a b))
                ((0, 0, 0), [])) as Hc.
  destruct (fold_left Difflib.collapse_step _ _) as [[[i1 j1] k1] na].
  cbn [fst snd] in Hc. rewrite total_sort in Hc. change (total []) with 0 in Hc.
  change (total ((if k1 =? 0 then na else na ++ [(i1, j1, k1)])
                 ++ [(length a, length b, 0)]) = total (Difflib.found_blocks a b)).
  rewrite total_app, total_cons. change (total []) with 0.
  cbn [fst snd Difflib.block_size].
  destruct (Nat.eqb_spec k1 0) as [->|_]; [lia|].
  rewrite total_app, total_cons. change (total []) with 0.
  cbn [fst snd Difflib.block_size]. lia.
Qed.

Lemma matches_bound a b :
  Difflib.matches a b <= length a /\ Difflib.matches a b <= length b.
Proof.
  rewrite matches_total.
  destruct (blocks_loop_fuel a b) as (res & _ & -> & H1 & H2). auto.
Qed.

Lemma calculate_ratio_range m n :
  2 * m <= n -> (0 <= Difflib.calculate_ratio m n <= 1)%Q.
Proof.
  intros Hmn. unfold Difflib.calculate_ratio.
  destruct (Nat.eqb_spec n 0) as [->|Hn]; [split; discriminate|].
  assert (Hpos : (0 < inject_Z (Z.of_nat n))%Q).
  { change 0%Q with (inject_Z 0). rewrite <- Zlt_Qlt. lia. }
  split.
  - apply Qle_shift_div_l; [exact Hpos|].
    rewrite Qmult_0_l. change 0%Q with (inject_Z 0). rewrite <- Zle_Qle. lia.
  - apply Qle_shift_div_r; [exact Hpos|].
    rewrite Qmult_1_l. rewrite <- Zle_Qle. lia.
Qed.

(** The ratio is a number between 0 and 1. *)
Lemma ratio_range a b : (0 <= Difflib.ratio a b <= 1)%Q.
Proof.
  unfold Difflib.ratio. apply calculate_ratio_range.
  pose proof (matches_bound a b). lia.
Qed.


(** *** A sequence against itself *)

(** The run of kept (not popular) elements that ends at position [p]. *)
Fixpoint diag (x : list A) (p : nat) : nat :=
  match x !! p with
  | Some e =>
      match Difflib.b2j x !! e with
      | Some _ => S (match p with O => 0 | S p' => diag x p' end)
      | None => 0
      end
  | None => 0
  end.

Definition diag_prev (x : list A) (p : nat) : nat :=
  match p with O => 0 | S p' => diag x p' end.

Definition get0 (m : gmap nat nat) (j : nat) : nat := default 0 (m !! j).

Lemma diag_unfold x p :
  diag x p =
  match x !! p with
  | Some e => match Difflib.b2j x !! e with
              | Some _ => S (diag_prev x p)
              | None => 0
              end
  | None => 0
  end.
Proof. destruct p; reflexivity. Qed.

Lemma diag_le x p : diag x p <= S p.
Proof.
  induction p as [|p IH]; rewrite diag_unfold; simpl;
    destruct (x !! _); try lia; destruct (Difflib.b2j x !! _); lia.
Qed.

Lemma j2lenget_get0 m j :
  Difflib.j2lenget m j = match j with O => 0 | S j' => get0 m j' end.
Proof. reflexivity. Qed.

Lemma get0_insert m j k j' :
  get0 (<[j := k]> m) j' = if decide (j = j') then k else get0 m j'.
Proof. unfold get0. rewrite lookup_insert. destruct (decide (j = j')); reflexivity. Qed.

(** What the previous row's [j2len] holds at row [i]. *)
Definition prev_ok (x : list A) (i : nat) (m : gmap nat nat) : Prop :=
  (forall j, Difflib.j2lenget m j <= diag_prev x i) /\
  (forall j, Difflib.j2lenget m j <= diag_prev x j) /\
  Difflib.j2lenget m i = diag_prev x i.

(** What the row under construction holds at row [i]. *)
Definition new_ok (x : list A) (i : nat) (m : gmap nat nat) : Prop :=
  (forall j, get0 m j <= diag x i) /\ (forall j, get0 m j <= diag x j).

(** The best block lies on the diagonal and is at least as long as every run
    seen so far. *)
Definition best_diag (x : list A) (i : nat) (best : Difflib.block) : Prop :=
  best.1.1 = best.1.2 /\ best.1.1 + best.2 <= i /\
  forall p, p < i -> diag x p <= best.2.

Lemma row_after x i e js j2len :
  x !! i = Some e -> is_Some (Difflib.b2j x !! e) ->
  prev_ok x i j2len ->
  forall best new,
    Forall (fun j => i < j /\ x !! j = Some e) js ->
    best_diag x (S i) best -> new_ok x i new -> get0 new i = diag x i ->
    let r := Difflib.row i 0 (length x) js j2len best new in
    best_diag x (S i) r.1 /\ new_ok x i r.2 /\ get0 r.2 i = diag x i.
Proof.
  intros Hi [js0 He] (Hp1 & Hp2 & Hp3).
  assert (Hdi : diag x i = S (diag_prev x i)).
  { rewrite diag_unfold, Hi, He. reflexivity. }
  induction js as [|j js IH]; intros best new Hjs Hb (Hn1 & Hn2) Hn3; simpl.
  - split; [exact Hb|]. split; [split; assumption|exact Hn3].
  - apply Forall_cons in Hjs as [[Hij Hj] Hjs].
    assert (Hjn : j < length x) by (eapply lookup_lt_Some; eauto).
    destruct (Nat.leb_spec (length x) j); [lia|].
    assert (Hdj : diag x j = S (diag_prev x j)).
    { rewrite diag_unfold, Hj, He. reflexivity. }
    destruct Hb as (Hb1 & Hb2 & Hb3).
    pose proof (Hb3 i ltac:(lia)) as Hbi.
    pose proof (Hp1 j) as Hk1. pose proof (Hp2 j) as Hk2.
    destruct (Nat.ltb_spec (Difflib.block_size best) (Difflib.j2lenget j2len j + 1)) as [Hlt|_].
    { unfold Difflib.block_size in Hlt. lia. }
    apply IH; auto.
    + split; [|split]; auto.
    + split; intros j'; rewrite get0_insert; destruct (decide (j = j')) as [<-|_];
        auto; lia.
    + rewrite get0_insert. destruct (decide (j = i)); [lia|exact Hn3].
Qed.

Lemma row_before x i e js j2len :
  x !! i = Some e -> is_Some (Difflib.b2j x !! e) ->
  prev_ok x i j2len ->
  forall best new,
    StronglySorted lt js -> i ∈ js ->
    Forall (fun j => x !! j = Some e) js ->
    best_diag x i best -> new_ok x i new ->
    let r := Difflib.row i 0 (length x) js j2len best new in
    best_diag x (S i) r.1 /\ new_ok x i r.2 /\ get0 r.2 i = diag x i.
Proof.
  intros Hi He (Hp1 & Hp2 & Hp3).
  assert (Hdi : diag x i = S (diag_prev x i)).
  { destruct He as [js0 He]. rewrite diag_unfold, Hi, He. reflexivity. }
  induction js as [|j js IH]; intros best new Hs Hin Hjs Hb (Hn1 & Hn2).
  - apply elem_of_nil in Hin. contradiction.
  - apply StronglySorted_cons in Hs as [Hlt Hs].
    apply Forall_cons in Hjs as [Hj Hjs].
    assert (Hjn : j < length x) by (eapply lookup_lt_Some; eauto).
    destruct Hb as (Hb1 & Hb2 & Hb3).
    cbn [Difflib.row]. change (j <? 0) with false. cbv iota.
    destruct (Nat.leb_spec (length x) j); [lia|].
    apply elem_of_cons in Hin as [->|Hin].
    + (* the diagonal entry *)
      pose proof (diag_le x j) as Hle.
      apply (row_after x j e js j2len Hi He); [split; [|split]; assumption| | | |].
      * apply Forall_forall. intros j' Hj'. split.
        -- eapply Forall_forall in Hlt; eauto.
        -- eapply Forall_forall in Hjs; eauto.
      * rewrite Hp3.
        destruct (Nat.ltb_spec (Difflib.block_size best) (diag_prev x j + 1)) as [Hk|Hk].
        -- split; [|split]; simpl; [reflexivity|lia|].
           intros p Hp. destruct (decide (p = j)) as [->|]; [lia|].
           specialize (Hb3 p ltac:(lia)). unfold Difflib.block_size in Hk. lia.
        -- split; [|split]; [assumption|lia|].
           intros p Hp. destruct (decide (p = j)) as [->|];
             [unfold Difflib.block_size in Hk; lia|]. apply Hb3. lia.
      * split; intros j'; rewrite get0_insert; destruct (decide (j = j')) as [<-|_];
          auto; rewrite Hp3; lia.
      * rewrite get0_insert. destruct (decide (j = j)); [|contradiction].
        rewrite Hp3. lia.
    + (* an entry left of the diagonal *)
      assert (Hji : j < i) by (eapply Forall_forall in Hlt; eauto).
      assert (Hdj : diag x j = S (diag_prev x j)).
      { destruct He as [js0 He]. rewrite diag_unfold, Hj, He. reflexivity. }
      pose proof (Hb3 j Hji) as Hbj.
      pose proof (Hp1 j) as Hk1. pose proof (Hp2 j) as Hk2.
      destruct (Nat.ltb_spec (Difflib.block_size best) (Difflib.j2lenget j2len j + 1)) as [Hk|_].
      { unfold Difflib.block_size in Hk. lia. }
      apply IH; auto.
      * split; [|split]; auto.
      * split; intros j'; rewrite get0_insert; destruct (decide (j = j')) as [<-|_];
          auto; lia.
Qed.

Lemma scan_step_self x i st :
  i < length x ->
  best_diag x i st.1 -> prev_ok x i st.2 ->
  best_diag x (S i) (Difflib.scan_step x x 0 (length x) st i).1 /\
  prev_ok x (S i) (Difflib.scan_step x x 0 (length x) st i).2.
Proof.
  intros Hi Hb Hp. unfold Difflib.scan_step.
  destruct (x !! i) as [e|] eqn:Hxi;
    [|apply lookup_ge_None in Hxi; lia].
  destruct (Difflib.b2j x !! e) as [js|] eqn:He; simpl.
  - destruct (b2j_Some x e js He) as [Hs Hm].
    destruct (row_before x i e js st.2 Hxi ltac:(eauto) Hp st.1 ∅) as (H1 & [H2 H3] & H4).
    + exact Hs.
    + apply Hm. exact Hxi.
    + apply Forall_forall. intros j Hj. apply Hm. exact Hj.
    + exact Hb.
    + split; intros j; unfold get0; rewrite lookup_empty; simpl; lia.
    + split; [exact H1|]. split; [|split].
      * intros [|j]; simpl; [lia|apply H2].
      * intros [|j]; simpl; [lia|apply H3].
      * exact H4.
  - assert (Hd : diag x i = 0) by (rewrite diag_unfold, Hxi, He; reflexivity).
    destruct Hb as (Hb1 & Hb2 & Hb3). split.
    + split; [|split]; [assumption|lia|].
      intros p Hp'. destruct (decide (p = i)) as [->|]; [lia|]. apply Hb3. lia.
    + split; [|split]; try intros [|j]; simpl; try rewrite lookup_empty; simpl; lia.
Qed.

Lemma scan_self x n :
  forall i st,
    i + n <= length x ->
    best_diag x i st.1 -> prev_ok x i st.2 ->
    best_diag x (i + n)
      (fold_left (Difflib.scan_step x x 0 (length x)) (seq i n) st).1.
Proof.
  induction n as [|n IH]; intros i st Hn Hb Hp; simpl.
  - rewrite Nat.add_0_r. exact Hb.
  - replace (i + S n) with (S i + n) by lia.
    destruct (scan_step_self x i st ltac:(lia) Hb Hp) as [H1 H2].
    apply IH; auto. lia.
Qed.

Lemma same_elt_refl (x : list A) i : i < length x -> Difflib.same_elt (x !! i) (x !! i) = true.
Proof.
  intros Hi. destruct (x !! i) as [e|] eqn:E.
  - simpl. apply bool_decide_eq_true. reflexivity.
  - apply lookup_ge_None in E. lia.
Qed.

Lemma extend_left_self (x : list A) besti :
  forall bestsize,
    besti <= length x ->
    Difflib.extend_left x x 0 0 besti besti bestsize = (0, 0, besti + bestsize).
Proof.
  induction besti as [|i IH]; intros bestsize Hi; simpl; [reflexivity|].
  rewrite same_elt_refl by lia. simpl.
  rewrite IH by lia. f_equal. lia.
Qed.

Lemma extend_right_self (x : list A) n :
  forall bestsize,
    bestsize + n = length x ->
    Difflib.extend_right x x (length x) (length x) 0 0 n bestsize = length x.
Proof.
  induction n as [|n IH]; intros bestsize Hn; simpl; [lia|].
  destruct (Nat.ltb_spec bestsize (length x)); [|lia]. simpl.
  rewrite same_elt_refl by lia.
  apply IH. lia.
Qed.

(** The longest match of a sequence with itself is the whole sequence. *)
Lemma find_longest_match_self (x : list A) :
  Difflib.find_longest_match x x 0 (length x) 0 (length x) = (0, 0, length x).
Proof.
  unfold Difflib.find_longest_match.
  pose proof (scan_self x (length x - 0) 0 ((0, 0, 0), ∅) ltac:(lia)) as Hs.
  destruct (fold_left (Difflib.scan_step x x 0 (length x)) (seq 0 (length x - 0))
              ((0, 0, 0), ∅)) as [[[bi bj] bs] m].
  destruct Hs as (Hb1 & Hb2 & _).
  - split; [reflexivity|]. split; [simpl; lia|]. intros p Hp. lia.
  - split; [|split]; try intros [|j]; simpl; try rewrite lookup_empty; simpl; lia.
  - simpl in Hb1, Hb2. subst bj.
    rewrite extend_left_self by lia.
    rewrite extend_right_self by lia. reflexivity.
Qed.

Lemma found_blocks_self (x : list A) : total (Difflib.found_blocks x x) = length x.
Proof.
  unfold Difflib.found_blocks.
  replace (2 * length x + 1) with (S (2 * length x)) by lia.
  cbn [Difflib.blocks_loop]. rewrite find_longest_match_self.
  destruct (Nat.eqb_spec (length x) 0) as [E|E].
  - rewrite E. destruct (2 * 0); reflexivity.
  - change (0 <? 0) with false. cbn [andb].
    rewrite Nat.add_0_l, Nat.ltb_irrefl. cbn [andb].
    destruct (2 * length x); simpl; unfold total; simpl; lia.
Qed.

(** [SequenceMatcher(None, x, x).ratio()] is 1, popular elements or not. *)
Lemma ratio_self (x : list A) : (Difflib.ratio x x == 1)%Q.
Proof.
  unfold Difflib.ratio. rewrite matches_total, found_blocks_self.
  unfold Difflib.calculate_ratio.
  destruct (Nat.eqb_spec (length x + length x) 0) as [_|Hn]; [reflexivity|].
  replace (2 * length x) with (length x + length x) by lia.
  apply Qmult_inv_r.
  change 0%Q with (inject_Z 0). rewrite inject_Z_injective. lia.
Qed.

End DifflibFacts.

(** ** The similarity scorer *)

Lemma ratio_str_range x y : (0 <= Difflib.ratio_str x y <= 1)%Q.
Proof. unfold Difflib.ratio_str. apply ratio_range. Qed.

Lemma truthy_nonempty s : s <> ""%string -> Py.truthy s = true.
Proof. destruct s; [contradiction|reflexivity]. Qed.

(** C8.  Both scorers, the one of the Dutch extractor (with normalization)
    and the one of the UK extractor of the orchestrator (lower case only),
    return a value between 0 and 1; a non-empty string scores 1 against
    itself; the empty string scores 0 against any non-empty string; and
    "Acme GmbH" against "ACME GMBH" scores above 0.9. *)
Theorem C8_similarity (a b : string) :
  ((0 <= NL.similarity a b <= 1)%Q /\
   (a <> ""%string -> (NL.similarity a a == 1)%Q) /\
   (b <> ""%string -> (NL.similarity "" b == 0)%Q) /\
   (9 # 10 < NL.similarity "Acme GmbH" "ACME GMBH")%Q) /\
  ((0 <= Complete.UKCompanyNumberExtractor.similarity a b <= 1)%Q /\
   (a <> ""%string -> (Complete.UKCompanyNumberExtractor.similarity a a == 1)%Q) /\
   (b <> ""%string -> (Complete.UKCompanyNumberExtractor.similarity "" b == 0)%Q) /\
   (9 # 10 < Complete.UKCompanyNumberExtractor.similarity "Acme GmbH" "ACME GMBH")%Q).
Proof.
  split.
  - split; [|split; [|split]].
    + unfold NL.similarity.
      destruct (negb (Py.truthy a) || negb (Py.truthy b));
        [split; discriminate|apply ratio_str_range].
    + intros Ha. unfold NL.similarity. rewrite (truthy_nonempty a Ha). simpl.
      unfold Difflib.ratio_str. apply ratio_self.
    + intros _. reflexivity.
    + vm_compute. reflexivity.
  - split; [|split; [|split]].
    + unfold Complete.UKCompanyNumberExtractor.similarity.
      destruct (negb (Py.truthy a) || negb (Py.truthy b));
        [split; discriminate|apply ratio_str_range].
    + intros Ha. unfold Complete.UKCompanyNumberExtractor.similarity.
      rewrite (truthy_nonempty a Ha). simpl.
      unfold Difflib.ratio_str. apply ratio_self.
    + intros _. reflexivity.
    + vm_compute. reflexivity.
Qed.

(** C8, witness: the company name of the example against itself. *)
Lemma C8_similarity_witness : (NL.similarity "Acme GmbH" "Acme GmbH" == 1)%Q.
Proof.
  destruct (C8_similarity "Acme GmbH" "x") as [(_ & H & _) _].
  apply H. discriminate.
Defined.

(** ** The orchestrator: dispatch on the country code *)

Definition nine_codes : list string :=
  ["AT"; "CH"; "DE"; "FR"; "GB"; "IT"; "LU"; "NL"; "PT"]%string.

Lemma supported_codes cc : cc ∈ nine_codes <-> is_Some (Complete.COUNTRY_CODES !! cc).
Proof.
  split.
  - unfold nine_codes. intros Hin.
    repeat (apply elem_of_cons in Hin as [->|Hin]; [vm_compute; eauto|]).
    apply elem_of_nil in Hin. contradiction.
  - intros [v Hv]. destruct (decide (cc ∈ nine_codes)) as [Hin|Hout]; [exact Hin|].
    unfold Complete.COUNTRY_CODES in Hv.
    rewrite not_elem_of_list_to_map_1 in Hv; [discriminate|exact Hout].
Qed.

Lemma no_extractor px w cc :
  Complete.COUNTRY_CODES !! cc = None -> Complete.extractors px w !! cc = None.
Proof.
  intros Hcc. apply not_elem_of_list_to_map_1. cbn [fmap list_fmap fst].
  intros Hin.
  repeat (apply elem_of_cons in Hin as [->|Hin]; [vm_compute in Hcc; discriminate|]).
  apply elem_of_nil in Hin. contradiction.
Qed.

(** C5.  A country code outside the nine of [COUNTRY_CODES] gets the outcome
    with the status "Country not supported" at once: the state after the call
    is the state before it, so nothing was fetched. *)
Theorem C5_unsupported_country (px : Complete.scans) (w : Complete.world)
    (company_name website cc : string) (st : Eff.state) :
  Complete.COUNTRY_CODES !! cc = None ->
  exists r,
    Complete.process_single_company px w company_name website cc st = (inr r, st) /\
    r !! "status"%string = Some "Country not supported"%string /\
    r !! "country"%string = Some cc /\
    r !! "company_name"%string = Some company_name /\
    r !! "website"%string = Some website.
Proof.
  intros Hcc. unfold Complete.process_single_company.
  rewrite (no_extractor px w cc Hcc), Hcc. cbn [default].
  eexists. split; [reflexivity|].
  repeat split; reflexivity.
Qed.

(** C5, witness: the code ES. *)
Lemma C5_unsupported_country_witness :
  Complete.field "status"
    (Eff.value_of
       (Complete.process_single_company Examples.no_scans Examples.offline
          "Acme" "https://acme.es" "ES") Eff.initial)
  = Some "Country not supported"%string /\
  Eff.log
    (Eff.state_after
       (Complete.process_single_company Examples.no_scans Examples.offline
          "Acme" "https://acme.es" "ES") Eff.initial) = [].
Proof.
  destruct (C5_unsupported_country Examples.no_scans Examples.offline
              "Acme" "https://acme.es" "ES" Eff.initial eq_refl)
    as (r & Hr & Hs & _).
  unfold Eff.value_of, Eff.state_after. rewrite Hr. simpl. split; [exact Hs|reflexivity].
Defined.

(** ** The leading-zero rule for KvK numbers *)

Lemma first_valid_valid clean valid ms c :
  NL.first_valid clean valid ms = Some c -> valid c = true.
Proof.
  induction ms as [|mo ms IH]; simpl; [discriminate|].
  destruct (valid (clean (Re.code_of mo))) eqn:E; [|exact IH].
  intros [= <-]. exact E.
Qed.

Lemma first_code_valid clean valid ps html c :
  NL.first_code clean valid ps html = Some c -> valid c = true.
Proof.
  induction ps as [|p ps IH]; simpl; [discriminate|].
  destruct (NL.first_valid clean valid (Re.finditer true p html)) eqn:E; [|exact IH].
  intros [= <-]. eapply first_valid_valid; eauto.
Qed.

Lemma validate_kvk_leading_zero k :
  Py.startswith k "0" = true -> NL.validate_kvk_number k = false.
Proof.
  intros Hz. unfold NL.validate_kvk_number.
  destruct (negb (Py.truthy k) || negb (Py.len k =? 8) || negb (Py.isdigit k));
    [reflexivity|]. rewrite Hz. reflexivity.
Qed.

(** C2.  The validator of the Dutch extractor rejects every number that
    starts with 0, and its [extract_codes_from_html] never reports one, for
    any page.  The Dutch extractor of the orchestrator has no such rule: for
    the page "KvK: 01234567" it reports that number, with the status Found. *)
Theorem C2_leading_zero_kvk :
  (forall k, Py.startswith k "0" = true -> NL.validate_kvk_number k = false) /\
  (forall html k,
     NL.kvk (NL.extract_codes_from_html html) = Some k -> Py.startswith k "0" = false) /\
  NL.kvk (NL.extract_codes_from_html "KvK: 01234567") = None /\
  (forall px,
     let outcome :=
       Eff.value_of
         (Complete.process_single_company px Examples.acme_nl
            "Acme" "https://acme.nl" "NL") Eff.initial in
     Complete.field "kvk" outcome = Some "01234567"%string /\
     Complete.field "status" outcome = Some "Found"%string).
Proof.
  split; [exact validate_kvk_leading_zero|]. split; [|split].
  - intros html k Hk. unfold NL.extract_codes_from_html in Hk. cbn [NL.kvk] in Hk.
    apply first_code_valid in Hk.
    destruct (Py.startswith k "0") eqn:E; [|reflexivity].
    rewrite (validate_kvk_leading_zero k E) in Hk. discriminate.
  - vm_compute. reflexivity.
  - intros px. split; vm_compute; reflexivity.
Qed.

(** ** The UK extractors: registry number and website number *)

Lemma len_truthy s n : Py.len s = S n -> Py.truthy s = true.
Proof. destruct s; [discriminate|reflexivity]. Qed.

Lemma number_in_matches_truthy so ms s :
  UK.number_in_matches so ms = Some s -> Py.truthy s = true.
Proof.
  induction ms as [|mo ms IH]; simpl; [discriminate|].
  destruct ((Py.len (Re.keep_digits (Re.code_of mo)) =? 8)
            && Py.isdigit (Re.keep_digits (Re.code_of mo))) eqn:E8.
  - intros [= <-]. apply andb_true_iff in E8 as [E8 _]. apply Nat.eqb_eq in E8.
    eapply len_truthy; eauto.
  - destruct ((Py.len (Re.keep_digits (Re.code_of mo)) =? 6)
              && Py.isdigit (Re.keep_digits (Re.code_of mo))); [|exact IH].
    destruct (Py.contains "SC" _); [intros [= <-]; reflexivity|].
    destruct (Py.contains "OC" _); [intros [= <-]; reflexivity|].
    destruct (so && Py.contains "SO" _); [intros [= <-]; reflexivity|exact IH].
Qed.

Lemma number_in_patterns_truthy so ps html s :
  UK.number_in_patterns so ps html = Some s -> Py.truthy s = true.
Proof.
  induction ps as [|p ps IH]; simpl; [discriminate|].
  destruct (UK.number_in_matches so (Re.finditer true p html)) eqn:E; [|exact IH].
  intros [= <-]. eapply number_in_matches_truthy; eauto.
Qed.

(** C10.  When the Companies House search yields a number and the company's
    site (a 200 response) yields one too, the outcome carries the number from
    the site: in [process_company] of the orchestrator, with the status Found,
    and in [process_company_with_companies_house], with the search method
    "website_extraction". *)
Theorem C10_website_number_wins
    (wc : Complete.world) (wu : UK.world)
    (company_name url registry site : string) (resp : Eff.response) (st : Eff.state) :
  Py.truthy url = true ->
  Eff.status_code resp = 200 ->
  (Eff.value_of (Complete.UKCompanyNumberExtractor.search_companies_house_by_name
                   wc company_name) st = Some (Some registry) ->
   (forall h, Complete.session_get wc h url = inr resp) ->
   Complete.UKCompanyNumberExtractor.extract_company_number_from_html (Eff.text resp)
     = Some site ->
   let outcome :=
     Eff.value_of (Complete.UKCompanyNumberExtractor.process_company wc company_name url) st in
   Complete.field "company_number" outcome = Some site /\
   Complete.field "status" outcome = Some "Found"%string) /\
  (Eff.value_of (UK.search_companies_house_by_name wu company_name) st
     = Some (Some registry) ->
   (forall h, UK.session_get wu h url = inr resp) ->
   UK.extract_company_number_from_html (Eff.text resp) = Some site ->
   let outcome :=
     Eff.value_of (UK.process_company_with_companies_house wu company_name url) st in
   option_map UK.company_number outcome = Some site /\
   option_map UK.search_method outcome = Some "website_extraction"%string).
Proof.
  intros Hurl H200. split.
  - intros Hreg Hget Hsite outcome. subst outcome.
    pose proof (number_in_patterns_truthy _ _ _ _ Hsite) as Ht.
    unfold Complete.UKCompanyNumberExtractor.process_company, Eff.value_of in *.
    unfold Eff.try_except, Eff.bind.
    destruct (Complete.UKCompanyNumberExtractor.search_companies_house_by_name
                wc company_name st) as [[e|found] st1]; simpl in Hreg; [discriminate|].
    injection Hreg as ->.
    unfold Complete.from_website. rewrite Hurl.
    unfold Eff.try_except, Eff.bind, Eff.call. rewrite Hget, H200.
    cbn [Nat.eqb fst snd].
    unfold Complete.UKCompanyNumberExtractor.website_number. rewrite Hsite, Ht.
    cbn [Eff.ret fst snd Complete.field]. unfold Complete.found_with. cbn [foldl fst snd].
    split.
    + rewrite lookup_insert_ne by discriminate. apply lookup_insert_eq.
    + apply lookup_insert_eq.
  - intros Hreg Hget Hsite outcome.
    enough (Hmain : exists r', outcome = Some r' /\ UK.company_number r' = site /\
                               UK.search_method r' = "website_extraction"%string).
    { destruct Hmain as (r' & -> & Hn & Hm). cbn [option_map]. split; congruence. }
    subst outcome.
    pose proof (number_in_patterns_truthy _ _ _ _ Hsite) as Ht.
    unfold UK.process_company_with_companies_house, Eff.value_of in *.
    unfold Eff.try_except at 1. unfold Eff.bind at 1.
    destruct (UK.search_companies_house_by_name wu company_name st)
      as [[e|found] st1]; simpl in Hreg; [discriminate|].
    injection Hreg as ->.
    assert (Hweb : forall r st',
      let out := UK.website_part wu company_name url r st' in
      exists r', fst out = inr r' /\ UK.company_number r' = site /\
                 UK.search_method r' = "website_extraction"%string).
    { intros r st'. unfold UK.website_part. rewrite Hurl.
      unfold Eff.try_except, Eff.bind, Eff.call. rewrite Hget, H200. simpl.
      rewrite Hsite, Ht.
      destruct (UK.legal_name_on_site wu (Eff.text resp) company_name) as [e|found];
        [eexists; split; [reflexivity|split; reflexivity]|].
      destruct (Py.truthy found && negb (found =? company_name)%string);
        eexists; (split; [reflexivity|split; reflexivity]). }
    unfold Eff.bind.
    assert (Hfin : forall (c : Eff.M UK.result),
      (exists r2 st2, c st1 = (inr r2, st2)) ->
      let out := match c st1 with
                 | (inl e, st') => (inl e, st')
                 | (inr r2, st') => UK.website_part wu company_name url r2 st'
                 end in
      exists r', fst out = inr r' /\ UK.company_number r' = site /\
                 UK.search_method r' = "website_extraction"%string).
    { intros c (r2 & st2 & Hc). rewrite Hc. apply Hweb. }
    match goal with
    | |- context [match ?c st1 with _ => _ end] =>
        destruct (Hfin c) as (r' & Hr' & Hn & Hm)
    end.
    + destruct (Py.truthy registry); [|eexists; eexists; reflexivity].
      unfold Eff.bind.
      destruct (UK.get_company_details_from_companies_house wu registry st1)
        as [[e|[d|]] st2] eqn:Ed.
      * exfalso. revert Ed. unfold UK.get_company_details_from_companies_house.
        unfold Eff.try_except, Eff.bind, Eff.call.
        destruct (UK.session_get wu (Eff.log st1) _) as [e'|response]; [discriminate|].
        cbn [fst snd].
        destruct (Eff.status_code response =? 200); [|discriminate].
        destruct (UK.company_page wu (Eff.text response)); discriminate.
      * eexists; eexists; reflexivity.
      * eexists; eexists; reflexivity.
    + cbv zeta in Hr'.
      destruct (match _ with (inl e, st') => _ | (inr r2, st') => _ end) as [[e|r2] st3];
        simpl in Hr'; [discriminate|].
      injection Hr' as ->. exists r'. cbn [fst]. auto.
Qed.

(** C10, witness: Companies House lists Acme Ltd under 12345678, the site of
    the company shows 87654321. *)
Lemma C10_website_number_wins_witness :
  Complete.field "company_number"
    (Eff.value_of
       (Complete.UKCompanyNumberExtractor.process_company Examples.acme_uk
          "Acme Ltd" "https://acme.co.uk") Eff.initial)
  = Some "87654321"%string /\
  option_map UK.company_number
    (Eff.value_of
       (UK.process_company_with_companies_house Examples.acme_uk_original
          "Acme Ltd" "https://acme.co.uk") Eff.initial)
  = Some "87654321"%string.
Proof.
  destruct (C10_website_number_wins Examples.acme_uk Examples.acme_uk_original
              "Acme Ltd" "https://acme.co.uk" "12345678" "87654321"
              (Examples.html_page "Acme Ltd. Company number: 87654321") Eff.initial
              eq_refl eq_refl) as [Hc Hu].
  split.
  - apply Hc; [vm_compute; reflexivity|intros h; reflexivity|vm_compute; reflexivity].
  - apply Hu; [vm_compute; reflexivity|intros h; reflexivity|vm_compute; reflexivity].
Defined.

(** ** Page acquisition *)

(** What [fetch_with_requests] does with each answer of [session.get]. *)
Lemma fetch_with_requests_cases (w : NL.world) (url : string) (st : Eff.state) :
  let st' := {| Eff.driver := Eff.driver st; Eff.log := (Eff.log st ++ [Eff.EvGet url])%list |} in
  NL.fetch_with_requests w url st =
  match NL.session_get w (Eff.log st) url with
  | inl e => (if Eff.is_request_exception e then inr None else inl e, st')
  | inr r =>
      if (400 <=? Eff.status_code r) && (Eff.status_code r <? 600) then (inr None, st')
      else if Py.contains "html" (Py.lower (Eff.content_type r))
              || Py.contains "xml" (Py.lower (Eff.content_type r))
           then (inr (Some (Eff.text r)), st')
           else (inr None, st')
  end.
Proof.
  unfold NL.fetch_with_requests, Eff.try_except, Eff.bind, Eff.call, NL.raise_for_status.
  destruct (NL.session_get w (Eff.log st) url) as [e|r]; cbn [fst snd].
  - destruct (Eff.is_request_exception e); reflexivity.
  - destruct ((400 <=? Eff.status_code r) && (Eff.status_code r <? 600)); cbn.
    + reflexivity.
    + destruct (Py.contains "html" _ || Py.contains "xml" _); reflexivity.
Qed.

(** [setup_selenium] never raises. *)
Lemma setup_selenium_returns (w : NL.world) (st : Eff.state) :
  exists st', NL.setup_selenium w st = (inr tt, st') /\
    (Eff.driver st = true -> st' = st) /\
    (Eff.driver st = false ->
     Eff.log st' = (Eff.log st ++ [Eff.EvDriverStart])%list /\
     Eff.driver st' = match NL.chrome_start w (Eff.log st) with
                      | Some _ => false
                      | None => true
                      end).
Proof.
  unfold NL.setup_selenium, Eff.bind, Eff.get_driver. cbn [fst snd].
  destruct (Eff.driver st) eqn:Ed.
  - exists st. split; [reflexivity|]. split; [reflexivity|discriminate].
  - unfold Eff.try_except, Eff.bind, Eff.call, Eff.set_driver.
    destruct (NL.chrome_start w (Eff.log st)); cbn [fst snd Eff.driver Eff.log];
      eexists; (split; [reflexivity|]); (split; [discriminate|]);
      intros _; split; reflexivity.
Qed.

(** What [fetch_with_selenium] does once the driver has been looked after. *)
Lemma fetch_with_selenium_cases (w : NL.world) (url : string) (st : Eff.state) :
  let st1 := Eff.state_after (NL.setup_selenium w) st in
  Eff.value_of (NL.fetch_with_selenium w url) st =
  Some (if Eff.driver st1
        then match NL.driver_get w (Eff.log st1) url with
             | inl _ => None
             | inr page => Some (Eff.page_source page)
             end
        else None).
Proof.
  unfold NL.fetch_with_selenium, Eff.value_of, Eff.state_after, Eff.bind.
  destruct (setup_selenium_returns w st) as (st1 & Hs & _). rewrite Hs.
  cbn [fst snd Eff.get_driver].
  destruct (Eff.driver st1); cbn [negb]; [|reflexivity].
  unfold Eff.try_except, Eff.bind, Eff.call.
  destruct (NL.driver_get w (Eff.log st1) url); reflexivity.
Qed.

(** C6 (amended).  The static fetch gives [None] for every
    [RequestException] of the transport (a timeout, a connection error) and for
    every response with a status from 400 to 599; it raises only what
    [session.get] raises outside that family; a response with any other
    status is read like a 200 one.  The rendered fetch never raises: it gives
    [None] when the browser cannot be started or the page load fails, and
    the page source otherwise, whatever the HTTP status of the page. *)
Theorem C6_page_acquisition (w : NL.world) (url : string) (st : Eff.state) :
  let static := NL.fetch_with_requests w url in
  let rendered := NL.fetch_with_selenium w url in
  let st1 := Eff.state_after (NL.setup_selenium w) st in
  (forall e, NL.session_get w (Eff.log st) url = inl e ->
             Eff.is_request_exception e = true ->
             Eff.value_of static st = Some None) /\
  (forall r, NL.session_get w (Eff.log st) url = inr r ->
             400 <= Eff.status_code r < 600 ->
             Eff.value_of static st = Some None) /\
  (forall r, NL.session_get w (Eff.log st) url = inr r ->
             ~ 400 <= Eff.status_code r < 600 ->
             Eff.value_of static st =
             Some (if Py.contains "html" (Py.lower (Eff.content_type r))
                      || Py.contains "xml" (Py.lower (Eff.content_type r))
                   then Some (Eff.text r) else None)) /\
  (forall e, Eff.raised_by static st = Some e ->
             NL.session_get w (Eff.log st) url = inl e /\
             Eff.is_request_exception e = false) /\
  Eff.raised_by rendered st = None /\
  (Eff.driver st1 = false -> Eff.value_of rendered st = Some None) /\
  (forall e, NL.driver_get w (Eff.log st1) url = inl e ->
             Eff.value_of rendered st = Some None) /\
  (forall page, Eff.driver st1 = true ->
                NL.driver_get w (Eff.log st1) url = inr page ->
                Eff.value_of rendered st = Some (Some (Eff.page_source page))).
Proof.
  intros static rendered st1. subst static rendered.
  pose proof (fetch_with_requests_cases w url st) as Hs. cbv zeta in Hs.
  pose proof (fetch_with_selenium_cases w url st) as Hr. cbv zeta in Hr.
  fold st1 in Hr.
  repeat split.
  - intros e He Hreq. unfold Eff.value_of. rewrite Hs, He, Hreq. reflexivity.
  - intros r Hget Hst. unfold Eff.value_of. rewrite Hs, Hget.
    destruct (Nat.leb_spec 400 (Eff.status_code r)); [|lia].
    destruct (Nat.ltb_spec (Eff.status_code r) 600); [|lia]. reflexivity.
  - intros r Hget Hst. unfold Eff.value_of. rewrite Hs, Hget.
    destruct (Nat.leb_spec 400 (Eff.status_code r));
      destruct (Nat.ltb_spec (Eff.status_code r) 600); try lia; cbn [andb];
      destruct (Py.contains "html" _ || Py.contains "xml" _); reflexivity.
  - revert H. unfold Eff.raised_by. rewrite Hs.
    destruct (NL.session_get w (Eff.log st) url) as [e'|r].
    + destruct (Eff.is_request_exception e'); cbn [fst]; [discriminate|].
      intros [= ->]. reflexivity.
    + destruct ((400 <=? Eff.status_code r) && (Eff.status_code r <? 600));
        [discriminate|].
      destruct (Py.contains "html" _ || Py.contains "xml" _); discriminate.
  - revert H. unfold Eff.raised_by. rewrite Hs.
    destruct (NL.session_get w (Eff.log st) url) as [e'|r].
    + destruct (Eff.is_request_exception e') eqn:E; cbn [fst]; [discriminate|].
      intros [= <-]. exact E.
    + destruct ((400 <=? Eff.status_code r) && (Eff.status_code r <? 600));
        [discriminate|].
      destruct (Py.contains "html" _ || Py.contains "xml" _); discriminate.
  - revert Hr. unfold Eff.value_of, Eff.raised_by.
    destruct (fst (NL.fetch_with_selenium w url st)); [discriminate|reflexivity].
  - intros Hd. rewrite Hr, Hd. reflexivity.
  - intros e He. rewrite Hr, He. destruct (Eff.driver st1); reflexivity.
  - intros page Hd Hp. rewrite Hr, Hd, Hp. reflexivity.
Qed.

(** C6, witness: the web cannot be reached, and the browser loads no page. *)
Lemma C6_page_acquisition_witness :
  Eff.value_of (NL.fetch_with_requests Examples.dutch_offline "https://acme.nl") Eff.initial
  = Some None /\
  Eff.value_of (NL.fetch_with_selenium Examples.dutch_offline "https://acme.nl") Eff.initial
  = Some None.
Proof.
  pose proof (C6_page_acquisition Examples.dutch_offline "https://acme.nl" Eff.initial)
    as (H1 & _ & _ & _ & _ & _ & H7 & _).
  split.
  - apply (H1 Examples.connection_error); reflexivity.
  - eapply H7. reflexivity.
Defined.

(** C6, counterexample to "a non-2xx response yields None": the body of a
    300 response with an HTML content type is returned as the page. *)
Lemma C6_non_2xx_counterexample :
  Eff.status_code Examples.multiple_choices = 300 /\
  Eff.value_of
    (NL.fetch_with_requests
       (Examples.dutch (fun _ _ => inr Examples.multiple_choices) Examples.nothing_scanned)
       "https://acme.nl") Eff.initial
  = Some (Some "<h1>Multiple Choices</h1>"%string).
Proof.
  split; vm_compute; reflexivity.
Qed.

(** ** The Dutch resolution without a website *)

Lemma website_of_empty (c : NL.company) :
  Py.truthy (Py.strip (NL.website c)) = false ->
  NL.website_of c = Py.strip (NL.website c).
Proof.
  intros H. unfold NL.website_of. rewrite H. reflexivity.
Qed.

(** C9 (amended).  A Dutch company without a website whose register search
    gives no number with a legal name ends with the status [no_website] and
    the error "No website provided and not found in KvK register", whether
    the form of the register was driven or the search gave up for want of a
    browser; nothing is asked of the outside after the register search. *)
Theorem C9_no_website (w : NL.world) (c : NL.company) (st : Eff.state)
    (found : option string * option string) :
  let st1 :=
    Eff.state_after (Eff.info "Step 1: Searching KvK register with original name...") st in
  Py.truthy (Py.strip (NL.website c)) = false ->
  Eff.value_of (NL.search_kvk_register_enhanced w (NL.name c)) st1 = Some found ->
  NL.truthy_opt (fst found) && NL.truthy_opt (snd found) = false ->
  exists r,
    Eff.value_of (NL.process_single_dutch_company w c) st = Some r /\
    NL.status r = "no_website"%string /\
    NL.error r = Some "No website provided and not found in KvK register"%string /\
    NL.search_attempts r =
      ["KvK direct search failed"; "No website available for scraping"]%string /\
    Eff.state_after (NL.process_single_dutch_company w c) st =
    Eff.state_after (NL.search_kvk_register_enhanced w (NL.name c)) st1.
Proof.
  intros st1 Hsite Hfound Hno.
  unfold NL.process_single_dutch_company, NL.process_single_dutch_company_with,
    NL.try_block, Eff.value_of, Eff.state_after, Eff.bind, NL.attempt.
  cbn [NL.by_register NL.searches_of].
  rewrite (website_of_empty c Hsite).
  unfold Eff.value_of in Hfound. subst st1.
  unfold Eff.state_after, Eff.info, Eff.call in *. cbn [fst snd] in *.
  set (st1 := {| Eff.driver := Eff.driver st; Eff.log := _ |}) in *.
  destruct (NL.search_kvk_register_enhanced w (NL.name c) st1) as [[e|f] st2];
    cbn [fst snd] in *; [discriminate|].
  injection Hfound as ->. destruct found as [number legal_name]. cbn [fst snd] in Hno.
  rewrite Hno, Hsite. cbn [negb fst snd Eff.ret].
  eexists. split; [reflexivity|]. repeat split.
Qed.

(** C9, witness: the browser starts, the register knows no "Acme", and the
    row has no website. *)
Lemma C9_no_website_witness :
  option_map NL.status
    (Eff.value_of
       (NL.process_single_dutch_company Examples.dutch_offline
          {| NL.name := "Acme"; NL.website := "" |}) Eff.initial)
  = Some "no_website"%string.
Proof.
  destruct (C9_no_website Examples.dutch_offline
              {| NL.name := "Acme"; NL.website := "" |} Eff.initial (None, None)
              eq_refl eq_refl eq_refl) as (r & Hr & Hs & _).
  rewrite Hr. cbn [option_map]. rewrite Hs. reflexivity.
Defined.

(** C9, counterexample to "NotFound when the registry step ran and found
    nothing": the register form was driven for "Acme" and found nothing,
    there is no website, and the status is [no_website]. *)
Lemma C9_registry_ran_counterexample :
  In (Eff.EvKvkSearch "Acme")
     (Eff.log
        (Eff.state_after
           (NL.process_single_dutch_company Examples.dutch_offline
              {| NL.name := "Acme"; NL.website := "" |}) Eff.initial)) /\
  NL.kvk_register Examples.dutch_offline
    [Eff.EvInfo "Step 1: Searching KvK register with original name..."; Eff.EvDriverStart]
    "Acme" = inr (None, None) /\
  option_map NL.status
    (Eff.value_of
       (NL.process_single_dutch_company Examples.dutch_offline
          {| NL.name := "Acme"; NL.website := "" |}) Eff.initial)
  = Some "no_website"%string /\
  option_map NL.status
    (Eff.value_of
       (NL.process_single_dutch_company Examples.dutch_offline
          {| NL.name := "Acme"; NL.website := "" |}) Eff.initial)
  <> Some "not_found"%string.
Proof.
  split; [vm_compute; tauto|]. split; [reflexivity|].
  split; [vm_compute; reflexivity|]. vm_compute. discriminate.
Qed.

(** ** Exceptions inside a resolution *)

(** The steps of the Dutch [try] block end in an outcome; what they raise
    is inside it. *)
Lemma attempt_returns {A : Type} (r : NL.result) (c : Eff.M A) (k : A -> Eff.M NL.outcome) :
  (forall x st, exists out st', k x st = (inr out, st')) ->
  forall st, exists out st', NL.attempt r c k st = (inr out, st').
Proof.
  intros Hk st. unfold NL.attempt.
  destruct (c st) as [[e|x] st']; [eauto|apply Hk].
Qed.

Lemma info_then_returns {A : Type} (line : string) (c : Eff.M A) :
  (forall st, exists out st', c st = (inr out, st')) ->
  forall st, exists out st', (run Eff.info line; c) st = (inr out, st').
Proof.
  intros Hc st. unfold Eff.bind, Eff.info, Eff.call. apply Hc.
Qed.

Lemma lei_step_returns m company_name legal_names website_codes r st :
  exists out st',
    NL.lei_step m company_name legal_names website_codes r st = (inr out, st').
Proof.
  revert st. unfold NL.lei_step. apply info_then_returns, attempt_returns.
  intros [lei_code lei_legal_name] st.
  destruct (NL.truthy_opt lei_code); unfold Eff.ret; eauto.
Qed.

Lemma kvk_by_legal_name_returns m names r k :
  (forall r' st, exists out st', k r' st = (inr out, st')) ->
  forall st, exists out st', NL.kvk_by_legal_name m names r k st = (inr out, st').
Proof.
  intros Hk. revert r. induction names as [|[legal_name source] names IH]; intros r.
  - apply Hk.
  - cbn [NL.kvk_by_legal_name]. apply info_then_returns, attempt_returns.
    intros [number legal] st.
    destruct (NL.truthy_opt number); [unfold Eff.ret; eauto|apply IH].
Qed.

Lemma website_step_returns m company_name site r st :
  exists out st', NL.website_step m company_name site r st = (inr out, st').
Proof.
  revert st. unfold NL.website_step. apply info_then_returns, attempt_returns.
  intros [legal_names website_codes] st.
  destruct (NL.truthy_opt (NL.kvk website_codes)); [unfold Eff.ret; eauto|].
  apply kvk_by_legal_name_returns. intros r' st'. apply lei_step_returns.
Qed.

Lemma try_block_returns m company_name site r st :
  exists out st', NL.try_block m company_name site r st = (inr out, st').
Proof.
  revert st. unfold NL.try_block. apply info_then_returns, attempt_returns.
  intros [number legal] st.
  destruct (NL.truthy_opt number && NL.truthy_opt legal); [unfold Eff.ret; eauto|].
  destruct (negb (Py.truthy site)); [unfold Eff.ret; eauto|].
  apply website_step_returns.
Qed.

Lemma process_single_dutch_company_returns m c st :
  exists r st', NL.process_single_dutch_company_with m c st = (inr r, st').
Proof.
  unfold NL.process_single_dutch_company_with, Eff.bind.
  destruct (try_block_returns m (NL.name c) (NL.website_of c)
              (NL.initial_result (NL.name c) (NL.website_of c)) st)
    as (out & st' & ->).
  destruct out; unfold Eff.ret; eauto.
Qed.

Lemma process_dutch_companies_returns m cs st :
  exists rs st', NL.process_dutch_companies_with m cs st = (inr rs, st') /\
                 length rs = length cs.
Proof.
  revert st. induction cs as [|c cs IH]; intros st.
  - exists [], st. split; reflexivity.
  - cbn [NL.process_dutch_companies_with]. unfold Eff.bind.
    destruct (process_single_dutch_company_returns m c st) as (r & st1 & ->).
    destruct (IH st1) as (rs & st2 & -> & Hlen).
    exists (r :: rs), st2. split; [reflexivity|]. cbn [length]. congruence.
Qed.

(** The batch over [cs1 ++ c :: cs2]: the row of [c] is what its own
    resolution gives in the state the rows before it left. *)
Lemma process_dutch_companies_app m cs1 c cs2 st :
  exists rs1 r rs2,
    Eff.value_of (NL.process_dutch_companies_with m (cs1 ++ c :: cs2)%list) st
      = Some (rs1 ++ r :: rs2)%list /\
    length rs1 = length cs1 /\ length rs2 = length cs2 /\
    Eff.value_of (NL.process_single_dutch_company_with m c)
      (Eff.state_after (NL.process_dutch_companies_with m cs1) st) = Some r.
Proof.
  revert st. induction cs1 as [|c1 cs1 IH]; intros st.
  - cbn [app NL.process_dutch_companies_with].
    unfold Eff.value_of, Eff.state_after, Eff.bind, Eff.ret. cbn [snd].
    destruct (process_single_dutch_company_returns m c st) as (r & st1 & ->).
    destruct (process_dutch_companies_returns m cs2 st1) as (rs & st2 & -> & Hlen).
    exists [], r, rs. cbn [fst app length]. auto.
  - cbn [app NL.process_dutch_companies_with].
    unfold Eff.value_of, Eff.state_after, Eff.bind in *.
    destruct (process_single_dutch_company_returns m c1 st) as (r1 & st1 & ->).
    destruct (IH st1) as (rs1 & r & rs2 & H1 & Hl1 & Hl2 & H2).
    destruct (NL.process_dutch_companies_with m (cs1 ++ c :: cs2)%list st1)
      as [[e|rs] st2]; cbn [fst] in H1; [discriminate|]. injection H1 as ->.
    destruct (process_dutch_companies_returns m cs1 st1) as (rs1' & st3 & Hx & _).
    rewrite Hx in *. cbn [fst snd] in *.
    exists (r1 :: rs1), r, rs2. cbn [fst snd app length Eff.ret]. auto.
Qed.

(** The three searches of the class catch what they raise, so with them
    the [try] block is left by a [return]. *)
Definition calm (m : NL.searches) : Prop :=
  (forall n st, exists x st', NL.by_register m n st = (inr x, st')) /\
  (forall site n st, exists x st', NL.by_website m site n st = (inr x, st')) /\
  (forall n st, exists x st', NL.by_lei m n st = (inr x, st')).

Definition returned (c : Eff.M NL.outcome) : Prop :=
  forall st, exists r st', c st = (inr (NL.Returned r), st').

Lemma attempt_returned {A : Type} (r : NL.result) (c : Eff.M A) (k : A -> Eff.M NL.outcome) :
  (forall st, exists x st', c st = (inr x, st')) ->
  (forall x, returned (k x)) ->
  returned (NL.attempt r c k).
Proof.
  intros Hc Hk st. unfold NL.attempt.
  destruct (Hc st) as (x & st' & ->). apply Hk.
Qed.

Lemma info_then_returned (line : string) (c : Eff.M NL.outcome) :
  returned c -> returned (run Eff.info line; c).
Proof.
  intros Hc st. unfold Eff.bind, Eff.info, Eff.call. apply Hc.
Qed.

Lemma ret_returned r : returned (Eff.ret (NL.Returned r)).
Proof. intros st. unfold Eff.ret. eauto. Qed.

Lemma lei_retry_returns m names last :
  calm m -> forall st, exists x st', NL.lei_retry m names last st = (inr x, st').
Proof.
  intros (_ & _ & Hlei). revert last.
  induction names as [|[legal_name source] names IH]; intros last st;
    cbn [NL.lei_retry]; [unfold Eff.ret; eauto|].
  unfold Eff.bind. destruct (Hlei legal_name st) as (x & st' & ->).
  destruct (NL.truthy_opt (fst x)); [unfold Eff.ret; eauto|apply IH].
Qed.

Lemma lei_step_returned m company_name legal_names website_codes r :
  calm m -> returned (NL.lei_step m company_name legal_names website_codes r).
Proof.
  intros Hm. unfold NL.lei_step. apply info_then_returned, attempt_returned.
  - intros st. unfold Eff.bind.
    destruct (proj2 (proj2 Hm) company_name st) as (x & st' & ->).
    destruct (negb (NL.truthy_opt (fst x)) && negb (bool_decide (legal_names = [])));
      [apply lei_retry_returns, Hm|unfold Eff.ret; eauto].
  - intros [lei_code lei_legal_name].
    destruct (NL.truthy_opt lei_code); apply ret_returned.
Qed.

Lemma kvk_by_legal_name_returned m names r k :
  calm m -> (forall r', returned (k r')) -> returned (NL.kvk_by_legal_name m names r k).
Proof.
  intros Hm Hk. revert r. induction names as [|[legal_name source] names IH]; intros r.
  - apply Hk.
  - cbn [NL.kvk_by_legal_name]. apply info_then_returned, attempt_returned.
    + apply (proj1 Hm).
    + intros [number legal]. destruct (NL.truthy_opt number); [apply ret_returned|apply IH].
Qed.

Lemma try_block_returned m company_name site r :
  calm m -> returned (NL.try_block m company_name site r).
Proof.
  intros Hm. unfold NL.try_block. apply info_then_returned, attempt_returned.
  - apply (proj1 Hm).
  - intros [number legal].
    destruct (NL.truthy_opt number && NL.truthy_opt legal); [apply ret_returned|].
    destruct (negb (Py.truthy site)); [apply ret_returned|].
    unfold NL.website_step. apply info_then_returned, attempt_returned.
    + apply (proj1 (proj2 Hm)).
    + intros [legal_names website_codes].
      destruct (NL.truthy_opt (NL.kvk website_codes)); [apply ret_returned|].
      apply kvk_by_legal_name_returned; [exact Hm|].
      intros r'. apply lei_step_returned, Hm.
Qed.

Lemma form_search_returns (w : NL.world) {A : Type} (c : Eff.M (option A * option A)) st :
  exists x st',
    (run NL.setup_selenium w;
     do d <- Eff.get_driver;
     if negb d then Eff.ret (None, None)
     else Eff.try_except c (fun _ => Eff.ret (None, None))) st = (inr x, st').
Proof.
  unfold Eff.bind. destruct (setup_selenium_returns w st) as (st1 & -> & _).
  cbn [Eff.get_driver]. destruct (negb (Eff.driver st1)); [unfold Eff.ret; eauto|].
  unfold Eff.try_except, Eff.ret. destruct (c st1) as [[e|x] st2]; eauto.
Qed.

Lemma visit_returns w url company_name names found st :
  exists r st', NL.visit w url company_name names found st = (inr r, st').
Proof.
  unfold NL.visit, Eff.try_except, Eff.ret.
  match goal with |- context [match ?c st with _ => _ end] => destruct (c st) as [[e|x] st'] end;
    eauto.
Qed.

Lemma visit_paths_returns w base company_name paths names found st :
  exists r st', NL.visit_paths w base company_name paths names found st = (inr r, st').
Proof.
  revert names found st. induction paths as [|path paths IH]; intros names found st;
    cbn [NL.visit_paths]; [unfold Eff.ret; eauto|].
  unfold Eff.bind, Eff.info, Eff.call.
  match goal with
  | |- context [NL.visit w ?u company_name names found ?s] =>
      destruct (visit_returns w u company_name names found s) as (r & st1 & ->)
  end.
  destruct (snd r); [unfold Eff.ret; eauto|apply IH].
Qed.

Lemma searches_of_calm w : calm (NL.searches_of w).
Proof.
  split; [|split]; cbn [NL.searches_of NL.by_register NL.by_website NL.by_lei].
  - intros n st. apply form_search_returns.
  - intros site n st. apply visit_paths_returns.
  - intros n st. apply form_search_returns.
Qed.

(** The strategies of the orchestrator catch what they raise. *)
Definition settled (c : Eff.M Complete.result) : Prop :=
  forall st, exists r st',
    c st = (inr r, st') /\
    (r !! "status"%string = Some "Found"%string \/
     r !! "status"%string = Some "Not Found"%string).

Lemma found_with_status pairs r :
  Complete.found_with pairs r !! "status"%string = Some "Found"%string.
Proof. unfold Complete.found_with. apply lookup_insert_eq. Qed.

Lemma from_website_settled w extract company_url r :
  (r !! "status"%string = Some "Found"%string \/
   r !! "status"%string = Some "Not Found"%string) ->
  settled (Complete.from_website w extract company_url r).
Proof.
  intros Hr st. unfold Complete.from_website.
  destruct (Py.truthy company_url); [|unfold Eff.ret; eauto].
  unfold Eff.try_except, Eff.bind, Eff.call, Eff.ret.
  destruct (Complete.session_get w (Eff.log st) company_url) as [e|response]; [eauto|].
  destruct (Eff.status_code response =? 200); [|eauto].
  destruct (extract (Eff.text response)) as [|p pairs]; [eauto|].
  do 2 eexists. split; [reflexivity|]. left. apply found_with_status.
Qed.

Lemma search_by_name_returns sim get links_of company_name st :
  exists found st', UK.search_by_name sim get links_of company_name st = (inr found, st').
Proof.
  unfold UK.search_by_name, Eff.try_except, Eff.bind, Eff.call, Eff.ret, Eff.raise.
  destruct (get (Eff.log st) _) as [e|response]; [eauto|].
  destruct (Eff.status_code response =? 200); [|eauto].
  destruct (links_of (Eff.text response)); eauto.
Qed.

Lemma uk_process_company_settled w company_name company_url :
  settled (Complete.UKCompanyNumberExtractor.process_company w company_name company_url).
Proof.
  intros st. unfold Complete.UKCompanyNumberExtractor.process_company,
    Complete.UKCompanyNumberExtractor.search_companies_house_by_name,
    Eff.try_except, Eff.bind.
  destruct (search_by_name_returns Complete.UKCompanyNumberExtractor.similarity
              (Complete.session_get w) (Complete.anchors w) company_name st)
    as (found & st1 & ->).
  match goal with
  | |- context [Complete.from_website w ?ex company_url ?r st1] =>
      destruct (from_website_settled w ex company_url r) with (st := st1)
        as (r' & st2 & -> & Hs)
  end.
  - destruct found as [company_number|]; [|right; reflexivity].
    destruct (Py.truthy company_number); [left; apply found_with_status|right; reflexivity].
  - eauto.
Qed.

Lemma extractors_settled px w cc extractor company_name website :
  Complete.extractors px w !! cc = Some extractor ->
  settled (extractor company_name website).
Proof.
  intros Hl. apply elem_of_list_to_map_2 in Hl.
  repeat (apply elem_of_cons in Hl as [[= _ ->]|Hl];
          [first [apply uk_process_company_settled
                 |apply from_website_settled; right; reflexivity]|]).
  apply elem_of_nil in Hl. contradiction.
Qed.

Lemma process_single_company_returns px w company_name website cc st :
  exists r st',
    Complete.process_single_company px w company_name website cc st = (inr r, st') /\
    (r !! "status"%string = Some "Found"%string \/
     r !! "status"%string = Some "Not Found"%string \/
     r !! "status"%string = Some "Country not supported"%string).
Proof.
  unfold Complete.process_single_company.
  destruct (Complete.extractors px w !! cc) as [extractor|] eqn:E.
  - destruct (extractors_settled px w cc extractor company_name website E st)
      as (r & st' & Hr & Hs).
    exists r, st'. tauto.
  - do 2 eexists. split; [reflexivity|]. right. right. reflexivity.
Qed.

Lemma process_rows_returns px w callback company_col website_col country_col total rows :
  (forall f, callback = Some f -> forall i n, f i n = None) ->
  forall idx st, exists rs st',
    Complete.process_rows px w callback company_col website_col country_col
      total idx rows st = (inr rs, st') /\
    length rs = length rows.
Proof.
  intros Hcb. induction rows as [|row rows IH]; intros idx st.
  - exists [], st. split; reflexivity.
  - cbn [Complete.process_rows]. unfold Eff.bind at 1.
    assert ((match callback with
             | Some f => match f (idx + 1) total with
                         | Some e => Eff.raise e
                         | None => Eff.ret tt
                         end
             | None => Eff.ret tt
             end) st = (inr tt, st)) as ->.
    { destruct callback as [f|]; [|reflexivity]. rewrite (Hcb f eq_refl). reflexivity. }
    unfold Eff.bind.
    match goal with
    | |- context [Complete.process_single_company px w ?n ?s ?c st] =>
        destruct (process_single_company_returns px w n s c st) as (r & st1 & -> & _)
    end.
    destruct (IH (S idx) st1) as (rs & st2 & -> & Hlen).
    exists (r :: rs), st2. split; [reflexivity|]. cbn [length]. congruence.
Qed.

(** C4 (amended).  In the Dutch extractor an exception that one of the
    three searches lets out is caught by [process_single_dutch_company] and
    becomes the row with the status [error] and the message of the
    exception; a batch returns one row per company, each the outcome of that
    company's own resolution; the searches of the class catch what they
    raise, so with them the handler is not reached.  In the orchestrator
    nothing is caught at the batch: every strategy returns a row with the
    status Found or Not Found (or Country not supported) whatever was raised
    inside it, and a batch over a sheet with a column returns one row per
    row of the sheet as long as the progress callback does not raise. *)
Theorem C4_failures_are_contained :
  (forall m c st e r0 st',
     NL.try_block m (NL.name c) (NL.website_of c)
       (NL.initial_result (NL.name c) (NL.website_of c)) st = (inr (NL.Raised e r0), st') ->
     exists r,
       NL.process_single_dutch_company_with m c st = (inr r, st') /\
       NL.status r = "error"%string /\
       NL.error r = Some (Eff.message e) /\
       NL.search_attempts r
         = (NL.search_attempts r0 ++ ["Error occurred: " ++ Eff.message e]%string)%list) /\
  (forall m c st e,
     Eff.raised_by (NL.by_register m (NL.name c))
       (Eff.state_after
          (Eff.info "Step 1: Searching KvK register with original name...") st) = Some e ->
     exists r,
       Eff.value_of (NL.process_single_dutch_company_with m c) st = Some r /\
       NL.status r = "error"%string /\
       NL.error r = Some (Eff.message e)) /\
  (forall m cs1 c cs2 st,
     exists rs1 r rs2,
       Eff.value_of (NL.process_dutch_companies_with m (cs1 ++ c :: cs2)%list) st
         = Some (rs1 ++ r :: rs2)%list /\
       length rs1 = length cs1 /\ length rs2 = length cs2 /\
       Eff.value_of (NL.process_single_dutch_company_with m c)
         (Eff.state_after (NL.process_dutch_companies_with m cs1) st) = Some r) /\
  (forall w c st,
     exists r st',
       NL.try_block (NL.searches_of w) (NL.name c) (NL.website_of c)
         (NL.initial_result (NL.name c) (NL.website_of c)) st = (inr (NL.Returned r), st') /\
       NL.process_single_dutch_company w c st = (inr r, st')) /\
  (forall px w company_name website cc st,
     exists r,
       Eff.value_of (Complete.process_single_company px w company_name website cc) st
         = Some r /\
       (r !! "status"%string = Some "Found"%string \/
        r !! "status"%string = Some "Not Found"%string \/
        r !! "status"%string = Some "Country not supported"%string)) /\
  (forall px w df callback st,
     Complete.columns df <> [] ->
     (forall f, callback = Some f -> forall i n, f i n = None) ->
     exists rs,
       Eff.value_of (Complete.process_company_list px w df callback) st = Some rs /\
       length rs = length (Complete.rows df)).
Proof.
  split; [|split; [|split; [|split; [|split]]]].
  - intros m c st e r0 st' Hblock.
    unfold NL.process_single_dutch_company_with, Eff.bind. rewrite Hblock.
    eexists. split; [reflexivity|]. repeat split.
  - intros m c st e Hraise.
    unfold NL.process_single_dutch_company_with, NL.try_block, Eff.value_of, Eff.bind,
      NL.attempt.
    unfold Eff.raised_by, Eff.state_after, Eff.info, Eff.call in *. cbn [fst snd] in *.
    match type of Hraise with
    | context [NL.by_register m (NL.name c) ?s] =>
        destruct (NL.by_register m (NL.name c) s) as [[e'|x] st1]
    end; cbn [fst] in Hraise; [|discriminate].
    injection Hraise as ->. cbn [fst Eff.ret].
    eexists. split; [reflexivity|]. split; reflexivity.
  - apply process_dutch_companies_app.
  - intros w c st.
    destruct (try_block_returned (NL.searches_of w) (NL.name c) (NL.website_of c)
                (NL.initial_result (NL.name c) (NL.website_of c)) (searches_of_calm w) st)
      as (r & st' & Hr).
    exists r, st'. split; [exact Hr|].
    unfold NL.process_single_dutch_company, NL.process_single_dutch_company_with, Eff.bind.
    rewrite Hr. reflexivity.
  - intros px w company_name website cc st.
    destruct (process_single_company_returns px w company_name website cc st)
      as (r & st' & Hr & Hs).
    exists r. unfold Eff.value_of. rewrite Hr. auto.
  - intros px w df callback st Hcols Hcb.
    unfold Complete.process_company_list.
    destruct (head (_ ++ Complete.columns df)) as [company_col|] eqn:Eh.
    + match goal with
      | |- context [Complete.process_rows px w callback company_col ?wc ?cc ?t 0 ?rs] =>
          destruct (process_rows_returns px w callback company_col wc cc t rs Hcb 0 st)
            as (res & st' & Hr & Hlen)
      end.
      exists res. unfold Eff.value_of. rewrite Hr. auto.
    + exfalso. destruct (Complete.columns df) as [|col cols]; [contradiction|].
      destruct (Complete.matching_columns _ _); discriminate.
Qed.

(** C4, witness: a register search that lets its exception out. *)
Lemma C4_failures_are_contained_witness :
  option_map (map NL.status)
    (Eff.value_of
       (NL.process_dutch_companies_with Examples.failing_register
          [ {| NL.name := "Acme"; NL.website := "" |};
            {| NL.name := "Bolt"; NL.website := "" |} ]) Eff.initial)
  = Some ["error"; "error"]%string /\
  exists r,
    Eff.value_of
      (NL.process_single_dutch_company_with Examples.failing_register
         {| NL.name := "Acme"; NL.website := "" |}) Eff.initial = Some r /\
    NL.error r = Some "Message: no such element: input#search"%string.
Proof.
  split; [vm_compute; reflexivity|].
  destruct C4_failures_are_contained as (_ & H & _).
  destruct (H Examples.failing_register {| NL.name := "Acme"; NL.website := "" |}
              Eff.initial Examples.form_error eq_refl) as (r & Hr & _ & He).
  exists r. split; [exact Hr|exact He].
Defined.

(** C4, counterexample in the orchestrator.  The result page of Companies
    House cannot be parsed while "Acme Ltd" is resolved: the row has the
    status Not Found and no error.  And an exception of the progress callback
    at the second row ends the whole batch: no row is returned. *)
Lemma C4_orchestrator_counterexample :
  Complete.field "status"
    (Eff.value_of
       (Complete.process_single_company Examples.no_scans Examples.unreadable_results
          "Acme Ltd" "" "GB") Eff.initial) = Some "Not Found"%string /\
  Complete.field "error"
    (Eff.value_of
       (Complete.process_single_company Examples.no_scans Examples.unreadable_results
          "Acme Ltd" "" "GB") Eff.initial) = None /\
  Eff.raised_by
    (Complete.process_company_list Examples.no_scans Examples.offline Examples.two_rows
       (Some Examples.failing_callback)) Eff.initial = Some Examples.widget_error.
Proof.
  split; [vm_compute; reflexivity|]. split; vm_compute; reflexivity.
Qed.

(** ** The steps of the Dutch resolution *)

(** C7.  The resolution of a Dutch company stops at the first step that
    finds what it looks for: the final state is the state that step left, so
    nothing is asked or logged after it, and the outcome carries the stamp of
    that step.  Step 1 is the register search by the given name, step 2 the
    scan of the site, step 3 the register search by each legal name found on
    the site, step 4 the LEI lookup; the scan of the site itself leaves its
    loop over the paths at the first page after which a KvK number and a
    legal name are known. *)
Theorem C7_short_circuit (m : NL.searches) (w : NL.world) :
  (forall c st found st1,
     NL.by_register m (NL.name c)
       (Eff.state_after
          (Eff.info "Step 1: Searching KvK register with original name...") st)
       = (inr found, st1) ->
     NL.truthy_opt (fst found) && NL.truthy_opt (snd found) = true ->
     exists r,
       NL.process_single_dutch_company_with m c st = (inr r, st1) /\
       NL.status r = "found"%string /\
       NL.search_location r = "kvk_register_direct"%string /\
       NL.kvk_number r = fst found) /\
  (forall c st found st1 legal_names website_codes st2,
     NL.by_register m (NL.name c)
       (Eff.state_after
          (Eff.info "Step 1: Searching KvK register with original name...") st)
       = (inr found, st1) ->
     NL.truthy_opt (fst found) && NL.truthy_opt (snd found) = false ->
     Py.truthy (NL.website_of c) = true ->
     NL.by_website m (NL.website_of c) (NL.name c)
       (Eff.state_after (Eff.info "Step 2: Scraping website for legal names...") st1)
       = (inr (legal_names, website_codes), st2) ->
     NL.truthy_opt (NL.kvk website_codes) = true ->
     exists r,
       NL.process_single_dutch_company_with m c st = (inr r, st2) /\
       NL.status r = "found"%string /\
       NL.search_location r = "website_direct"%string /\
       NL.kvk_number r = NL.kvk website_codes) /\
  (forall legal_name source names r k st found st1,
     NL.by_register m legal_name
       (Eff.state_after
          (Eff.info ("Step 3: Trying KvK search with legal name: " ++ legal_name)) st)
       = (inr found, st1) ->
     NL.truthy_opt (fst found) = true ->
     exists r',
       NL.kvk_by_legal_name m ((legal_name, source) :: names) r k st
         = (inr (NL.Returned r'), st1) /\
       NL.status r' = "found"%string /\
       NL.search_location r' = "kvk_via_website_name"%string /\
       NL.kvk_number r' = fst found) /\
  (forall legal_name source names last st found st1,
     NL.by_lei m legal_name st = (inr found, st1) ->
     NL.truthy_opt (fst found) = true ->
     NL.lei_retry m ((legal_name, source) :: names) last st = (inr found, st1)) /\
  (forall company_name legal_names website_codes r st found st1,
     (do first <- NL.by_lei m company_name;
      if negb (NL.truthy_opt (fst first)) && negb (bool_decide (legal_names = []))
      then NL.lei_retry m (firstn 2 legal_names) first
      else Eff.ret first)
       (Eff.state_after (Eff.info "Step 4: Trying LEI lookup as fallback...") st)
       = (inr found, st1) ->
     NL.truthy_opt (fst found) = true ->
     exists r',
       NL.lei_step m company_name legal_names website_codes r st
         = (inr (NL.Returned r'), st1) /\
       NL.status r' = "found_lei_only"%string /\
       NL.search_location r' = "lei_lookup"%string /\
       NL.result_lei r' = fst found) /\
  (forall base company_name path paths names found st names' found' st1,
     NL.visit w (base ++ path) company_name names found
       (Eff.state_after (Eff.info ("Checking: " ++ base ++ path)) st)
       = (inr (names', found', true), st1) ->
     NL.visit_paths w base company_name (path :: paths) names found st
       = (inr (names', found'), st1)) /\
  (forall url company_name names found st html sc st1,
     (do first <- NL.fetch_with_requests w url;
      if NL.truthy_opt first then Eff.ret first else NL.fetch_with_selenium w url) st
       = (inr (Some html), st1) ->
     Py.truthy html = true ->
     NL.soup w html = inr sc ->
     let names' := (names ++ NL.extract_legal_name_from_website sc company_name)%list in
     let found' := NL.merge_codes found (NL.extract_codes_from_html html) in
     NL.visit w url company_name names found st
       = (inr (names', found',
               NL.truthy_opt (NL.kvk found') && negb (bool_decide (names' = []))), st1)).
Proof.
  split; [|split; [|split; [|split; [|split; [|split]]]]].
  - intros c st [number legal] st1 Hsearch Hfound.
    unfold NL.process_single_dutch_company_with, NL.try_block, Eff.bind, NL.attempt.
    unfold Eff.state_after, Eff.info, Eff.call in *. cbn [fst snd] in *.
    rewrite Hsearch, Hfound. cbn [Eff.ret].
    eexists. split; [reflexivity|]. repeat split.
  - intros c st [number legal] st1 legal_names website_codes st2
      Hsearch Hnot Hsite Hscan Hkvk.
    unfold NL.process_single_dutch_company_with, NL.try_block, NL.website_step, Eff.bind,
      NL.attempt.
    unfold Eff.state_after, Eff.info, Eff.call in *. cbn [fst snd] in *.
    rewrite Hsearch, Hnot, Hsite. cbn [negb]. rewrite Hscan, Hkvk. cbn [Eff.ret].
    eexists. split; [reflexivity|]. repeat split.
  - intros legal_name source names r k st [number legal] st1 Hsearch Hfound.
    cbn [NL.kvk_by_legal_name]. unfold Eff.bind, NL.attempt.
    unfold Eff.state_after, Eff.info, Eff.call in *. cbn [fst snd] in *.
    rewrite Hsearch, Hfound. cbn [Eff.ret].
    eexists. split; [reflexivity|]. repeat split.
  - intros legal_name source names last st found st1 Hsearch Hfound.
    cbn [NL.lei_retry]. unfold Eff.bind. rewrite Hsearch, Hfound. reflexivity.
  - intros company_name legal_names website_codes r st [lei_code lei_legal_name] st1
      Hsearch Hfound.
    unfold NL.lei_step, NL.attempt. unfold Eff.bind at 1.
    unfold Eff.state_after, Eff.info, Eff.call in *. cbn [fst snd] in *.
    rewrite Hsearch, Hfound. cbn [Eff.ret].
    eexists. split; [reflexivity|].
    destruct (NL.truthy_opt lei_legal_name); repeat split.
  - intros base company_name path paths names found st names' found' st1 Hvisit.
    cbn [NL.visit_paths]. unfold Eff.bind.
    unfold Eff.state_after, Eff.info, Eff.call in *. cbn [fst snd] in *.
    rewrite Hvisit. reflexivity.
  - intros url company_name names found st html sc st1 Hfetch Hhtml Hsoup names' found'.
    unfold NL.visit, Eff.try_except, Eff.bind in *.
    destruct (NL.fetch_with_requests w url st) as [[e|first] st0]; [discriminate|].
    rewrite Hfetch, Hhtml, Hsoup. reflexivity.
Qed.

(** C7, witness: the register knows Acme at step 1; and, for a register
    that knows nothing, the front page of the site gives the number at
    step 2. *)
Lemma C7_short_circuit_witness :
  option_map NL.search_location
    (Eff.value_of
       (NL.process_single_dutch_company Examples.register_knows
          {| NL.name := "Acme"; NL.website := "acme.nl" |}) Eff.initial)
  = Some "kvk_register_direct"%string /\
  Eff.log
    (Eff.state_after
       (NL.process_single_dutch_company Examples.register_knows
          {| NL.name := "Acme"; NL.website := "acme.nl" |}) Eff.initial)
  = [ Eff.EvInfo "Step 1: Searching KvK register with original name...";
      Eff.EvDriverStart; Eff.EvKvkSearch "Acme" ] /\
  option_map NL.search_location
    (Eff.value_of
       (NL.process_single_dutch_company Examples.acme_site
          {| NL.name := "Acme"; NL.website := "acme.nl" |}) Eff.initial)
  = Some "website_direct"%string.
Proof.
  destruct (C7_short_circuit (NL.searches_of Examples.register_knows) Examples.register_knows)
    as (H1 & _).
  destruct (H1 {| NL.name := "Acme"; NL.website := "acme.nl" |} Eff.initial
              (Some "12345678", Some "Acme B.V.")%string
              {| Eff.driver := true;
                 Eff.log := [ Eff.EvInfo "Step 1: Searching KvK register with original name...";
                              Eff.EvDriverStart; Eff.EvKvkSearch "Acme" ] |}
              eq_refl eq_refl) as (r1 & Hr1 & _ & Hl1 & _).
  destruct (C7_short_circuit (NL.searches_of Examples.acme_site) Examples.acme_site)
    as (_ & H2 & _).
  pose (c := {| NL.name := "Acme"; NL.website := "acme.nl" |}).
  pose (st1 := {| Eff.driver := true;
                  Eff.log := [ Eff.EvInfo "Step 1: Searching KvK register with original name...";
                               Eff.EvDriverStart; Eff.EvKvkSearch "Acme" ] |}).
  pose (scan := NL.search_website_for_info Examples.acme_site (NL.website_of c) (NL.name c)
                  (Eff.state_after
                     (Eff.info "Step 2: Scraping website for legal names...") st1)).
  destruct (H2 c Eff.initial (None, None) st1 []
              {| NL.kvk := Some "12345678"%string; NL.rsin := None; NL.lei := None;
                 NL.btw := None |}
              (snd scan) eq_refl eq_refl eq_refl) as (r2 & Hr2 & _ & Hl2 & _).
  - vm_compute. reflexivity.
  - reflexivity.
  - unfold Eff.value_of, Eff.state_after, NL.process_single_dutch_company.
    rewrite Hr1. fold c. rewrite Hr2.
    cbn [fst snd option_map Eff.log]. rewrite Hl1, Hl2. auto.
Defined.

(** ** The legal names found on a page *)

Section LegalNames.
Local Open Scope list_scope.

Variable company_name : string.

Definition cand_name (c : NL.candidate) : string := fst (fst c).
Definition cand_source (c : NL.candidate) : string := snd (fst c).

(** The score of a name against the query. *)
Definition score (name : string) : Q := NL.similarity name company_name.

(** A candidate carries the score of its name. *)
Definition scored (c : NL.candidate) : Prop := snd c = score (cand_name c).

Definition to_candidates (d : NL.unique) : list NL.candidate :=
  map (fun kv => (fst kv, fst (snd kv), snd (snd kv))) d.

(** The first candidate of each name, in the order of the list. *)
Fixpoint firsts (seen : list string) (l : list NL.candidate) : list NL.candidate :=
  match l with
  | [] => []
  | c :: l' =>
      if bool_decide (cand_name c ∈ seen) then firsts seen l'
      else c :: firsts (seen ++ [cand_name c]) l'
  end.

Lemma map_fmap {A B : Type} (f : A -> B) (l : list A) : map f l = f <$> l.
Proof. reflexivity. Qed.

Lemma gt_false x y : NL.gt x y = false <-> (x <= y)%Q.
Proof.
  unfold NL.gt. rewrite negb_false_iff. apply Qle_bool_iff.
Qed.

Lemma gt_true x y : NL.gt x y = true <-> (y < x)%Q.
Proof.
  unfold NL.gt. rewrite negb_true_iff. split.
  - intros H. apply Qnot_le_lt. intros Hle. apply Qle_bool_iff in Hle. congruence.
  - intros H. destruct (Qle_bool x y) eqn:E; [|reflexivity].
    apply Qle_bool_iff in E. exfalso. eapply Qlt_not_le; eauto.
Qed.

(** *** The candidates of a page carry their scores *)

Lemma tagged_scored l : Forall scored (NL.tagged company_name l).
Proof.
  unfold NL.tagged. rewrite map_fmap. apply Forall_fmap, Forall_forall.
  intros p _. reflexivity.
Qed.

Lemma found_names_scored sc : Forall scored (NL.found_names sc company_name).
Proof.
  unfold NL.found_names.
  repeat (apply Forall_app; split; [apply tagged_scored|]).
  rewrite map_fmap. apply Forall_fmap, Forall_forall. intros n _. reflexivity.
Qed.

(** *** [unique_names] *)

Lemma dict_get_None d name : NL.dict_get d name = None <-> name ∉ map fst d.
Proof.
  induction d as [|[n v] d IH]; cbn [NL.dict_get map fst].
  - split; [intros _; apply not_elem_of_nil|reflexivity].
  - rewrite not_elem_of_cons. destruct (String.eqb n name) eqn:E.
    + apply String.eqb_eq in E. split; [discriminate|intros [Hne _]; congruence].
    + apply String.eqb_neq in E. rewrite IH. split; [intros H; split; [congruence|exact H]|tauto].
Qed.

Lemma dict_get_Some d name v : NL.dict_get d name = Some v -> (name, v) ∈ d.
Proof.
  induction d as [|[n v'] d IH]; cbn [NL.dict_get]; [discriminate|].
  destruct (String.eqb n name) eqn:E.
  - apply String.eqb_eq in E. intros [= ->]. subst. apply list_elem_of_here.
  - intros H. apply list_elem_of_further, IH, H.
Qed.

Lemma dict_set_new d name v : name ∉ map fst d -> NL.dict_set d name v = d ++ [(name, v)].
Proof.
  induction d as [|[n v'] d IH]; cbn [NL.dict_set map fst]; [reflexivity|].
  rewrite not_elem_of_cons. intros [Hne Hd].
  destruct (String.eqb n name) eqn:E.
  - apply String.eqb_eq in E. congruence.
  - rewrite (IH Hd). reflexivity.
Qed.

Lemma to_candidates_names d : map cand_name (to_candidates d) = map fst d.
Proof.
  unfold to_candidates. rewrite map_map. apply map_ext. intros [n [s q]]. reflexivity.
Qed.

(** A name met again has the score it had, so its entry stays. *)
Lemma unique_step_firsts d c :
  Forall scored (to_candidates d) -> scored c ->
  to_candidates (NL.unique_step d c) =
  to_candidates d ++ (if bool_decide (cand_name c ∈ map fst d) then [] else [c]).
Proof.
  intros Hd Hc. destruct c as [[name source] sim]. unfold scored, cand_name in Hc.
  cbn [fst snd] in Hc. unfold NL.unique_step, cand_name. cbn [fst snd].
  destruct (NL.dict_get d name) as [[source' old]|] eqn:E.
  - pose proof (dict_get_Some _ _ _ E) as Hin.
    assert (Hk : name ∈ map fst d).
    { rewrite map_fmap. apply list_elem_of_fmap. exists (name, (source', old)). auto. }
    rewrite bool_decide_eq_true_2 by exact Hk. rewrite app_nil_r.
    assert (Hold : old = score name).
    { rewrite Forall_forall in Hd.
      specialize (Hd (name, source', old)). apply Hd.
      unfold to_candidates. rewrite map_fmap. apply list_elem_of_fmap.
      exists (name, (source', old)). auto. }
    subst old sim.
    replace (NL.gt (score name) (score name)) with false; [reflexivity|].
    symmetry. apply gt_false. apply Qle_refl.
  - apply dict_get_None in E.
    rewrite bool_decide_eq_false_2 by exact E.
    rewrite (dict_set_new _ _ _ E). unfold to_candidates. rewrite map_app. reflexivity.
Qed.

Lemma fold_unique_firsts l d :
  Forall scored (to_candidates d) -> Forall scored l ->
  to_candidates (fold_left NL.unique_step l d) = to_candidates d ++ firsts (map fst d) l.
Proof.
  revert d. induction l as [|c l IH]; intros d Hd Hl; cbn [fold_left firsts].
  - rewrite app_nil_r. reflexivity.
  - apply Forall_cons in Hl as [Hc Hl].
    pose proof (unique_step_firsts d c Hd Hc) as Hstep.
    assert (Hd' : Forall scored (to_candidates (NL.unique_step d c))).
    { rewrite Hstep. apply Forall_app. split; [exact Hd|].
      destruct (bool_decide _); [constructor|repeat constructor; exact Hc]. }
    rewrite (IH _ Hd' Hl), <- (to_candidates_names (NL.unique_step d c)), Hstep.
    destruct (bool_decide (cand_name c ∈ map fst d)).
    + rewrite !app_nil_r, to_candidates_names. reflexivity.
    + rewrite map_app, <- app_assoc, to_candidates_names. reflexivity.
Qed.

(** *** The first candidates *)

Lemma firsts_sublist seen l : firsts seen l `sublist_of` l.
Proof.
  revert seen. induction l as [|c l IH]; intros seen; cbn [firsts]; [constructor|].
  destruct (bool_decide _); [apply sublist_cons|apply sublist_skip]; apply IH.
Qed.

Lemma firsts_fresh seen l c : c ∈ firsts seen l -> cand_name c ∉ seen.
Proof.
  revert seen. induction l as [|c' l IH]; intros seen; cbn [firsts].
  - intros H. apply elem_of_nil in H. contradiction.
  - destruct (bool_decide (cand_name c' ∈ seen)) eqn:E; [apply IH|].
    apply bool_decide_eq_false in E.
    intros [->|H]%elem_of_cons; [exact E|].
    apply IH in H. intros Hs. apply H, elem_of_app. left. exact Hs.
Qed.

Lemma firsts_NoDup seen l : NoDup (map cand_name (firsts seen l)).
Proof.
  revert seen. induction l as [|c l IH]; intros seen; cbn [firsts map]; [constructor|].
  destruct (bool_decide (cand_name c ∈ seen)); [apply IH|].
  cbn [map]. constructor; [|apply IH].
  rewrite map_fmap. intros (c' & Hn & Hin)%list_elem_of_fmap.
  apply firsts_fresh in Hin. apply Hin, elem_of_app. right. rewrite Hn.
  apply list_elem_of_here.
Qed.

(** Each of them is the first candidate of its name. *)
Lemma firsts_first seen l c :
  c ∈ firsts seen l ->
  exists l1 l2, l = l1 ++ c :: l2 /\ cand_name c ∉ map cand_name l1.
Proof.
  revert seen. induction l as [|c' l IH]; intros seen; cbn [firsts].
  - intros H. apply elem_of_nil in H. contradiction.
  - destruct (bool_decide (cand_name c' ∈ seen)) eqn:E.
    + apply bool_decide_eq_true in E. intros H.
      pose proof (firsts_fresh _ _ _ H) as Hfresh.
      destruct (IH _ H) as (l1 & l2 & -> & Hl1).
      exists (c' :: l1), l2. split; [reflexivity|].
      cbn [map]. rewrite not_elem_of_cons. split; [congruence|exact Hl1].
    + intros [->|H]%elem_of_cons.
      * exists [], l. split; [reflexivity|apply not_elem_of_nil].
      * pose proof (firsts_fresh _ _ _ H) as Hfresh.
        destruct (IH _ H) as (l1 & l2 & -> & Hl1).
        exists (c' :: l1), l2. split; [reflexivity|].
        cbn [map]. rewrite not_elem_of_cons. split; [|exact Hl1].
        intros Heq. apply Hfresh, elem_of_app. right. rewrite Heq. apply list_elem_of_here.
Qed.

(** Every name of the list is the name of one of them. *)
Lemma firsts_cover seen l c :
  c ∈ l -> cand_name c ∈ seen \/ cand_name c ∈ map cand_name (firsts seen l).
Proof.
  revert seen. induction l as [|c' l IH]; intros seen.
  - intros H. apply elem_of_nil in H. contradiction.
  - cbn [firsts]. intros [->|H]%elem_of_cons.
    + destruct (bool_decide (cand_name c' ∈ seen)) eqn:E.
      * apply bool_decide_eq_true in E. auto.
      * right. cbn [map]. apply list_elem_of_here.
    + destruct (bool_decide (cand_name c' ∈ seen)) eqn:E; [apply IH, H|].
      destruct (IH (seen ++ [cand_name c']) H) as [Hs|Hf].
      * apply elem_of_app in Hs as [Hs|Hs]; [auto|].
        apply list_elem_of_singleton in Hs. right. cbn [map]. rewrite Hs.
        apply list_elem_of_here.
      * right. cbn [map]. apply list_elem_of_further, Hf.
Qed.

(** *** The sort *)

(** [x] comes no later than [y] when sorted: its score is no smaller. *)
Definition no_smaller (x y : NL.candidate) : Prop := (snd y <= snd x)%Q.

Lemma insert_by_sim_perm c l : NL.insert_by_sim c l ≡ₚ c :: l.
Proof.
  induction l as [|c' l IH]; cbn [NL.insert_by_sim]; [reflexivity|].
  destruct (NL.gt (snd c') (snd c)); [|reflexivity].
  rewrite IH. apply Permutation_swap.
Qed.

Lemma sort_by_sim_perm l : NL.sort_by_sim l ≡ₚ l.
Proof.
  induction l as [|c l IH]; [reflexivity|].
  unfold NL.sort_by_sim in *. cbn [foldr]. rewrite insert_by_sim_perm, IH. reflexivity.
Qed.

Lemma insert_by_sim_sorted c l :
  StronglySorted no_smaller l -> StronglySorted no_smaller (NL.insert_by_sim c l).
Proof.
  induction 1 as [|c' l Hl IH Hall]; cbn [NL.insert_by_sim].
  - repeat constructor.
  - destruct (NL.gt (snd c') (snd c)) eqn:E.
    + constructor; [exact IH|].
      rewrite Forall_forall. intros x Hx.
      rewrite insert_by_sim_perm in Hx. apply elem_of_cons in Hx as [->|Hx].
      * apply gt_true in E. apply Qlt_le_weak, E.
      * rewrite Forall_forall in Hall. apply Hall, Hx.
    + apply gt_false in E. constructor; [constructor; assumption|].
      constructor; [exact E|].
      rewrite Forall_forall in *. intros x Hx. unfold no_smaller in *.
      eapply Qle_trans; [apply Hall, Hx|exact E].
Qed.

Lemma sort_by_sim_sorted l : StronglySorted no_smaller (NL.sort_by_sim l).
Proof.
  induction l as [|c l IH]; [constructor|].
  unfold NL.sort_by_sim in *. cbn [foldr]. apply insert_by_sim_sorted, IH.
Qed.

(** The sort is stable: it puts [x] before [y] against their order in the
    list only for a greater score. *)
Lemma insert_by_sim_before c l x y :
  [x; y] `sublist_of` NL.insert_by_sim c l ->
  [x; y] `sublist_of` c :: l \/ (y = c /\ (snd y < snd x)%Q).
Proof.
  induction l as [|c' l IH]; cbn [NL.insert_by_sim]; [auto|].
  destruct (NL.gt (snd c') (snd c)) eqn:E; [|auto].
  intros H. apply sublist_cons_r in H as [H|(l' & Heq & H)].
  - destruct (IH H) as [H'|H']; [|auto]. left.
    apply sublist_cons_r in H' as [H'|(l' & Heq & H')].
    + do 2 apply sublist_cons. exact H'.
    + rewrite Heq. apply sublist_skip, sublist_cons, H'.
  - injection Heq as -> <-. apply singleton_sublist_l in H.
    rewrite insert_by_sim_perm in H. apply elem_of_cons in H as [->|H].
    + right. split; [reflexivity|]. apply gt_true, E.
    + left. apply sublist_cons, sublist_skip, singleton_sublist_l, H.
Qed.

Lemma sort_by_sim_stable l x y :
  [x; y] `sublist_of` NL.sort_by_sim l ->
  [x; y] `sublist_of` l \/ (snd y < snd x)%Q.
Proof.
  revert x y. induction l as [|c l IH]; intros x y; [auto|].
  unfold NL.sort_by_sim in *. cbn [foldr]. intros H.
  apply insert_by_sim_before in H as [H|[_ H]]; [|auto].
  apply sublist_cons_r in H as [H|(l' & Heq & H)].
  - destruct (IH _ _ H); [left; apply sublist_cons; assumption|auto].
  - injection Heq as -> <-. left. apply sublist_skip.
    apply singleton_sublist_l. apply singleton_sublist_l in H.
    rewrite <- (sort_by_sim_perm l). exact H.
Qed.

Lemma sorted_before {A : Type} (R : A -> A -> Prop) l x y :
  StronglySorted R l -> [x; y] `sublist_of` l -> R x y.
Proof.
  induction 1 as [|c l Hl IH Hall]; intros H.
  - inversion H.
  - apply sublist_cons_r in H as [H|(l' & Heq & H)]; [auto|].
    injection Heq as -> <-. apply singleton_sublist_l in H.
    rewrite Forall_forall in Hall. apply Hall, H.
Qed.

End LegalNames.

(** The place a source names, in the order the places are scanned. *)
Definition stage (source : string) : nat :=
  if String.eqb source "title" then 0
  else if Py.startswith source "meta:" then 1
  else if Py.startswith source "json-ld:" then 2
  else if Py.startswith source "header:" then 3
  else if String.eqb source "copyright" then 4
  else 5.

Definition by_stage (x y : NL.candidate) : Prop :=
  stage (cand_source x) <= stage (cand_source y).

Lemma tagged_stage company_name k l :
  Forall (fun p => stage (fst p) = k) l ->
  Forall (fun c => stage (cand_source c) = k) (NL.tagged company_name l).
Proof.
  intros Hl. unfold NL.tagged. rewrite map_fmap. apply Forall_fmap.
  rewrite Forall_forall in *. intros p Hp. apply Hl.
  apply list_elem_of_In, filter_In in Hp as [Hp _]. apply list_elem_of_In, Hp.
Qed.

Lemma staged_app k (l1 l2 : list NL.candidate) :
  Forall (fun c => stage (cand_source c) = k) l1 ->
  StronglySorted by_stage l2 /\ Forall (fun c => S k <= stage (cand_source c)) l2 ->
  StronglySorted by_stage (l1 ++ l2) /\
  Forall (fun c => k <= stage (cand_source c)) (l1 ++ l2).
Proof.
  intros H1 [Hs H2]. rewrite Forall_forall in H1, H2. split.
  - apply StronglySorted_app_2; [| |exact Hs].
    + intros x y Hx Hy. unfold by_stage. specialize (H1 x Hx). specialize (H2 y Hy). lia.
    + clear H2 Hs. induction l1 as [|c l1 IH]; constructor.
      * apply IH. intros x Hx. apply H1, list_elem_of_further, Hx.
      * rewrite Forall_forall. intros x Hx. unfold by_stage.
        rewrite (H1 c (list_elem_of_here _ _)), (H1 x (list_elem_of_further _ _ _ Hx)). lia.
  - rewrite Forall_forall. intros x [Hx|Hx]%elem_of_app.
    + specialize (H1 x Hx). lia.
    + specialize (H2 x Hx). lia.
Qed.

Lemma stage_meta n : stage ("meta:" ++ n) = 1.
Proof. destruct n; reflexivity. Qed.

Lemma stage_json_ld n : stage ("json-ld:" ++ n) = 2.
Proof. destruct n; reflexivity. Qed.

Lemma stage_header n : stage ("header:" ++ n) = 3.
Proof. destruct n; reflexivity. Qed.

Ltac const_stage :=
  rewrite map_fmap; apply Forall_fmap, Forall_forall; intros ? _;
  first [reflexivity|apply stage_meta|apply stage_json_ld|apply stage_header].

(** [found_names] lists the candidates place by place. *)
Lemma found_names_staged sc company_name :
  StronglySorted by_stage (NL.found_names sc company_name).
Proof.
  unfold NL.found_names.
  refine (proj1 (_ : _ /\ Forall (fun c => 0 <= stage (cand_source c)) _)).
  do 5 (apply staged_app; [apply tagged_stage; const_stage|]).
  rewrite <- (app_nil_r (map _ _)).
  apply staged_app; [const_stage|split; constructor].
Qed.

Lemma sublist_pair_fmap {A B : Type} (f : A -> B) (l : list A) x y :
  [x; y] `sublist_of` f <$> l ->
  exists a b, [a; b] `sublist_of` l /\ f a = x /\ f b = y.
Proof.
  induction l as [|a l IH]; cbn [fmap list_fmap]; intros H.
  - inversion H.
  - apply sublist_cons_r in H as [H|(l' & Heq & H)].
    + destruct (IH H) as (a' & b & Hs & Ha & Hb). exists a', b.
      split; [apply sublist_cons, Hs|auto].
    + injection Heq as -> <-. apply singleton_sublist_l, list_elem_of_fmap in H
        as (b & -> & Hb).
      exists a, b. split; [apply sublist_skip, singleton_sublist_l, Hb|auto].
Qed.

(** What [sorted_names] is: the first candidate of each name, sorted. *)
Lemma sorted_names_firsts sc company_name :
  NL.sorted_names sc company_name
  = NL.sort_by_sim (firsts [] (NL.found_names sc company_name)).
Proof.
  unfold NL.sorted_names.
  change (map (fun kv => (fst kv, fst (snd kv), snd (snd kv))) ?d) with (to_candidates d).
  rewrite (fold_unique_firsts company_name); [reflexivity|constructor|].
  apply found_names_scored.
Qed.

(** C3 (amended).  The names returned are pairwise different, at most five,
    each with the source of the first candidate of that name in scan order,
    and in descending order of similarity to the query; two names of equal
    similarity stay in the order their first candidates were found, that
    is in the order the places are scanned: title, meta tags, JSON-LD,
    headers, copyright, page text.  A name that was found and is not
    returned scores no higher than any of the five returned. *)
Theorem C3_legal_names_order (sc : NL.scan) (company_name : string) :
  let found := NL.found_names sc company_name in
  let names := NL.extract_legal_name_from_website sc company_name in
  let sim := fun n => NL.similarity n company_name in
  NoDup (map fst names) /\
  length names <= 5 /\
  (forall n s, (n, s) ∈ names ->
     exists l1 l2, found = (l1 ++ (n, s, sim n) :: l2)%list /\ n ∉ map cand_name l1) /\
  (forall x y, [x; y] `sublist_of` names ->
     (sim (fst y) <= sim (fst x))%Q /\
     (sim (fst x) == sim (fst y) ->
      [(fst x, snd x, sim (fst x)); (fst y, snd y, sim (fst y))] `sublist_of` found /\
      stage (snd x) <= stage (snd y))) /\
  (forall c, c ∈ found -> cand_name c ∉ map fst names ->
     length names = 5 /\
     forall x, x ∈ names -> (sim (cand_name c) <= sim (fst x))%Q).
Proof.
  intros found names sim.
  set (dedup := firsts [] found).
  set (sorted := NL.sort_by_sim dedup).
  set (proj := fun c : NL.candidate => (fst (fst c), snd (fst c))).
  assert (Hnames : names = proj <$> take 5 sorted).
  { subst names. unfold NL.extract_legal_name_from_website.
    rewrite sorted_names_firsts. reflexivity. }
  assert (Hperm : sorted ≡ₚ dedup) by apply sort_by_sim_perm.
  assert (Hsub : dedup `sublist_of` found) by apply firsts_sublist.
  assert (Hscored : forall c, c ∈ sorted -> snd c = sim (cand_name c)).
  { intros c Hc. rewrite Hperm in Hc.
    pose proof (found_names_scored company_name sc) as Hf. rewrite Forall_forall in Hf.
    apply Hf. eapply elem_of_sublist; eauto. }
  assert (Hshape : forall c, c ∈ sorted -> c = (fst (proj c), snd (proj c), sim (fst (proj c)))).
  { intros c Hc. specialize (Hscored c Hc). destruct c as [[n s] q].
    cbn in *. congruence. }
  assert (Hsorted : StronglySorted no_smaller sorted) by apply sort_by_sim_sorted.
  assert (Hfst : map fst names = cand_name <$> take 5 sorted).
  { rewrite Hnames, map_fmap, <- list_fmap_compose. reflexivity. }
  split; [|split; [|split; [|split]]].
  - rewrite Hfst. eapply sublist_NoDup; [|apply fmap_sublist, sublist_take].
    rewrite Hperm. apply firsts_NoDup.
  - rewrite Hnames, length_fmap, length_take. lia.
  - intros n s Hin. rewrite Hnames in Hin.
    apply list_elem_of_fmap in Hin as (c & Hc & Hin).
    assert (Hcs : c ∈ sorted) by (eapply elem_of_sublist; [exact Hin|apply sublist_take]).
    pose proof (Hshape c Hcs) as Hc'. rewrite <- Hc in Hc'. cbn [fst snd] in Hc'.
    rewrite Hperm in Hcs. apply firsts_first in Hcs as (l1 & l2 & Hl & Hfresh).
    exists l1, l2. rewrite <- Hc'. split; [exact Hl|].
    rewrite Hc' in Hfresh. exact Hfresh.
  - intros x y Hxy. rewrite Hnames in Hxy.
    apply sublist_pair_fmap in Hxy as (cx & cy & Hxy & <- & <-).
    assert (Hxy' : [cx; cy] `sublist_of` sorted).
    { etransitivity; [exact Hxy|apply sublist_take]. }
    assert (Hcx : cx ∈ sorted).
    { eapply elem_of_sublist; [|exact Hxy']. apply list_elem_of_here. }
    assert (Hcy : cy ∈ sorted).
    { eapply elem_of_sublist; [|exact Hxy']. apply list_elem_of_further, list_elem_of_here. }
    pose proof (sorted_before _ _ _ _ Hsorted Hxy') as Hle. unfold no_smaller in Hle.
    rewrite (Hscored cx Hcx), (Hscored cy Hcy) in Hle.
    split; [exact Hle|]. intros Htie.
    rewrite <- (Hshape cx Hcx), <- (Hshape cy Hcy).
    apply sort_by_sim_stable in Hxy' as [Hd|Hlt].
    + assert (Hf : [cx; cy] `sublist_of` found) by (etransitivity; eauto).
      split; [exact Hf|].
      exact (sorted_before _ _ _ _ (found_names_staged sc company_name) Hf).
    + exfalso. rewrite (Hscored cx Hcx), (Hscored cy Hcy) in Hlt.
      change (cand_name cx) with (fst (proj cx)) in Hlt.
      change (cand_name cy) with (fst (proj cy)) in Hlt.
      rewrite Htie in Hlt. exact (Qlt_irrefl _ Hlt).
  - intros c Hc Hout.
    destruct (firsts_cover [] found c Hc) as [Hnil|Hcov];
      [apply elem_of_nil in Hnil; contradiction|].
    fold dedup in Hcov. rewrite map_fmap in Hcov.
    apply list_elem_of_fmap in Hcov as (c' & Hn & Hc').
    rewrite <- Hperm in Hc'.
    pose proof (Hscored c' Hc') as Hsc'.
    rewrite <- (take_drop 5 sorted) in Hc', Hsorted.
    apply elem_of_app in Hc' as [Hc'|Hc'].
    { exfalso. apply Hout. rewrite Hfst, Hn. apply list_elem_of_fmap. eauto. }
    assert (Hlen : 5 < length sorted).
    { destruct (Nat.le_gt_cases (length sorted) 5) as [Hle|Hgt]; [|exact Hgt].
      rewrite drop_ge in Hc' by exact Hle. apply elem_of_nil in Hc'. contradiction. }
    split.
    + rewrite Hnames, length_fmap, length_take. lia.
    + intros x Hx. rewrite Hnames in Hx. apply list_elem_of_fmap in Hx as (cx & -> & Hcx).
      pose proof (StronglySorted_app_1_elem_of _ _ _ _ _ Hsorted Hcx Hc') as Hle.
      unfold no_smaller in Hle.
      assert (Hcxs : cx ∈ sorted) by (eapply elem_of_sublist; [exact Hcx|apply sublist_take]).
      rewrite (Hscored cx Hcxs), Hsc', <- Hn in Hle. exact Hle.
Qed.

(** C3, counterexample to the tie-break by source priority: "Acme BV" from
    the title and "Acme NV" from the JSON-LD block are equally close to
    "Acme", and the one from the title comes first. *)
Lemma C3_tie_counterexample :
  NL.extract_legal_name_from_website Examples.two_names "Acme"
  = [("Acme BV", "title"); ("Acme NV", "json-ld:name")]%string /\
  NL.similarity "Acme BV" "Acme" == NL.similarity "Acme NV" "Acme".
Proof.
  split; vm_compute; reflexivity.
Qed.

(** * Further properties of the extractors *)

(** ** The codes of the Dutch extractor *)

(** Every code that is there passes the validator of its kind. *)
Definition codes_valid (c : NL.codes) : Prop :=
  (forall k, NL.kvk c = Some k -> NL.validate_kvk_number k = true) /\
  (forall k, NL.rsin c = Some k -> NL.validate_rsin_number k = true) /\
  (forall k, NL.lei c = Some k -> NL.validate_lei_code k = true) /\
  (forall k, NL.btw c = Some k -> NL.validate_btw_number k = true).

(** A code that was found is still there. *)
Definition codes_kept (found found' : NL.codes) : Prop :=
  (NL.truthy_opt (NL.kvk found) = true -> NL.kvk found' = NL.kvk found) /\
  (NL.truthy_opt (NL.rsin found) = true -> NL.rsin found' = NL.rsin found) /\
  (NL.truthy_opt (NL.lei found) = true -> NL.lei found' = NL.lei found) /\
  (NL.truthy_opt (NL.btw found) = true -> NL.btw found' = NL.btw found).

Lemma validate_kvk_shape k :
  NL.validate_kvk_number k = true ->
  Py.len k = 8 /\ Py.isdigit k = true /\ Py.startswith k "0" = false.
Proof.
  unfold NL.validate_kvk_number.
  destruct (Py.truthy k); [|discriminate].
  destruct (Py.len k =? 8) eqn:E8; [|discriminate].
  destruct (Py.isdigit k); [|discriminate]. cbn [negb orb].
  apply Nat.eqb_eq in E8. intros H%negb_true_iff. auto.
Qed.

Lemma extract_codes_valid html : codes_valid (NL.extract_codes_from_html html).
Proof.
  unfold NL.extract_codes_from_html.
  repeat split; cbn [NL.kvk NL.rsin NL.lei NL.btw]; intros k Hk;
    exact (first_code_valid _ _ _ _ _ Hk).
Qed.

Lemma no_codes_valid : codes_valid NL.no_codes.
Proof. repeat split; discriminate. Qed.

Lemma keep_first_cases found new :
  NL.keep_first found new = found \/
  (NL.keep_first found new = new /\ NL.truthy_opt found = false).
Proof.
  unfold NL.keep_first. destruct (NL.truthy_opt new); [|auto].
  destruct (NL.truthy_opt found); cbn [negb andb]; auto.
Qed.

Lemma merge_codes_valid found new :
  codes_valid found -> codes_valid new -> codes_valid (NL.merge_codes found new).
Proof.
  intros (F1 & F2 & F3 & F4) (N1 & N2 & N3 & N4). unfold NL.merge_codes.
  repeat split; cbn [NL.kvk NL.rsin NL.lei NL.btw]; intros k;
    match goal with
    | |- NL.keep_first ?f ?n = _ -> _ =>
        destruct (keep_first_cases f n) as [-> | [-> _]]; auto
    end.
Qed.

Lemma merge_codes_kept found new : codes_kept found (NL.merge_codes found new).
Proof.
  unfold NL.merge_codes.
  repeat split; cbn [NL.kvk NL.rsin NL.lei NL.btw]; intros Ht;
    match goal with
    | |- NL.keep_first ?f ?n = _ =>
        destruct (keep_first_cases f n) as [-> | [_ Hf]]; [reflexivity|congruence]
    end.
Qed.

Lemma codes_kept_refl found : codes_kept found found.
Proof. repeat split. Qed.

Lemma codes_kept_trans a b c : codes_kept a b -> codes_kept b c -> codes_kept a c.
Proof.
  intros (A1 & A2 & A3 & A4) (B1 & B2 & B3 & B4).
  repeat split; intros Ht.
  - rewrite <- (A1 Ht). apply B1. rewrite (A1 Ht). exact Ht.
  - rewrite <- (A2 Ht). apply B2. rewrite (A2 Ht). exact Ht.
  - rewrite <- (A3 Ht). apply B3. rewrite (A3 Ht). exact Ht.
  - rewrite <- (A4 Ht). apply B4. rewrite (A4 Ht). exact Ht.
Qed.

(** One page of the scan: the codes stay valid, what was found is kept, and
    the names only grow. *)
Lemma visit_invariants w url company_name names found st r st' :
  NL.visit w url company_name names found st = (inr r, st') ->
  (codes_valid found -> codes_valid (snd (fst r))) /\
  codes_kept found (snd (fst r)) /\
  (exists more, fst (fst r) = (names ++ more)%list).
Proof.
  unfold NL.visit, Eff.try_except, Eff.bind.
  assert (Hsame : (codes_valid found -> codes_valid found) /\ codes_kept found found /\
                  exists more, names = (names ++ more)%list).
  { split; [auto|]. split; [apply codes_kept_refl|]. exists []. symmetry. apply app_nil_r. }
  assert (Hmerge : forall html names',
             (exists more, names' = (names ++ more)%list) ->
             (codes_valid found ->
              codes_valid (NL.merge_codes found (NL.extract_codes_from_html html))) /\
             codes_kept found (NL.merge_codes found (NL.extract_codes_from_html html)) /\
             exists more, names' = (names ++ more)%list).
  { intros html names' Hn. split; [|split; [apply merge_codes_kept|exact Hn]].
    intros Hv. apply merge_codes_valid; [exact Hv|apply extract_codes_valid]. }
  destruct (NL.fetch_with_requests w url st) as [[e|first] st1].
  { unfold Eff.ret. intros [= <- <-]. exact Hsame. }
  destruct ((if NL.truthy_opt first then Eff.ret first else NL.fetch_with_selenium w url) st1)
    as [[e|html_content] st2].
  { unfold Eff.ret. intros [= <- <-]. exact Hsame. }
  destruct html_content as [html|]; [|unfold Eff.ret; intros [= <- <-]; exact Hsame].
  destruct (Py.truthy html); [|unfold Eff.ret; intros [= <- <-]; exact Hsame].
  destruct (NL.soup w html) as [e|sc]; unfold Eff.ret; intros [= <- <-]; cbn [fst snd].
  - apply Hmerge. exists []. symmetry. apply app_nil_r.
  - apply Hmerge. eexists. reflexivity.
Qed.

Lemma visit_paths_invariants w base company_name paths :
  forall names found st names' found' st',
    NL.visit_paths w base company_name paths names found st = (inr (names', found'), st') ->
    (codes_valid found -> codes_valid found') /\
    codes_kept found found' /\
    (exists more, names' = (names ++ more)%list).
Proof.
  induction paths as [|path paths IH]; intros names found st names' found' st';
    cbn [NL.visit_paths].
  - unfold Eff.ret. intros [= <- <- <-].
    split; [auto|]. split; [apply codes_kept_refl|]. exists []. symmetry. apply app_nil_r.
  - unfold Eff.bind, Eff.info, Eff.call.
    match goal with
    | |- context [NL.visit w ?u company_name names found ?s] =>
        destruct (NL.visit w u company_name names found s) as [[e|r] st1] eqn:Ev
    end; [discriminate|].
    destruct (visit_invariants _ _ _ _ _ _ _ _ Ev) as (Hv & Hk & more & Hn).
    destruct r as [[names1 found1] left]. cbn [fst snd] in *.
    destruct left.
    + unfold Eff.ret. intros [= <- <- <-]. eauto.
    + intros Hrest. destruct (IH _ _ _ _ _ _ Hrest) as (Hv' & Hk' & more' & Hn').
      split; [auto|]. split; [eapply codes_kept_trans; eauto|].
      exists (more ++ more')%list. rewrite Hn', Hn, app_assoc. reflexivity.
Qed.

(** [extract_codes_from_html] reports validated codes only: a KvK number of
    8 digits that does not start with 0, an RSIN and a BTW number with the
    checksum, a LEI of 20 letters and digits. *)
Theorem extracted_codes_are_valid (html_content : string) :
  let codes := NL.extract_codes_from_html html_content in
  (forall k, NL.kvk codes = Some k ->
     Py.len k = 8 /\ Py.isdigit k = true /\ Py.startswith k "0" = false) /\
  (forall k, NL.rsin codes = Some k -> NL.validate_rsin_number k = true) /\
  (forall k, NL.lei codes = Some k -> NL.validate_lei_code k = true) /\
  (forall k, NL.btw codes = Some k -> NL.validate_rsin_number k = true).
Proof.
  intros codes. destruct (extract_codes_valid html_content) as (H1 & H2 & H3 & H4).
  fold codes in H1, H2, H3, H4.
  repeat split.
  1-3: apply validate_kvk_shape; auto.
  - auto.
  - auto.
  - intros k Hk. specialize (H4 k Hk). unfold NL.validate_btw_number in H4.
    destruct (negb (Py.truthy k) || negb (Py.len k =? 9) || negb (Py.isdigit k));
      [discriminate|exact H4].
Qed.

(** The scan of a site never raises, and the codes it returns are validated
    ones, whatever the site serves. *)
Theorem site_scan_codes_are_valid (w : NL.world) (base_url company_name : string)
    (st : Eff.state) :
  exists legal_names codes st',
    NL.search_website_for_info w base_url company_name st
      = (inr (legal_names, codes), st') /\
    (forall k, NL.kvk codes = Some k -> NL.validate_kvk_number k = true) /\
    (forall k, NL.rsin codes = Some k -> NL.validate_rsin_number k = true) /\
    (forall k, NL.lei codes = Some k -> NL.validate_lei_code k = true) /\
    (forall k, NL.btw codes = Some k -> NL.validate_btw_number k = true).
Proof.
  unfold NL.search_website_for_info.
  destruct (visit_paths_returns w (Py.rstrip_slash base_url) company_name
              NL.get_dutch_paths [] NL.no_codes st) as ([names codes] & st' & Hr).
  exists names, codes, st'. split; [exact Hr|].
  destruct (visit_paths_invariants _ _ _ _ _ _ _ _ _ _ Hr) as (Hv & _).
  exact (Hv no_codes_valid).
Qed.

(** In the loop over the paths of a site, a code that was found on an
    earlier page is never replaced by one from a later page, and the legal
    names found so far stay at the head of the list. *)
Theorem site_scan_keeps_what_it_found (w : NL.world) (base company_name : string)
    (paths : list string) (names : list (string * string)) (found : NL.codes)
    (st : Eff.state) :
  exists names' found' st',
    NL.visit_paths w base company_name paths names found st = (inr (names', found'), st') /\
    (NL.truthy_opt (NL.kvk found) = true -> NL.kvk found' = NL.kvk found) /\
    (NL.truthy_opt (NL.rsin found) = true -> NL.rsin found' = NL.rsin found) /\
    (NL.truthy_opt (NL.lei found) = true -> NL.lei found' = NL.lei found) /\
    (NL.truthy_opt (NL.btw found) = true -> NL.btw found' = NL.btw found) /\
    (exists more, names' = (names ++ more)%list).
Proof.
  destruct (visit_paths_returns w base company_name paths names found st)
    as ([names' found'] & st' & Hr).
  exists names', found', st'. split; [exact Hr|].
  destruct (visit_paths_invariants _ _ _ _ _ _ _ _ _ _ Hr) as (_ & (K1 & K2 & K3 & K4) & Hn).
  auto 6.
Qed.

(** ** The legal names of a page pass the filters *)

Lemma passes_bounds name company_name :
  NL.passes name company_name = true ->
  5 <= Py.len name <= 150 /\ (2 # 10 < NL.similarity name company_name)%Q.
Proof.
  unfold NL.passes. intros H.
  apply andb_true_iff in H as [H Hs]. apply andb_true_iff in H as [H5 H150].
  apply Nat.leb_le in H5, H150. apply gt_true in Hs. auto.
Qed.

Lemma passes_text_bounds name company_name :
  NL.passes_text name company_name = true ->
  5 <= Py.len name <= 150 /\ (2 # 10 < NL.similarity name company_name)%Q.
Proof.
  unfold NL.passes_text. intros H.
  apply andb_true_iff in H as [H Hs]. apply andb_true_iff in H as [H _].
  apply andb_true_iff in H as [H _]. apply andb_true_iff in H as [H5 H150].
  apply Nat.leb_le in H5, H150. apply gt_true in Hs. auto.
Qed.

Lemma tagged_passes company_name l c :
  c ∈ NL.tagged company_name l -> NL.passes (cand_name c) company_name = true.
Proof.
  unfold NL.tagged. rewrite map_fmap. intros (p & -> & Hp)%list_elem_of_fmap.
  apply list_elem_of_In, filter_In in Hp as [_ Hp]. exact Hp.
Qed.

Lemma found_names_filtered sc company_name c :
  c ∈ NL.found_names sc company_name ->
  5 <= Py.len (cand_name c) <= 150 /\
  (2 # 10 < NL.similarity (cand_name c) company_name)%Q.
Proof.
  unfold NL.found_names. intros H.
  repeat (apply elem_of_app in H as [H|H];
          [apply passes_bounds; eapply tagged_passes; exact H|]).
  rewrite map_fmap in H. apply list_elem_of_fmap in H as (n & -> & Hn).
  apply list_elem_of_In, filter_In in Hn as [_ Hn].
  apply passes_text_bounds. exact Hn.
Qed.

(** Every legal name [extract_legal_name_from_website] returns has 5 to 150
    characters and a similarity to the company name above 0.2, and is one of
    the candidates found on the page, with the source it was found under. *)
Theorem legal_names_pass_the_filters (sc : NL.scan) (company_name name source : string) :
  (name, source) ∈ NL.extract_legal_name_from_website sc company_name ->
  5 <= Py.len name <= 150 /\
  (2 # 10 < NL.similarity name company_name)%Q /\
  (name, source, NL.similarity name company_name) ∈ NL.found_names sc company_name.
Proof.
  intros Hin. unfold NL.extract_legal_name_from_website in Hin.
  rewrite map_fmap in Hin. apply list_elem_of_fmap in Hin as (c & Hc & Hin).
  assert (Hs : c ∈ NL.sorted_names sc company_name).
  { eapply elem_of_sublist; [exact Hin|apply sublist_take]. }
  rewrite sorted_names_firsts, sort_by_sim_perm in Hs.
  assert (Hf : c ∈ NL.found_names sc company_name).
  { eapply elem_of_sublist; [exact Hs|apply firsts_sublist]. }
  pose proof (found_names_filtered _ _ _ Hf) as [Hlen Hsim].
  pose proof (found_names_scored company_name sc) as Hsc. rewrite Forall_forall in Hsc.
  specialize (Hsc c Hf). unfold scored, score in Hsc.
  destruct c as [[n s] q]. cbn [fst snd cand_name] in *. injection Hc as -> ->.
  subst q. auto.
Qed.

(** The title "Acme BV" is returned for the query "Acme". *)
Lemma legal_names_pass_the_filters_witness :
  5 <= Py.len "Acme BV" <= 150 /\
  (2 # 10 < NL.similarity "Acme BV" "Acme")%Q /\
  ("Acme BV", "title", NL.similarity "Acme BV" "Acme")%string
    ∈ NL.found_names Examples.two_names "Acme".
Proof.
  apply (legal_names_pass_the_filters Examples.two_names "Acme" "Acme BV" "title").
  vm_compute. apply list_elem_of_here.
Defined.

(** ** The rows of the Dutch extractor *)

(** What a row says, status by status: a KvK number under [found], with one
    of the three places it can come from; a LEI under [found_lei_only]; an
    RSIN or a BTW number under [found_partial]; an error message under
    [no_website] and [error], and under no other status. *)
Definition row_consistent (r : NL.result) : Prop :=
  (NL.status r = "found"%string /\ NL.truthy_opt (NL.kvk_number r) = true /\
   NL.error r = None /\
   (NL.search_location r = "kvk_register_direct"%string \/
    NL.search_location r = "website_direct"%string \/
    NL.search_location r = "kvk_via_website_name"%string)) \/
  (NL.status r = "found_lei_only"%string /\ NL.truthy_opt (NL.result_lei r) = true /\
   NL.error r = None /\ NL.search_location r = "lei_lookup"%string) \/
  (NL.status r = "found_partial"%string /\
   (NL.truthy_opt (NL.result_rsin r) = true \/ NL.truthy_opt (NL.result_btw r) = true) /\
   NL.error r = None /\ NL.search_location r = "website_other_codes"%string) \/
  (NL.status r = "not_found"%string /\
   NL.error r = None /\ NL.search_location r = "exhausted_all_methods"%string) \/
  (NL.status r = "no_website"%string /\ NL.result_website r = ""%string /\
   NL.error r = Some "No website provided and not found in KvK register"%string /\
   NL.search_location r = ""%string) \/
  (NL.status r = "error"%string /\ (exists msg, NL.error r = Some msg) /\
   NL.search_location r = ""%string).

Section DutchRows.

Variables (m : NL.searches) (company_name site : string).

(** The dict before a step stamps it. *)
Definition unstamped (r : NL.result) : Prop :=
  NL.original_company_name r = company_name /\ NL.result_website r = site /\
  NL.error r = None /\ NL.search_location r = ""%string.

Definition carries (website_codes : NL.codes) (r : NL.result) : Prop :=
  NL.result_rsin r = NL.rsin website_codes /\ NL.result_btw r = NL.btw website_codes.

Definition settled_row (out : NL.outcome) : Prop :=
  match out with
  | NL.Returned r =>
      NL.original_company_name r = company_name /\ NL.result_website r = site /\
      row_consistent r
  | NL.Raised _ r => unstamped r
  end.

Definition settles (c : Eff.M NL.outcome) : Prop :=
  forall st, exists out st', c st = (inr out, st') /\ settled_row out.

Lemma attempt_settles {A : Type} (r : NL.result) (c : Eff.M A) (k : A -> Eff.M NL.outcome) :
  unstamped r -> (forall x, settles (k x)) -> settles (NL.attempt r c k).
Proof.
  intros Hr Hk st. unfold NL.attempt.
  destruct (c st) as [[e|x] st']; [|apply Hk].
  do 2 eexists. split; [reflexivity|exact Hr].
Qed.

Lemma info_settles line c : settles c -> settles (run Eff.info line; c).
Proof. intros Hc st. unfold Eff.bind, Eff.info, Eff.call. apply Hc. Qed.

Lemma ret_settles r :
  NL.original_company_name r = company_name -> NL.result_website r = site ->
  row_consistent r -> settles (Eff.ret (NL.Returned r)).
Proof. intros H1 H2 H3 st. unfold Eff.ret. do 2 eexists. split; [reflexivity|]. cbn. auto. Qed.

Lemma lei_step_settles legal_names website_codes r :
  unstamped r -> carries website_codes r ->
  settles (NL.lei_step m company_name legal_names website_codes r).
Proof.
  intros (Hn & Hs & He & Hl) (Hrsin & Hbtw). unfold NL.lei_step.
  apply info_settles, attempt_settles; [repeat split; assumption|].
  intros [lei_code lei_legal_name].
  destruct (NL.truthy_opt lei_code) eqn:Elei.
  - destruct (NL.truthy_opt lei_legal_name); apply ret_settles; try (cbn; assumption);
      right; left; cbn; auto.
  - unfold NL.other_codes. cbn [NL.rsin NL.btw].
    destruct (NL.truthy_opt (NL.rsin website_codes) || NL.truthy_opt (NL.btw website_codes))
      eqn:Eother; apply ret_settles; try (cbn; assumption).
    + do 2 right. left. cbn. rewrite Hrsin, Hbtw.
      apply orb_true_iff in Eother. auto.
    + do 3 right. left. cbn. auto.
Qed.

Lemma kvk_by_legal_name_settles names website_codes k :
  (forall r, unstamped r -> carries website_codes r -> settles (k r)) ->
  forall r, unstamped r -> carries website_codes r ->
  settles (NL.kvk_by_legal_name m names r k).
Proof.
  intros Hk. induction names as [|[legal_name source] names IH]; intros r Hr Hc.
  - apply Hk; assumption.
  - destruct Hr as (Hn & Hs & He & Hl). cbn [NL.kvk_by_legal_name].
    apply info_settles, attempt_settles; [repeat split; assumption|].
    intros [number legal]. destruct (NL.truthy_opt number) eqn:Enum.
    + apply ret_settles; try (cbn; assumption). left. cbn. auto 6.
    + apply IH; [repeat split; cbn; assumption|exact Hc].
Qed.

Lemma try_block_settles r :
  unstamped r -> settles (NL.try_block m company_name site r).
Proof.
  intros (Hn & Hs & He & Hl). unfold NL.try_block.
  apply info_settles, attempt_settles; [repeat split; assumption|].
  intros [number legal].
  destruct (NL.truthy_opt number && NL.truthy_opt legal) eqn:Efound.
  { apply andb_true_iff in Efound as [Enum _].
    apply ret_settles; try (cbn; assumption). left. cbn. auto 6. }
  destruct (negb (Py.truthy site)) eqn:Esite.
  { apply ret_settles; try (cbn; assumption). do 4 right. left. cbn.
    split; [reflexivity|]. split; [|auto].
    rewrite Hs. unfold Py.truthy in Esite. rewrite negb_involutive in Esite.
    apply String.eqb_eq in Esite. exact Esite. }
  unfold NL.website_step.
  apply info_settles, attempt_settles; [repeat split; cbn; assumption|].
  intros [legal_names website_codes].
  destruct (NL.truthy_opt (NL.kvk website_codes)) eqn:Ekvk.
  { destruct legal_names as [|[n source] ?]; apply ret_settles; try (cbn; assumption);
      left; cbn; auto 6. }
  assert (Hstep :
    forall r', unstamped r' -> carries website_codes r' ->
    settles (NL.kvk_by_legal_name m (firstn 3 legal_names) r'
               (NL.lei_step m company_name legal_names website_codes))).
  { apply kvk_by_legal_name_settles. intros r' Hr' Hc'. apply lei_step_settles; assumption. }
  destruct legal_names as [|[n source] legal_names'];
    apply Hstep; repeat split; cbn; assumption.
Qed.

End DutchRows.

Lemma process_single_row (m : NL.searches) (c : NL.company) (st : Eff.state) :
  exists r st',
    NL.process_single_dutch_company_with m c st = (inr r, st') /\
    NL.original_company_name r = NL.name c /\
    NL.result_website r = NL.website_of c /\
    (NL.result_website r = ""%string \/ Py.startswith (NL.result_website r) "http" = true) /\
    row_consistent r.
Proof.
  assert (Hsite : NL.website_of c = ""%string \/ Py.startswith (NL.website_of c) "http" = true).
  { unfold NL.website_of.
    destruct (Py.truthy (Py.strip (NL.website c))) eqn:Et; cbn [andb].
    - destruct (Py.startswith (Py.strip (NL.website c)) "http") eqn:Eh; cbn [negb]; auto.
    - left. unfold Py.truthy in Et. apply negb_false_iff, String.eqb_eq in Et. exact Et. }
  unfold NL.process_single_dutch_company_with, Eff.bind.
  destruct (try_block_settles m (NL.name c) (NL.website_of c)
              (NL.initial_result (NL.name c) (NL.website_of c))
              ltac:(repeat split) st) as (out & st' & -> & Hout).
  destruct out as [r|e r]; cbn [settled_row] in Hout; unfold Eff.ret.
  - destruct Hout as (Hn & Hs & Hrow). exists r, st'. rewrite Hs. auto.
  - destruct Hout as (Hn & Hs & He & Hl). do 2 eexists. split; [reflexivity|].
    cbn. rewrite Hs. repeat split; try assumption.
    do 5 right. cbn. eauto.
Qed.

(** Every row [process_single_dutch_company] returns, whatever the three
    searches do: it carries the name and the website of the company (the
    website empty or starting with http), and it is consistent: the status is
    one of the six, [found] comes with a KvK number, [found_lei_only] with a
    LEI, [found_partial] with an RSIN or a BTW number, and an error message
    is there exactly under [no_website] and [error]. *)
Theorem dutch_row_is_consistent (m : NL.searches) (c : NL.company) (st : Eff.state) :
  exists r st',
    NL.process_single_dutch_company_with m c st = (inr r, st') /\
    NL.original_company_name r = NL.name c /\
    NL.result_website r = NL.website_of c /\
    (NL.result_website r = ""%string \/ Py.startswith (NL.result_website r) "http" = true) /\
    row_consistent r.
Proof. apply process_single_row. Qed.

(** *** The summary of a batch *)

Lemma batch_rows m cs st :
  exists rs st',
    NL.process_dutch_companies_with m cs st = (inr rs, st') /\
    length rs = length cs /\ Forall row_consistent rs /\
    map NL.original_company_name rs = map NL.name cs.
Proof.
  revert st. induction cs as [|c cs IH]; intros st.
  - exists [], st. repeat split; constructor.
  - cbn [NL.process_dutch_companies_with]. unfold Eff.bind.
    destruct (process_single_row m c st) as (r & st1 & -> & Hn & _ & _ & Hr).
    destruct (IH st1) as (rs & st2 & -> & Hlen & Hall & Hnames).
    exists (r :: rs), st2. unfold Eff.ret. cbn [length map].
    repeat split; [congruence|constructor; assumption|congruence].
Qed.

Definition ind (b : bool) : nat := if b then 1 else 0.

Lemma count_cons field value r rs :
  NLSheets.count field value (r :: rs)
  = ind (String.eqb (field r) value) + NLSheets.count field value rs.
Proof.
  unfold NLSheets.count. cbn [List.filter].
  destruct (String.eqb (field r) value); reflexivity.
Qed.

Lemma counts_add_up rs :
  Forall row_consistent rs ->
  NLSheets.count NL.status "found" rs + NLSheets.count NL.status "found_lei_only" rs
  + NLSheets.count NL.status "found_partial" rs + NLSheets.count NL.status "not_found" rs
  + NLSheets.count NL.status "error" rs + NLSheets.count NL.status "no_website" rs
  = length rs /\
  NLSheets.count NL.search_location "kvk_register_direct" rs
  + NLSheets.count NL.search_location "website_direct" rs
  + NLSheets.count NL.search_location "kvk_via_website_name" rs
  = NLSheets.count NL.status "found" rs /\
  NLSheets.count NL.search_location "lei_lookup" rs
  = NLSheets.count NL.status "found_lei_only" rs.
Proof.
  induction 1 as [|r rs Hr Hrs IH].
  - repeat split.
  - rewrite !count_cons. cbn [length].
    destruct IH as (IH1 & IH2 & IH3).
    destruct Hr as [(Hs & _ & _ & [Hl|[Hl|Hl]])|[(Hs & _ & _ & Hl)|[(Hs & _ & _ & Hl)|
                   [(Hs & _ & Hl)|[(Hs & _ & _ & Hl)|(Hs & _ & Hl)]]]]];
      rewrite Hs, Hl; cbn [String.eqb Ascii.eqb Bool.eqb ind andb]; lia.
Qed.

(** The numbers of [generate_summary_report] for the rows of a batch add up:
    the six status counts to the number of companies, the three places of a
    KvK number to the count of [found], and the count of the LEI lookup to
    that of [found_lei_only]; the rows are in the order of the companies. *)
Theorem batch_summary_adds_up (m : NL.searches) (companies : list NL.company)
    (st : Eff.state) :
  companies <> [] ->
  exists rows st' s,
    NL.process_dutch_companies_with m companies st = (inr rows, st') /\
    map NL.original_company_name rows = map NL.name companies /\
    NLSheets.generate_summary_report rows = Some s /\
    NLSheets.total s = length companies /\
    NLSheets.found s + NLSheets.found_lei s + NLSheets.found_partial s
    + NLSheets.not_found s + NLSheets.errors s + NLSheets.no_website s = NLSheets.total s /\
    NLSheets.kvk_direct s + NLSheets.website_direct s + NLSheets.kvk_via_website s
    = NLSheets.found s /\
    NLSheets.lei_found s = NLSheets.found_lei s /\
    NLSheets.total_success s <= NLSheets.total s.
Proof.
  intros Hne.
  destruct (batch_rows m companies st) as (rs & st' & Hr & Hlen & Hall & Hnames).
  destruct (counts_add_up rs Hall) as (H1 & H2 & H3).
  assert (E0 : (length rs =? 0) = false).
  { apply Nat.eqb_neq. destruct companies; [contradiction|]. cbn in Hlen. lia. }
  exists rs, st'. eexists. split; [exact Hr|]. split; [exact Hnames|].
  unfold NLSheets.generate_summary_report. cbv zeta. rewrite E0.
  split; [reflexivity|].
  cbn [NLSheets.total NLSheets.found NLSheets.found_lei NLSheets.found_partial
       NLSheets.not_found NLSheets.errors NLSheets.no_website NLSheets.kvk_direct
       NLSheets.website_direct NLSheets.kvk_via_website NLSheets.lei_found
       NLSheets.total_success].
  repeat split; lia.
Qed.

(** Two companies without websites, and a register that knows nothing. *)
Lemma batch_summary_adds_up_witness :
  exists s,
    option_map NLSheets.generate_summary_report
      (Eff.value_of
         (NL.process_dutch_companies Examples.dutch_offline
            [ {| NL.name := "Acme"; NL.website := "" |};
              {| NL.name := "Bolt"; NL.website := "" |} ]) Eff.initial)
    = Some (Some s) /\
    NLSheets.total s = 2 /\ NLSheets.no_website s = 2.
Proof.
  destruct (batch_summary_adds_up (NL.searches_of Examples.dutch_offline)
              [ {| NL.name := "Acme"; NL.website := "" |};
                {| NL.name := "Bolt"; NL.website := "" |} ] Eff.initial
              ltac:(discriminate))
    as (rows & st' & s & Hr & _ & Hs & Ht & _).
  exists s. unfold Eff.value_of, NL.process_dutch_companies. rewrite Hr.
  cbn [fst option_map]. rewrite Hs. split; [reflexivity|]. split; [exact Ht|].
  revert Hr Hs. vm_compute. intros [= <- _] [= <-]. reflexivity.
Defined.

(** ** The sheet of companies *)

Definition starts_clean (l : list ascii) : Prop :=
  match l with
  | [] => True
  | c :: _ => Py.is_space_char c = false
  end.

Lemma lstrip_chars_clean l : starts_clean (Py.lstrip_chars l).
Proof.
  induction l as [|c l IH]; cbn [Py.lstrip_chars]; [exact I|].
  destruct (Py.is_space_char c) eqn:E; [exact IH|exact E].
Qed.

Lemma lstrip_chars_id l : starts_clean l -> Py.lstrip_chars l = l.
Proof.
  destruct l as [|c l]; [reflexivity|]. cbn. intros ->. reflexivity.
Qed.

Lemma lstrip_chars_snoc l c :
  Py.is_space_char c = false ->
  Py.lstrip_chars (l ++ [c]) = (Py.lstrip_chars l ++ [c])%list.
Proof.
  intros Hc. induction l as [|x l IH]; cbn [app Py.lstrip_chars].
  - rewrite Hc. reflexivity.
  - destruct (Py.is_space_char x); [exact IH|reflexivity].
Qed.

(** Stripping on the right keeps a clean start. *)
Lemma rstrip_clean l :
  starts_clean l -> starts_clean (rev (Py.lstrip_chars (rev l))).
Proof.
  destruct l as [|c l]; [intros _; exact I|]. cbn [starts_clean]. intros Hc.
  cbn [rev]. rewrite (lstrip_chars_snoc _ _ Hc), rev_app_distr. cbn. exact Hc.
Qed.

Lemma strip_chars_fixed l :
  starts_clean l -> starts_clean (rev l) ->
  rev (Py.lstrip_chars (rev (Py.lstrip_chars l))) = l.
Proof.
  intros H1 H2. rewrite (lstrip_chars_id l H1), (lstrip_chars_id _ H2).
  apply rev_involutive.
Qed.

Lemma strip_idempotent s : Py.strip (Py.strip s) = Py.strip s.
Proof.
  unfold Py.strip. rewrite chars_str. f_equal.
  apply strip_chars_fixed.
  - apply rstrip_clean, lstrip_chars_clean.
  - rewrite rev_involutive. apply lstrip_chars_clean.
Qed.

Lemma strip_empty : Py.strip "" = ""%string.
Proof. reflexivity. Qed.

Lemma find_column_none names cols found :
  NLSheets.find_column names cols found = None <->
  found = None /\
  Forall (fun col => NLSheets.exact_match names col = false /\
                     NLSheets.partial_match names col = false) cols.
Proof.
  revert found. induction cols as [|col cols IH]; intros found; cbn [NLSheets.find_column].
  - split; [intros ->; split; [reflexivity|constructor]|intros [-> _]; reflexivity].
  - rewrite Forall_cons.
    destruct (NLSheets.exact_match names col) eqn:Ee.
    { split; [discriminate|]. intros (_ & [Hx _] & _). discriminate. }
    destruct (negb (NL.truthy_opt found) && NLSheets.partial_match names col) eqn:Ep.
    + rewrite IH. split; [intros [? _]; discriminate|].
      intros (-> & [_ Hx] & _). cbn in Ep. congruence.
    + rewrite IH. split.
      * intros [-> H]. cbn in Ep. auto.
      * intros (-> & _ & H). auto.
Qed.

Lemma some_column_matches (e p : string -> bool) cols :
  ~ Forall (fun col => e col = false /\ p col = false) cols ->
  Exists (fun col => e col = true \/ p col = true) cols.
Proof.
  induction cols as [|col cols IH]; intros Hn.
  - exfalso. apply Hn. constructor.
  - destruct (e col) eqn:Ee; [left; auto|].
    destruct (p col) eqn:Ep; [left; auto|].
    right. apply IH. intros H. apply Hn. constructor; auto.
Qed.

Lemma find_column_exact names pre col post found :
  Forall (fun c => NLSheets.exact_match names c = false) pre ->
  NLSheets.exact_match names col = true ->
  NLSheets.find_column names (pre ++ col :: post) found = Some col.
Proof.
  intros Hpre Hcol. revert found.
  induction Hpre as [|c pre Hc Hpre IH]; intros found; cbn [app NLSheets.find_column].
  - rewrite Hcol. reflexivity.
  - rewrite Hc. destruct (negb (NL.truthy_opt found) && NLSheets.partial_match names c);
      apply IH.
Qed.

Lemma load_rows_named name_col website_col rows :
  length (NLSheets.load_rows name_col website_col rows) <= length rows /\
  Forall (fun c => Py.truthy (NL.name c) = true /\
                   Py.strip (NL.name c) = NL.name c /\
                   Py.strip (NL.website c) = NL.website c)
         (NLSheets.load_rows name_col website_col rows).
Proof.
  induction rows as [|row rows [IHl IHf]]; cbn [NLSheets.load_rows length].
  - split; [lia|constructor].
  - unfold NLSheets.load_row. destruct (row name_col) as [t|]; [|split; [lia|exact IHf]].
    destruct (String.eqb (Py.strip t) "") eqn:E; [split; [lia|exact IHf]|].
    cbn [length]. split; [lia|]. constructor; [|exact IHf]. cbn [NL.name NL.website].
    split; [unfold Py.truthy; rewrite E; reflexivity|]. split; [apply strip_idempotent|].
    unfold NLSheets.cell_text. destruct website_col as [c|]; [|reflexivity].
    destruct (row c); [apply strip_idempotent|reflexivity].
Qed.

(** A column whose label is one of the possible names (up to case and outer
    blanks) is chosen before any column that only resembles one, wherever it
    stands: the first such column is the one found. *)
Theorem exact_label_is_preferred (key : string) (df : NLSheets.sheet)
    (before : list string) (col : string) (after : list string) :
  NLSheets.columns df = (before ++ col :: after)%list ->
  Forall (fun c => NLSheets.exact_match (NLSheets.possible_names key) c = false) before ->
  NLSheets.exact_match (NLSheets.possible_names key) col = true ->
  NLSheets.found_column key df = Some col.
Proof.
  intros Hcols Hpre Hcol. unfold NLSheets.found_column. rewrite Hcols.
  apply find_column_exact; assumption.
Qed.

(** "Company Website" resembles a name label, "Company Name" is one. *)
Lemma exact_label_is_preferred_witness :
  NLSheets.found_column "company_name" Examples.portfolio_sheet = Some "Company Name"%string.
Proof.
  apply (exact_label_is_preferred "company_name" Examples.portfolio_sheet
           ["Company Website"%string] "Company Name" []).
  - reflexivity.
  - repeat constructor.
  - reflexivity.
Defined.

(** [load_companies_from_excel] on a sheet that was read: it raises the
    [ValueError] exactly when no column label equals or resembles a label for
    company names; otherwise it returns at most one company per row, each
    with a name that is not empty, name and website stripped of outer
    blanks. *)
Theorem loaded_companies_are_named (df : NLSheets.sheet) :
  let names := NLSheets.possible_names "company_name" in
  (Forall (fun col => NLSheets.exact_match names col = false /\
                      NLSheets.partial_match names col = false) (NLSheets.columns df) ->
   NLSheets.load_companies_from_excel (inr df) = inl NLSheets.missing_columns) /\
  (forall companies,
     NLSheets.load_companies_from_excel (inr df) = inr companies ->
     Exists (fun col => NLSheets.exact_match names col = true \/
                        NLSheets.partial_match names col = true) (NLSheets.columns df) /\
     length companies <= length (NLSheets.rows df) /\
     Forall (fun c => Py.truthy (NL.name c) = true /\
                      Py.strip (NL.name c) = NL.name c /\
                      Py.strip (NL.website c) = NL.website c) companies).
Proof.
  intros names. unfold NLSheets.load_companies_from_excel, NLSheets.found_column.
  fold names. split.
  - intros Hnone.
    rewrite (proj2 (find_column_none names (NLSheets.columns df) None) (conj eq_refl Hnone)).
    reflexivity.
  - intros companies.
    destruct (NLSheets.find_column names (NLSheets.columns df) None) as [name_col|] eqn:Ef;
      [|discriminate].
    intros [= <-]. split; [|apply load_rows_named].
    apply some_column_matches. intros Hall.
    rewrite (proj2 (find_column_none names (NLSheets.columns df) None) (conj eq_refl Hall))
      in Ef. discriminate.
Qed.

(** ** Facts about the matcher *)

Section Matcher.
Local Open Scope list_scope.

Context {R : Type}.
Implicit Types (k : list ascii -> option (list ascii) -> option R).

(** A literal lets the continuation run on some rest of the text. *)
Lemma m_lit_chars icase l s g k x :
  Re.m icase (Re.lit_chars l) s g k = Some x ->
  exists pre s', s = pre ++ s' /\ length pre = length l /\ k s' g = Some x.
Proof.
  revert s. induction l as [|c l IH]; intros s; cbn [Re.lit_chars Re.m].
  - intros H. exists [], s. auto.
  - destruct s as [|y s]; [discriminate|].
    destruct (Re.chr_matches icase c y); [|discriminate].
    intros H. destruct (IH _ H) as (pre & s' & -> & Hlen & Hk).
    exists (y :: pre), s'. cbn [app length]. auto.
Qed.

(** [p{n}] takes [n] characters of the class. *)
Lemma m_rep_cls icase p n s g k x :
  Re.m icase (Re.rep n (Re.Cls p)) s g k = Some x ->
  exists pre s',
    s = pre ++ s' /\ length pre = n /\
    forallb (Re.cls_matches icase p) pre = true /\ k s' g = Some x.
Proof.
  revert s. induction n as [|n IH]; intros s; cbn [Re.rep Re.m].
  - intros H. exists [], s. auto.
  - destruct s as [|y s]; [discriminate|].
    destruct (Re.cls_matches icase p y) eqn:E; [|discriminate].
    intros H. destruct (IH _ H) as (pre & s' & -> & Hlen & Hall & Hk).
    exists (y :: pre), s'. cbn [app length forallb]. rewrite E, Hall. auto.
Qed.

(** [p{0,n}] takes at most [n] characters of the class. *)
Lemma m_rep_upto_cls icase p n s g k x :
  Re.m icase (Re.rep_upto n (Re.Cls p)) s g k = Some x ->
  exists pre s',
    s = pre ++ s' /\ length pre <= n /\
    forallb (Re.cls_matches icase p) pre = true /\ k s' g = Some x.
Proof.
  revert s. induction n as [|n IH]; intros s; cbn [Re.rep_upto Re.opt Re.m].
  - intros H. exists [], s. auto.
  - destruct (match s with
              | [] => None
              | y :: s' =>
                  if Re.cls_matches icase p y
                  then Re.m icase (Re.rep_upto n (Re.Cls p)) s' g k
                  else None
              end) eqn:Etry.
    + intros [= ->]. destruct s as [|y s]; [discriminate|].
      destruct (Re.cls_matches icase p y) eqn:E; [|discriminate].
      destruct (IH _ Etry) as (pre & s' & -> & Hlen & Hall & Hk).
      exists (y :: pre), s'. cbn [app length forallb]. rewrite E, Hall.
      repeat split; [lia|exact Hk].
    + intros H. exists [], s. cbn [length]. repeat split; [lia|exact H].
Qed.

End Matcher.

(** Every match [finditer] lists was found at some place of the text. *)
Lemma finditer_from_match_here icase r s skip mo :
  In mo (Re.finditer_from icase r s skip) ->
  exists t rest g,
    Re.match_here icase r t = Some (rest, g) /\
    Re.group0 mo = Py.str (firstn (length t - length rest) t) /\
    Re.group1 mo = option_map Py.str g.
Proof.
  revert skip. induction s as [|c s IH]; intros skip; cbn [Re.finditer_from];
    [contradiction|].
  destruct skip as [|n]; [|apply IH].
  destruct (Re.match_here icase r (c :: s)) as [[rest g]|] eqn:E; [|apply IH].
  intros [<-|Hin]; [|eapply IH; exact Hin].
  exists (c :: s), rest, g. auto.
Qed.

Lemma search_match_here icase r s mo :
  Re.search icase r s = Some mo ->
  exists t rest g,
    Re.match_here icase r t = Some (rest, g) /\
    Re.group0 mo = Py.str (firstn (length t - length rest) t) /\
    Re.group1 mo = option_map Py.str g.
Proof.
  unfold Re.search, Re.finditer. intros H.
  apply (finditer_from_match_here icase r (Py.chars s) 0).
  destruct (Re.finditer_from icase r (Py.chars s) 0); [discriminate|].
  injection H as ->. left. reflexivity.
Qed.

(** ** The UK extractor *)

(** A number as Companies House writes it in a link: 6 to 8 digits and
    capital letters. *)
Definition registry_number (n : string) : Prop :=
  6 <= Py.len n <= 8 /\ forallb Re.upper_or_digit (Py.chars n) = true.

(** A number as [extract_company_number_from_html] returns it: 8 digits, or
    a prefix and 6 digits. *)
Definition website_number (so : bool) (n : string) : Prop :=
  (Py.len n = 8 /\ Py.isdigit n = true) \/
  (exists d, Py.len d = 6 /\ Py.isdigit d = true /\
             (n = ("SC" ++ d)%string \/ n = ("OC" ++ d)%string \/
              (so = true /\ n = ("SO" ++ d)%string))).

(** Without [re.IGNORECASE] a class takes its own characters only. *)
Lemma forallb_cls_exact p l : forallb (Re.cls_matches false p) l = forallb p l.
Proof.
  induction l as [|c l IH]; cbn [forallb]; [reflexivity|].
  rewrite IH. unfold Re.cls_matches. rewrite andb_false_l, orb_false_r. reflexivity.
Qed.

Lemma company_link_capture t rest g :
  Re.match_here false UK.company_link t = Some (rest, g) ->
  exists d, g = Some d /\ 6 <= length d <= 8 /\ forallb Re.upper_or_digit d = true.
Proof.
  unfold Re.match_here, UK.company_link, Re.lit.
  cbn [Re.seq_re]. cbn [Re.m]. intros H.
  apply m_lit_chars in H as (pre & s1 & -> & _ & H).
  unfold Re.rep_range in H. cbn [Re.m] in H.
  apply m_rep_cls in H as (d1 & s2 & -> & Hl1 & Ha1 & H).
  apply m_rep_upto_cls in H as (d2 & s3 & -> & Hl2 & Ha2 & H).
  injection H as <- <-.
  exists (d1 ++ d2)%list. split.
  - f_equal. rewrite !length_app.
    replace (length d1 + (length d2 + length s3) - length s3) with (length (d1 ++ d2)%list)
      by (rewrite length_app; lia).
    rewrite app_assoc. apply take_app_length.
  - rewrite length_app, forallb_app. split; [lia|].
    rewrite !forallb_cls_exact in *. rewrite Ha1, Ha2. reflexivity.
Qed.

Lemma company_link_number href mo n :
  Re.search false UK.company_link href = Some mo -> Re.group1 mo = Some n ->
  registry_number n.
Proof.
  intros Hs Hg. apply search_match_here in Hs as (t & rest & g & Hm & _ & Hg1).
  apply company_link_capture in Hm as (d & -> & Hlen & Hall).
  rewrite Hg in Hg1. cbn in Hg1. injection Hg1 as ->.
  unfold registry_number. rewrite len_chars, chars_str. auto.
Qed.

(** What the loop over the links returns was read off a link whose text is
    close to the name. *)
Lemma first_close_link_found sim company_name links n :
  UK.first_close_link sim company_name links = Some n ->
  exists company_text href mo,
    In (company_text, href) links /\
    Re.search false UK.company_link href = Some mo /\ Re.group1 mo = Some n /\
    (6 # 10 < sim (Py.lower company_text) (Py.lower company_name))%Q.
Proof.
  induction links as [|[company_text href] links IH]; cbn [UK.first_close_link];
    [discriminate|].
  destruct (Re.search false UK.company_link href) as [mo|] eqn:Es.
  - destruct (NL.gt _ _) eqn:Eg.
    + intros Hg. exists company_text, href, mo. apply gt_true in Eg.
      repeat split; [left; reflexivity|assumption..].
    + intros H. destruct (IH H) as (t & h & mo' & Hin & ?). exists t, h, mo'.
      split; [right; exact Hin|assumption].
  - intros H. destruct (IH H) as (t & h & mo' & Hin & ?). exists t, h, mo'.
    split; [right; exact Hin|assumption].
Qed.

Lemma search_by_name_guarded sim get links_of company_name st found st' :
  UK.search_by_name sim get links_of company_name st = (inr found, st') ->
  let url := (UK.companies_house ++ "/search/companies?q="
              ++ UK.clean_name company_name)%string in
  Eff.log st' = (Eff.log st ++ [Eff.EvGet url])%list /\
  Eff.driver st' = Eff.driver st /\
  forall n, found = Some n ->
    registry_number n /\
    exists response links company_text href,
      get (Eff.log st) url = inr response /\ Eff.status_code response = 200 /\
      links_of (Eff.text response) = inr links /\
      In (company_text, href) links /\
      (6 # 10 < sim (Py.lower company_text) (Py.lower company_name))%Q.
Proof.
  unfold UK.search_by_name, Eff.try_except, Eff.bind, Eff.call, Eff.ret, Eff.raise.
  cbv zeta.
  destruct (get (Eff.log st) _) as [e|response] eqn:Eget.
  { intros [= <- <-]. cbn. split; [reflexivity|]. split; [reflexivity|]. intros n [=]. }
  destruct (Eff.status_code response =? 200) eqn:E200.
  2: { intros [= <- <-]. cbn. split; [reflexivity|]. split; [reflexivity|]. intros n [=]. }
  apply Nat.eqb_eq in E200.
  destruct (links_of (Eff.text response)) as [e|links] eqn:El.
  { intros [= <- <-]. cbn. split; [reflexivity|]. split; [reflexivity|]. intros n [=]. }
  intros [= <- <-]. cbn [Eff.log Eff.driver].
  split; [reflexivity|]. split; [reflexivity|]. intros n H.
  apply first_close_link_found in H as (t & h & mo & Hin & Hs & Hg & Hsim).
  split; [apply (company_link_number h mo n Hs Hg)|].
  exists response, links, t, h. repeat split; try assumption.
  apply filter_In in Hin as [Hin _]. exact Hin.
Qed.

Lemma number_in_matches_shape so ms n :
  UK.number_in_matches so ms = Some n -> website_number so n.
Proof.
  induction ms as [|mo ms IH]; cbn [UK.number_in_matches]; [discriminate|]. cbv zeta.
  destruct ((Py.len (Re.keep_digits (Re.code_of mo)) =? 8)
            && Py.isdigit (Re.keep_digits (Re.code_of mo))) eqn:E8.
  { intros [= <-]. apply andb_true_iff in E8 as [E8 Ed]. apply Nat.eqb_eq in E8.
    left. auto. }
  destruct ((Py.len (Re.keep_digits (Re.code_of mo)) =? 6)
            && Py.isdigit (Re.keep_digits (Re.code_of mo))) eqn:E6; [|exact IH].
  apply andb_true_iff in E6 as [E6 Ed]. apply Nat.eqb_eq in E6.
  destruct (Py.contains "SC" _).
  { intros [= <-]. right. eexists. eauto. }
  destruct (Py.contains "OC" _).
  { intros [= <-]. right. eexists. eauto. }
  destruct so; cbn [andb]; [|exact IH].
  destruct (Py.contains "SO" _); [|exact IH].
  intros [= <-]. right. eexists. eauto 6.
Qed.

Lemma number_in_patterns_shape so ps html n :
  UK.number_in_patterns so ps html = Some n -> website_number so n.
Proof.
  induction ps as [|p ps IH]; cbn [UK.number_in_patterns]; [discriminate|].
  destruct (UK.number_in_matches so (Re.finditer true p html)) eqn:E; [|exact IH].
  intros [= <-]. eapply number_in_matches_shape; eauto.
Qed.

(** The copy without the branch for SO agrees with the original on the
    matches of a pattern, unless the original returns an SO number. *)
Lemma number_in_matches_agree ms :
  UK.number_in_matches false ms = UK.number_in_matches true ms \/
  exists d, UK.number_in_matches true ms = Some ("SO" ++ d)%string /\
            Py.len d = 6 /\ Py.isdigit d = true.
Proof.
  induction ms as [|mo ms IH]; cbn [UK.number_in_matches]; [auto|]. cbv zeta.
  destruct ((Py.len (Re.keep_digits (Re.code_of mo)) =? 8)
            && Py.isdigit (Re.keep_digits (Re.code_of mo))); [auto|].
  destruct ((Py.len (Re.keep_digits (Re.code_of mo)) =? 6)
            && Py.isdigit (Re.keep_digits (Re.code_of mo))) eqn:E6; [|exact IH].
  apply andb_true_iff in E6 as [E6 Ed]. apply Nat.eqb_eq in E6.
  destruct (Py.contains "SC" _); [auto|].
  destruct (Py.contains "OC" _); [auto|]. cbn [andb].
  destruct (Py.contains "SO" _); [|exact IH].
  right. eexists. eauto.
Qed.

Lemma number_in_patterns_agree ps html :
  UK.number_in_patterns false ps html = UK.number_in_patterns true ps html \/
  exists d, UK.number_in_patterns true ps html = Some ("SO" ++ d)%string /\
            Py.len d = 6 /\ Py.isdigit d = true.
Proof.
  induction ps as [|p ps IH]; cbn [UK.number_in_patterns]; [auto|].
  destruct (number_in_matches_agree (Re.finditer true p html)) as [->|(d & -> & Hd)].
  - destruct (UK.number_in_matches true (Re.finditer true p html)); [auto|exact IH].
  - right. eauto.
Qed.

(** A number [extract_company_number_from_html] finds on a page has 8
    digits, or is SC, OC or SO followed by 6 digits (SC or OC in the copy of
    the orchestrator). *)
Theorem uk_website_number_is_well_formed (html_content n : string) :
  (UK.extract_company_number_from_html html_content = Some n ->
   (Py.len n = 8 /\ Py.isdigit n = true) \/
   (exists d, Py.len d = 6 /\ Py.isdigit d = true /\
              (n = ("SC" ++ d)%string \/ n = ("OC" ++ d)%string \/ n = ("SO" ++ d)%string))) /\
  (Complete.UKCompanyNumberExtractor.extract_company_number_from_html html_content = Some n ->
   (Py.len n = 8 /\ Py.isdigit n = true) \/
   (exists d, Py.len d = 6 /\ Py.isdigit d = true /\
              (n = ("SC" ++ d)%string \/ n = ("OC" ++ d)%string))).
Proof.
  split; intros H; apply number_in_patterns_shape in H as [H|(d & Hl & Hd & H)]; auto;
    right; exists d; repeat split; auto.
  - destruct H as [H|[H|[_ H]]]; auto.
  - destruct H as [H|[H|[Hso _]]]; auto. discriminate.
Qed.

(** The orchestrator's copy of [extract_company_number_from_html] returns
    what the original returns, on every page for which the original does not
    return an SO number; the page "SO123456" tells them apart. *)
Theorem uk_copy_agrees_up_to_SO (html_content : string) :
  (Complete.UKCompanyNumberExtractor.extract_company_number_from_html html_content
   = UK.extract_company_number_from_html html_content \/
   exists d, UK.extract_company_number_from_html html_content = Some ("SO" ++ d)%string /\
             Py.len d = 6 /\ Py.isdigit d = true) /\
  UK.extract_company_number_from_html "SO123456" = Some "SO123456"%string /\
  Complete.UKCompanyNumberExtractor.extract_company_number_from_html "SO123456" = None.
Proof.
  split; [apply number_in_patterns_agree|]. split; vm_compute; reflexivity.
Qed.


(** *** The rows of the UK extractor *)

Definition uk_row_ok (company_name url : string) (r : UK.result) : Prop :=
  UK.portfolio_company r = company_name /\ UK.company_url r = url /\
  UK.source r = "Companies House"%string /\
  ((UK.search_method r = "website_extraction"%string /\
    website_number true (UK.company_number r)) \/
   (UK.search_method r = "companies_house_web"%string /\
    (UK.company_number r = ""%string \/ registry_number (UK.company_number r)))).

Lemma get_company_details_returns w number st :
  exists d st', UK.get_company_details_from_companies_house w number st = (inr d, st').
Proof.
  unfold UK.get_company_details_from_companies_house, Eff.try_except, Eff.bind, Eff.call,
    Eff.ret, Eff.raise. cbv zeta.
  destruct (UK.session_get w (Eff.log st) _) as [e|response]; [eauto|].
  destruct (Eff.status_code response =? 200); [|eauto].
  destruct (UK.company_page w (Eff.text response)); eauto.
Qed.

Lemma website_part_row w company_name url r st :
  uk_row_ok company_name url r ->
  exists r' st', UK.website_part w company_name url r st = (inr r', st') /\
                 uk_row_ok company_name url r'.
Proof.
  intros Hr. unfold UK.website_part.
  destruct (Py.truthy url); [|unfold Eff.ret; eauto].
  unfold Eff.try_except, Eff.bind, Eff.call, Eff.ret.
  destruct (UK.session_get w (Eff.log st) url) as [e|response]; [eauto|].
  destruct (Eff.status_code response =? 200); [|eauto].
  match goal with
  | |- context [UK.legal_name_on_site w ?t ?n] =>
      set (r1 := match UK.extract_company_number_from_html t with
                 | Some website_company_number =>
                     if Py.truthy website_company_number
                     then UK.set_search_method "website_extraction"
                            (UK.set_company_number website_company_number r)
                     else r
                 | None => r
                 end)
  end.
  assert (Hr1 : uk_row_ok company_name url r1).
  { subst r1. destruct (UK.extract_company_number_from_html (Eff.text response))
      as [n|] eqn:En; [|exact Hr].
    destruct (Py.truthy n); [|exact Hr].
    destruct Hr as (H1 & H2 & H3 & _). repeat split; try assumption.
    left. split; [reflexivity|]. cbn. eapply number_in_patterns_shape. exact En. }
  destruct (UK.legal_name_on_site w (Eff.text response) company_name) as [e|found];
    [eauto|].
  destruct (Py.truthy found && negb (String.eqb found company_name)); [|eauto].
  do 2 eexists. split; [reflexivity|].
  destruct Hr1 as (H1 & H2 & H3 & H4). repeat split; assumption.
Qed.

Lemma uk_process_row w company_name url st :
  exists r st',
    UK.process_company_with_companies_house w company_name url st = (inr r, st') /\
    uk_row_ok company_name url r.
Proof.
  unfold UK.process_company_with_companies_house, UK.search_companies_house_by_name.
  unfold Eff.try_except. unfold Eff.bind at 1.
  destruct (search_by_name_returns UK.similarity (UK.session_get w) (UK.anchors w)
              company_name st) as (found & st1 & Hs).
  rewrite Hs.
  destruct (search_by_name_guarded _ _ _ _ _ _ _ Hs) as (_ & _ & Hn).
  assert (Hplain : forall r0, r0 = UK.set_legal_name company_name
                                     (UK.initial_result company_name url) ->
                   uk_row_ok company_name url r0).
  { intros r0 ->. repeat split. right. split; [reflexivity|]. left. reflexivity. }
  unfold Eff.bind.
  assert (Hmid : exists r1 st2,
    (match found with
     | Some number =>
         if Py.truthy number
         then
           do company_details <- UK.get_company_details_from_companies_house w number;
           match company_details with
           | Some d => Eff.ret (UK.set_details number d (UK.initial_result company_name url))
           | None =>
               Eff.ret (UK.set_companies_house_url
                          (UK.companies_house ++ "/company/" ++ number)
                          (UK.set_company_number number
                             (UK.set_legal_name company_name
                                (UK.initial_result company_name url))))
           end
         else Eff.ret (UK.set_legal_name company_name (UK.initial_result company_name url))
     | None => Eff.ret (UK.set_legal_name company_name (UK.initial_result company_name url))
     end) st1 = (inr r1, st2) /\ uk_row_ok company_name url r1).
  { destruct found as [number|]; [|unfold Eff.ret; eauto].
    destruct (Py.truthy number); [|unfold Eff.ret; eauto].
    destruct (Hn number eq_refl) as [Hreg _].
    unfold Eff.bind.
    destruct (get_company_details_returns w number st1) as (d & st2 & ->).
    destruct d as [[[[nm stt] typ] u]|]; unfold Eff.ret; do 2 eexists;
      (split; [reflexivity|]); repeat split; right; (split; [reflexivity|]);
      right; exact Hreg. }
  destruct Hmid as (r1 & st2 & Hmid & Hr1).
  unfold Eff.bind in Hmid. rewrite Hmid.
  destruct (website_part_row w company_name url r1 st2 Hr1) as (r2 & st3 & -> & Hr2).
  eauto.
Qed.

(** [process_company_with_companies_house] never raises, and its row keeps
    the name and the url it was given; the company number in it is empty, or
    6 to 8 digits and capitals from Companies House (search method
    [companies_house_web]), or a well-formed number from the company's site
    (search method [website_extraction]). *)
Theorem uk_row_is_well_formed (w : UK.world) (company_name url : string) (st : Eff.state) :
  exists r st',
    UK.process_company_with_companies_house w company_name url st = (inr r, st') /\
    UK.portfolio_company r = company_name /\ UK.company_url r = url /\
    UK.source r = "Companies House"%string /\
    ((UK.search_method r = "website_extraction"%string /\
      ((Py.len (UK.company_number r) = 8 /\ Py.isdigit (UK.company_number r) = true) \/
       exists d, Py.len d = 6 /\ Py.isdigit d = true /\
                 (UK.company_number r = ("SC" ++ d)%string \/
                  UK.company_number r = ("OC" ++ d)%string \/
                  UK.company_number r = ("SO" ++ d)%string))) \/
     (UK.search_method r = "companies_house_web"%string /\
      (UK.company_number r = ""%string \/
       (6 <= Py.len (UK.company_number r) <= 8 /\
        forallb Re.upper_or_digit (Py.chars (UK.company_number r)) = true)))).
Proof.
  destruct (uk_process_row w company_name url st) as (r & st' & Hr & H1 & H2 & H3 & H4).
  exists r, st'. repeat split; try assumption.
  destruct H4 as [[Hm Hn]|[Hm Hn]]; [left|right; auto].
  split; [exact Hm|]. destruct Hn as [Hn|(d & Hl & Hd & Hn)]; [auto|].
  right. exists d. repeat split; try assumption.
  destruct Hn as [Hn|[Hn|[_ Hn]]]; auto.
Qed.

(** [process_portfolio_companies] never raises and returns one row for each
    element that has a name, in their order; elements without a name are
    passed over. *)
Theorem portfolio_rows_are_the_named_companies (w : UK.world)
    (companies_data : list UKPortfolio.company_data) (st : Eff.state) :
  exists rows st',
    UKPortfolio.process_portfolio_companies w companies_data st = (inr rows, st') /\
    map UK.portfolio_company rows
    = List.filter Py.truthy (map UKPortfolio.name_of companies_data) /\
    map UK.company_url rows
    = map UKPortfolio.url_of
        (List.filter (fun c => Py.truthy (UKPortfolio.name_of c)) companies_data).
Proof.
  revert st. induction companies_data as [|c cs IH]; intros st;
    cbn [UKPortfolio.process_portfolio_companies map List.filter].
  - exists [], st. repeat split.
  - destruct (Py.truthy (UKPortfolio.name_of c)) eqn:Et; [|apply IH].
    unfold Eff.bind.
    destruct (uk_process_row w (UKPortfolio.name_of c) (UKPortfolio.url_of c) st)
      as (r & st1 & -> & Hn & Hu & _).
    destruct (IH st1) as (rs & st2 & -> & Hns & Hus).
    exists (r :: rs), st2. unfold Eff.ret. cbn [map]. rewrite Hn, Hu, Hns, Hus.
    repeat split.
Qed.

(** ** What a pattern captures *)

(** A pattern without a group. *)
Fixpoint no_grp (r : Re.re) : bool :=
  match r with
  | Re.Grp _ => false
  | Re.Cat r1 r2 | Re.Alt r1 r2 => no_grp r1 && no_grp r2
  | Re.Look r1 => no_grp r1
  | _ => true
  end.

(** A pattern whose group is [p{n}], with nothing but group-free patterns
    around it. *)
Inductive captures (n : nat) (p : ascii -> bool) : Re.re -> Prop :=
| captures_here r3 :
    no_grp r3 = true -> captures n p (Re.Cat (Re.Grp (Re.rep n (Re.Cls p))) r3)
| captures_later r1 r2 :
    no_grp r1 = true -> captures n p r2 -> captures n p (Re.Cat r1 r2).

Section Captures.
Local Open Scope list_scope.

Context {R : Type}.
Implicit Types (k : list ascii -> option (list ascii) -> option R).

Lemma m_no_grp icase r :
  no_grp r = true ->
  forall s g k x, Re.m icase r s g k = Some x -> exists s', k s' g = Some x.
Proof.
  induction r as [|c|p|r1 IH1 r2 IH2|r1 IH1 r2 IH2|p|r1 IH1|r1 IH1];
    cbn [no_grp]; intros Hr s g k x; cbn [Re.m].
  - eauto.
  - destruct s as [|y s]; [discriminate|].
    destruct (Re.chr_matches icase c y); [eauto|discriminate].
  - destruct s as [|y s]; [discriminate|].
    destruct (Re.cls_matches icase p y); [eauto|discriminate].
  - apply andb_true_iff in Hr as [H1 H2]. intros H.
    destruct (IH1 H1 _ _ _ _ H) as (s' & H'). exact (IH2 H2 _ _ _ _ H').
  - apply andb_true_iff in Hr as [H1 H2].
    destruct (Re.m icase r1 s g k) eqn:E.
    + intros [= ->]. exact (IH1 H1 _ _ _ _ E).
    + apply IH2, H2.
  - revert x. induction s as [|y s IHs]; intros x; [eauto|].
    simpl. destruct (Re.cls_matches icase p y); [|eauto].
    revert IHs.
    match goal with
    | |- _ -> match ?t with Some _ => _ | None => _ end = _ -> _ => destruct t
    end.
    + intros IHs [= ->]. exact (IHs _ eq_refl).
    + eauto.
  - discriminate.
  - destruct (Re.m icase r1 s g (fun _ _ => Some tt)); [eauto|discriminate].
Qed.

Lemma m_captures icase n p r :
  captures n p r ->
  forall s g k x,
    Re.m icase r s g k = Some x ->
    exists d s',
      length d = n /\ forallb (Re.cls_matches icase p) d = true /\
      k s' (Some d) = Some x.
Proof.
  induction 1 as [r3 H3|r1 r2 H1 H2 IH]; intros s g k x; cbn [Re.m].
  - intros H. apply m_rep_cls in H as (d & s1 & -> & Hlen & Hall & H).
    rewrite length_app, Nat.add_sub, take_app_length in H.
    apply (m_no_grp icase r3 H3) in H as (s' & H). eauto.
  - intros H. apply (m_no_grp icase r1 H1) in H as (s1 & H). exact (IH _ _ _ _ H).
Qed.

End Captures.

Lemma finditer_captures icase n p r s mo :
  captures n p r -> In mo (Re.finditer icase r s) ->
  exists d, Re.code_of mo = Py.str d /\ length d = n /\
            forallb (Re.cls_matches icase p) d = true.
Proof.
  intros Hc Hin. unfold Re.finditer in Hin.
  apply finditer_from_match_here in Hin as (t & rest & g & Hm & _ & Hg).
  unfold Re.match_here in Hm.
  apply (m_captures icase n p r Hc) in Hm as (d & s' & Hlen & Hall & [= _ <-]).
  exists d. unfold Re.code_of. rewrite Hg. cbn. auto.
Qed.

(** Under [re.IGNORECASE] the class [[0-9]] still takes digits only. *)
Lemma cls_digit_icase x : Re.cls_matches true Re.digit x = Py.is_digit_char x.
Proof.
  destruct x as [[] [] [] [] [] [] [] []]; reflexivity.
Qed.

Lemma digits_captured d :
  d <> [] -> forallb (Re.cls_matches true Re.digit) d = true ->
  Py.isdigit (Py.str d) = true.
Proof.
  intros Hne Hall. unfold Py.isdigit. rewrite chars_str.
  apply andb_true_iff. split.
  - destruct d; [contradiction|reflexivity].
  - rewrite <- Hall. clear. induction d as [|c d IH]; cbn [forallb]; [reflexivity|].
    rewrite IH, cls_digit_icase. reflexivity.
Qed.

Lemma cls_lower_icase x :
  Re.cls_matches true Py.is_lower_char x = Py.is_lower_char x || Py.is_upper_char x.
Proof.
  destruct x as [[] [] [] [] [] [] [] []]; reflexivity.
Qed.

Lemma len_str d : Py.len (Py.str d) = length d.
Proof. rewrite len_chars, chars_str. reflexivity. Qed.

Lemma captured_digits icase n r s mo :
  icase = true -> n <> 0 -> captures n Re.digit r -> In mo (Re.finditer icase r s) ->
  Py.len (Re.code_of mo) = n /\ Py.isdigit (Re.code_of mo) = true.
Proof.
  intros -> Hn Hc Hin.
  destruct (finditer_captures true n Re.digit r s mo Hc Hin) as (d & -> & Hlen & Hall).
  split; [rewrite len_str; exact Hlen|].
  apply digits_captured; [|exact Hall]. destruct d; [cbn in Hlen; congruence|discriminate].
Qed.

(** ** The Austrian and the Luxembourg extractor of the orchestrator *)

(** What the pattern for the register number captures: six digits and a
    letter. *)
Lemma fn_captured s mo :
  In mo (Re.finditer true
           (Re.seq_re [Re.lit "FN"; NL.ws;
                       Re.Grp (Re.Cat (NL.digits 6) (Re.Cls Py.is_lower_char))]) s) ->
  exists d c,
    Re.code_of mo = (Py.str d ++ String c "")%string /\ length d = 6 /\
    Py.isdigit (Py.str d) = true /\ Py.is_lower_char c || Py.is_upper_char c = true.
Proof.
  intros Hin. unfold Re.finditer in Hin.
  apply finditer_from_match_here in Hin as (t & rest & g & Hm & _ & Hg).
  unfold Re.match_here in Hm. cbn [Re.seq_re] in Hm. cbn [Re.m] in Hm.
  apply (m_no_grp true (Re.lit "FN") eq_refl) in Hm as (s1 & Hm).
  apply (m_no_grp true NL.ws eq_refl) in Hm as (s2 & Hm).
  unfold NL.digits in Hm.
  apply m_rep_cls in Hm as (d & s3 & -> & Hlen & Hall & Hm).
  destruct s3 as [|c s3]; [discriminate|].
  destruct (Re.cls_matches true Py.is_lower_char c) eqn:Ec; [|discriminate].
  injection Hm as <- <-.
  exists d, c. unfold Re.code_of. rewrite Hg. cbn [option_map].
  rewrite length_app. cbn [length].
  replace (length d + S (length s3) - length s3) with (length (d ++ [c])%list)
    by (rewrite length_app; cbn; lia).
  replace (d ++ c :: s3)%list with ((d ++ [c]) ++ s3)%list
    by (rewrite <- app_assoc; reflexivity).
  rewrite take_app_length. rewrite <- cls_lower_icase.
  repeat split; try assumption.
  - unfold Py.str. clear. induction d as [|x d IH]; cbn; [reflexivity|]. rewrite IH.
    reflexivity.
  - apply digits_captured; [|exact Hall]. destruct d; [discriminate|discriminate].
Qed.

Lemma vat_in_matches_cases pattern ms v :
  AustrianCompanyExtractor.vat_in_matches pattern ms = Some v ->
  (Py.startswith pattern "ATU" = true /\
   exists d, v = ("ATU" ++ d)%string /\ Py.len d = 8 /\ Py.isdigit d = true) \/
  (Py.startswith pattern "FN" = true /\
   exists mo, In mo ms /\ v = ("FN" ++ Re.code_of mo)%string).
Proof.
  induction ms as [|mo ms IH]; cbn [AustrianCompanyExtractor.vat_in_matches];
    [discriminate|]. cbv zeta.
  destruct (Py.startswith pattern "ATU" && (Py.len (Re.code_of mo) =? 8)
            && Py.isdigit (Re.code_of mo)) eqn:Eatu.
  { intros [= <-]. apply andb_true_iff in Eatu as [Eatu Ed].
    apply andb_true_iff in Eatu as [Eatu E8]. apply Nat.eqb_eq in E8.
    left. split; [exact Eatu|]. eauto. }
  destruct (Py.startswith pattern "FN" && (Py.len (Re.code_of mo) =? 7)) eqn:Efn.
  { intros [= <-]. apply andb_true_iff in Efn as [Efn _].
    right. split; [exact Efn|]. exists mo. split; [left; reflexivity|reflexivity]. }
  intros H. destruct (IH H) as [Hl|(Hfn & mo' & Hin & Hv)]; [auto|].
  right. split; [exact Hfn|]. exists mo'. split; [right; exact Hin|exact Hv].
Qed.

Lemma vat_in_patterns_cases ps html v :
  AustrianCompanyExtractor.vat_in_patterns ps html = Some v ->
  exists pattern r,
    In (pattern, r) ps /\
    AustrianCompanyExtractor.vat_in_matches pattern (Re.finditer true r html) = Some v.
Proof.
  induction ps as [|[pattern r] ps IH]; cbn [AustrianCompanyExtractor.vat_in_patterns];
    [discriminate|].
  destruct (AustrianCompanyExtractor.vat_in_matches pattern (Re.finditer true r html))
    as [v'|] eqn:E.
  - intros [= <-]. exists pattern, r. split; [left; reflexivity|exact E].
  - intros H. destruct (IH H) as (p' & r' & Hin & Hv). exists p', r'.
    split; [right; exact Hin|exact Hv].
Qed.

(** A number of the Austrian extractor is ATU and 8 digits, or FN, 6 digits
    and a letter; it comes from the first or the last of the four patterns,
    the other two are never answered. *)
Theorem austrian_number_is_well_formed (html_content : string) :
  (forall v,
     AustrianCompanyExtractor.extract_vat_from_html html_content = Some v ->
     (exists d, v = ("ATU" ++ d)%string /\ Py.len d = 8 /\ Py.isdigit d = true) \/
     (exists d c, v = ("FN" ++ d ++ String c "")%string /\ Py.len d = 6 /\
                  Py.isdigit d = true /\
                  Py.is_lower_char c || Py.is_upper_char c = true)) /\
  AustrianCompanyExtractor.extract_vat_from_html html_content
  = AustrianCompanyExtractor.vat_in_patterns
      (firstn 1 AustrianCompanyExtractor.vat_patterns
       ++ skipn 3 AustrianCompanyExtractor.vat_patterns)%list html_content.
Proof.
  split.
  - intros v Hv. apply vat_in_patterns_cases in Hv as (pattern & r & Hin & Hv).
    apply vat_in_matches_cases in Hv as [(Ha & d & -> & Hl & Hd)|(Hfn & mo & Hmo & ->)];
      [left; eauto|].
    right. unfold AustrianCompanyExtractor.vat_patterns in Hin.
    destruct Hin as [[= <- <-]|[[= <- <-]|[[= <- <-]|[[= <- <-]|[]]]]];
      try discriminate Hfn.
    apply fn_captured in Hmo as (d & c & -> & Hlen & Hd & Hc).
    exists (Py.str d), c. rewrite len_str. auto.
  - unfold AustrianCompanyExtractor.extract_vat_from_html,
      AustrianCompanyExtractor.vat_patterns.
    cbn [firstn skipn app AustrianCompanyExtractor.vat_in_patterns].
    destruct (AustrianCompanyExtractor.vat_in_matches "ATU\s*([0-9]{8})" _); [reflexivity|].
    assert (Hdead : forall pattern ms,
               Py.startswith pattern "ATU" = false -> Py.startswith pattern "FN" = false ->
               AustrianCompanyExtractor.vat_in_matches pattern ms = None).
    { intros pattern ms Ha Hf. induction ms as [|mo ms IH];
        cbn [AustrianCompanyExtractor.vat_in_matches]; [reflexivity|].
      rewrite Ha, Hf. exact IH. }
    rewrite !Hdead by reflexivity. reflexivity.
Qed.

Definition lu_codes_ok (c : LuxembourgCompanyExtractor.codes) : Prop :=
  (forall v, LuxembourgCompanyExtractor.vat c = Some v ->
     exists d, v = ("LU" ++ d)%string /\ Py.len d = 8 /\ Py.isdigit d = true) /\
  (forall v, LuxembourgCompanyExtractor.registration_no c = Some v ->
     exists d, v = ("B" ++ d)%string /\ Py.len d = 6 /\ Py.isdigit d = true).

Lemma codes_in_matches_ok pattern ms results :
  (Py.startswith pattern "LU" = true ->
   forall mo, In mo ms -> Py.isdigit (Re.code_of mo) = true) ->
  (Py.startswith pattern "B" = true ->
   forall mo, In mo ms -> Py.isdigit (Re.code_of mo) = true) ->
  lu_codes_ok results ->
  lu_codes_ok (LuxembourgCompanyExtractor.codes_in_matches pattern ms results).
Proof.
  revert results. induction ms as [|mo ms IH]; intros results Hlu Hb Hok;
    cbn [LuxembourgCompanyExtractor.codes_in_matches]; [exact Hok|]. cbv zeta.
  apply IH.
  - intros H mo' Hin. apply (Hlu H). right. exact Hin.
  - intros H mo' Hin. apply (Hb H). right. exact Hin.
  - destruct Hok as [Hv Hr].
    destruct (Py.startswith pattern "LU" && (Py.len (Re.code_of mo) =? 8)) eqn:E1.
    { apply andb_true_iff in E1 as [E1 E8]. apply Nat.eqb_eq in E8.
      split; cbn; [|exact Hr]. intros v [= <-]. eexists. split; [reflexivity|].
      split; [exact E8|]. apply (Hlu E1). left. reflexivity. }
    destruct (Py.startswith pattern "B" && (Py.len (Re.code_of mo) =? 6)) eqn:E2.
    { apply andb_true_iff in E2 as [E2 E6]. apply Nat.eqb_eq in E6.
      split; cbn; [exact Hv|]. intros v [= <-]. eexists. split; [reflexivity|].
      split; [exact E6|]. apply (Hb E2). left. reflexivity. }
    split; assumption.
Qed.

Lemma lu_captures :
  captures 8 Re.digit LuxembourgCompanyExtractor.lu.
Proof.
  unfold LuxembourgCompanyExtractor.lu. cbn [Re.seq_re].
  apply captures_later; [reflexivity|]. apply captures_later; [reflexivity|].
  apply captures_here. reflexivity.
Qed.

(** The codes of the Luxembourg extractor: under [vat], LU and 8 digits;
    under [registration_no], B and 6 digits; no other key. *)
Theorem luxembourg_codes_are_well_formed (html_content key value : string) :
  In (key, value) (LuxembourgCompanyExtractor.extract_codes_from_html html_content) ->
  (key = "vat"%string /\
   exists d, value = ("LU" ++ d)%string /\ Py.len d = 8 /\ Py.isdigit d = true) \/
  (key = "registration_no"%string /\
   exists d, value = ("B" ++ d)%string /\ Py.len d = 6 /\ Py.isdigit d = true).
Proof.
  unfold LuxembourgCompanyExtractor.extract_codes_from_html. cbv zeta.
  assert (Hok : lu_codes_ok
                  (LuxembourgCompanyExtractor.codes_in_patterns
                     LuxembourgCompanyExtractor.vat_patterns html_content
                     {| LuxembourgCompanyExtractor.vat := None;
                        LuxembourgCompanyExtractor.registration_no := None |})).
  { unfold LuxembourgCompanyExtractor.vat_patterns.
    cbn [LuxembourgCompanyExtractor.codes_in_patterns].
    apply codes_in_matches_ok; [discriminate| |].
    { intros _ mo Hin.
      refine (proj2 (captured_digits true 6 _ _ mo eq_refl _ _ Hin)); [discriminate|].
      cbn [Re.seq_re]. apply captures_later; [reflexivity|].
      apply captures_later; [reflexivity|]. apply captures_here. reflexivity. }
    apply codes_in_matches_ok; [discriminate|discriminate|].
    apply codes_in_matches_ok; [|discriminate|split; discriminate].
    intros _ mo Hin.
    refine (proj2 (captured_digits true 8 _ _ mo eq_refl _ lu_captures Hin)). discriminate. }
  destruct Hok as [Hv Hr].
  destruct (LuxembourgCompanyExtractor.vat _) as [v|];
    destruct (LuxembourgCompanyExtractor.registration_no _) as [r|]; cbn [app In];
    intros H; repeat (destruct H as [[= <- <-]|H]); try contradiction; auto.
Qed.

(** A page with a VAT number and a register number. *)
Lemma luxembourg_codes_are_well_formed_witness :
  exists d, "LU12345678"%string = ("LU" ++ d)%string /\ Py.len d = 8 /\ Py.isdigit d = true.
Proof.
  destruct (luxembourg_codes_are_well_formed "TVA: LU 12345678, RCS B 123456"
              "vat" "LU12345678") as [[_ H]|[H _]].
  - vm_compute. left. reflexivity.
  - exact H.
  - discriminate H.
Defined.

(** ** The rows of the orchestrator *)

(** What [from_website] returns: the dict as it was, or the dict with what
    the scan found in a 200 response. *)
Lemma from_website_cases w extract company_url r st :
  exists r' st',
    Complete.from_website w extract company_url r st = (inr r', st') /\
    ((r' = r /\
      (Py.truthy company_url = false -> st' = st)) \/
     (exists response,
        Py.truthy company_url = true /\
        Complete.session_get w (Eff.log st) company_url = inr response /\
        Eff.status_code response = 200 /\
        extract (Eff.text response) <> [] /\
        r' = Complete.found_with (extract (Eff.text response)) r)).
Proof.
  unfold Complete.from_website.
  destruct (Py.truthy company_url) eqn:Eu.
  2: { unfold Eff.ret. do 2 eexists. split; [reflexivity|]. left. auto. }
  unfold Eff.try_except, Eff.bind, Eff.call, Eff.ret.
  destruct (Complete.session_get w (Eff.log st) company_url) as [e|response] eqn:Eg.
  { do 2 eexists. split; [reflexivity|]. left. split; [reflexivity|discriminate]. }
  destruct (Eff.status_code response =? 200) eqn:E200.
  2: { do 2 eexists. split; [reflexivity|]. left. split; [reflexivity|discriminate]. }
  apply Nat.eqb_eq in E200.
  destruct (extract (Eff.text response)) as [|p pairs] eqn:Ex.
  { do 2 eexists. split; [reflexivity|]. left. split; [reflexivity|discriminate]. }
  do 2 eexists. split; [reflexivity|]. right. exists response.
  rewrite Ex. repeat split; try assumption. discriminate.
Qed.

Definition reserved_keys : list string :=
  ["company_name"; "website"; "legal_name"; "status"]%string.

Lemma new_result_fields company_name company_url :
  let r := Complete.new_result company_name company_url [] in
  r !! "company_name"%string = Some company_name /\
  r !! "website"%string = Some company_url /\
  r !! "legal_name"%string = Some company_name /\
  r !! "status"%string = Some "Not Found"%string /\
  forall key, ~ In key reserved_keys -> r !! key = None.
Proof.
  cbv zeta. unfold Complete.new_result. cbn [app].
  repeat split; try reflexivity.
  intros key Hk. apply not_elem_of_list_to_map_1. cbn [fmap list_fmap fst].
  intros Hin. apply Hk. apply list_elem_of_In. exact Hin.
Qed.

(** The extractors that look for one identifier on the company's site (France, Italy,
    Portugal, Austria, Switzerland): the row echoes the name and the site; its status
    is Found exactly when it carries the identifier, and the identifier
    is what the scan found in the 200 response of the site. *)
Theorem found_means_identifier (key : string) (extract : string -> option string)
    (w : Complete.world) (company_name company_url : string) (st : Eff.state) :
  ~ In key reserved_keys ->
  exists r st',
    Complete.process_company_one key extract w company_name company_url st = (inr r, st') /\
    r !! "company_name"%string = Some company_name /\
    r !! "website"%string = Some company_url /\
    r !! "legal_name"%string = Some company_name /\
    ((r !! "status"%string = Some "Not Found"%string /\ r !! key = None) \/
     (r !! "status"%string = Some "Found"%string /\
      exists response v,
        Complete.session_get w (Eff.log st) company_url = inr response /\
        Eff.status_code response = 200 /\
        extract (Eff.text response) = Some v /\ Py.truthy v = true /\
        r !! key = Some v)).
Proof.
  intros Hkey. unfold Complete.process_company_one.
  destruct (new_result_fields company_name company_url) as (F1 & F2 & F3 & F4 & F5).
  cbv zeta in *.
  assert (Hk : forall k, In k reserved_keys -> key <> k).
  { intros k Hin ->. contradiction. }
  match goal with
  | |- context [Complete.from_website w ?ex company_url ?r st] =>
      destruct (from_website_cases w ex company_url r st)
        as (r' & st' & -> & [[-> _]|(response & Hu & Hg & H200 & Hne & ->)])
  end.
  - do 2 eexists. split; [reflexivity|]. repeat split; try assumption.
    left. split; [exact F4|]. apply F5, Hkey.
  - unfold Complete.DutchKvKExtractor.pair_if in *.
    destruct (extract (Eff.text response)) as [v|] eqn:Ex; [|contradiction].
    destruct (Py.truthy v) eqn:Ev; [|contradiction].
    do 2 eexists. split; [reflexivity|].
    unfold Complete.found_with. cbn [foldl fst snd].
    assert (Hs : key <> "status"%string) by (apply Hk; cbn; auto).
    assert (Hc : key <> "company_name"%string) by (apply Hk; cbn; auto).
    assert (Hw : key <> "website"%string) by (apply Hk; cbn; auto).
    assert (Hl : key <> "legal_name"%string) by (apply Hk; cbn; auto).
    rewrite !lookup_insert_ne by (first [discriminate|congruence]).
    rewrite (lookup_insert_ne _ "status"%string key) by congruence.
    rewrite lookup_insert_eq, lookup_insert_eq.
    repeat split; try assumption.
    right. split; [reflexivity|]. exists response, v. auto.
Qed.

(** The Italian extractor on a site that shows a Partita IVA. *)
Lemma found_means_identifier_witness :
  Complete.field "partita_iva"
    (Eff.value_of (ItalyVATExtractor.process_company Examples.acme_it
                     "Acme" "https://acme.it") Eff.initial)
  = Some "12345678901"%string /\
  exists r st',
    ItalyVATExtractor.process_company Examples.acme_it "Acme" "https://acme.it" Eff.initial
      = (inr r, st') /\
    r !! "company_name"%string = Some "Acme"%string.
Proof.
  split; [vm_compute; reflexivity|].
  destruct (found_means_identifier "partita_iva" ItalyVATExtractor.extract_vat_from_html
              Examples.acme_it "Acme" "https://acme.it" Eff.initial)
    as (r & st' & Hr & Hn & _).
  - cbn. intros [H|[H|[H|[H|[]]]]]; discriminate H.
  - exists r, st'. split; [exact Hr|exact Hn].
Defined.

(** *** The country of a row *)

Lemma upper_char_not_lower c : Py.is_lower_char (Py.upper_char c) = false.
Proof. destruct c as [[] [] [] [] [] [] [] []]; reflexivity. Qed.

Lemma upper_has_no_lower s : existsb Py.is_lower_char (Py.chars (Py.upper s)) = false.
Proof.
  unfold Py.upper. rewrite chars_str.
  induction (Py.chars s) as [|c l IH]; cbn [map existsb]; [reflexivity|].
  rewrite upper_char_not_lower, IH. reflexivity.
Qed.

(** No name of [COUNTRY_CODES] is the upper case of a text. *)
Lemma no_name_in_upper_case (l : list (string * string)) s :
  forallb (fun kv => existsb Py.is_lower_char (Py.chars (snd kv))) l = true ->
  List.find (fun kv => String.eqb (snd kv) (Py.upper s)) l = None.
Proof.
  induction l as [|kv l IH]; cbn [forallb List.find]; [reflexivity|].
  intros [Hkv Hl]%andb_true_iff.
  destruct (String.eqb (snd kv) (Py.upper s)) eqn:E; [|exact (IH Hl)].
  apply String.eqb_eq in E. rewrite E, upper_has_no_lower in Hkv. discriminate.
Qed.

(** The country of a row in [process_company_list]: the cell, stripped and
    in upper case, when that is one of the nine codes, and GB in every other
    case; a country name in the cell is never recognised (the names are
    looked up after the cell is put in upper case), so it gives GB as well.
    The result is always one of the nine codes. *)
Theorem country_of_row_is_code_or_GB (country_col : option string)
    (row : string -> string) :
  Complete.country_of None row = "GB"%string /\
  (forall col,
     let country_val := Py.upper (Py.strip (row col)) in
     Complete.country_of (Some col) row
     = if (Py.len country_val =? 2)
          && bool_decide (is_Some (Complete.COUNTRY_CODES !! country_val))
       then country_val else "GB"%string) /\
  is_Some (Complete.COUNTRY_CODES !! Complete.country_of country_col row).
Proof.
  assert (Hcol : forall col,
     Complete.country_of (Some col) row
     = if (Py.len (Py.upper (Py.strip (row col))) =? 2)
          && bool_decide (is_Some (Complete.COUNTRY_CODES !! Py.upper (Py.strip (row col))))
       then Py.upper (Py.strip (row col)) else "GB"%string).
  { intros col. unfold Complete.country_of. cbv zeta.
    destruct ((Py.len (Py.upper (Py.strip (row col))) =? 2) && _); [reflexivity|].
    rewrite no_name_in_upper_case; [reflexivity|]. vm_compute. reflexivity. }
  split; [reflexivity|]. split; [exact Hcol|].
  destruct country_col as [col|]; [|vm_compute; eauto].
  rewrite Hcol.
  destruct (Py.len _ =? 2); cbn [andb]; [|vm_compute; eauto].
  destruct (bool_decide (is_Some (Complete.COUNTRY_CODES !! Py.upper (Py.strip (row col)))))
    eqn:E; [|vm_compute; eauto].
  apply bool_decide_eq_true in E. exact E.
Qed.

(** *** A company without a website *)

Definition website_only_codes : list string :=
  ["DE"; "FR"; "IT"; "PT"; "NL"; "AT"; "CH"; "LU"]%string.

(** For the eight countries whose extractor reads the company's site only,
    a company without a website gets its row at once: no request is sent,
    the status is Not Found and the legal name is the name given.  For GB the
    only request is the search of Companies House. *)
Theorem no_website_no_request (px : Complete.scans) (w : Complete.world)
    (company_name cc : string) (st : Eff.state) :
  (In cc website_only_codes ->
   Complete.process_single_company px w company_name "" cc st
   = (inr (Complete.new_result company_name "" []), st)) /\
  (exists r st',
     Complete.process_single_company px w company_name "" "GB" st = (inr r, st') /\
     Eff.log st' = (Eff.log st ++ [Eff.EvGet (UK.companies_house ++ "/search/companies?q="
                                              ++ UK.clean_name company_name)])%list).
Proof.
  split.
  - intros Hin. unfold website_only_codes in Hin.
    repeat (destruct Hin as [<-|Hin]; [reflexivity|]). contradiction.
  - unfold Complete.process_single_company.
    change (Complete.extractors px w !! "GB"%string)
      with (Some (Complete.UKCompanyNumberExtractor.process_company w)).
    unfold Complete.UKCompanyNumberExtractor.process_company,
      Complete.UKCompanyNumberExtractor.search_companies_house_by_name,
      Eff.try_except, Eff.bind.
    destruct (search_by_name_returns Complete.UKCompanyNumberExtractor.similarity
                (Complete.session_get w) (Complete.anchors w) company_name st)
      as (found & st1 & Hs).
    rewrite Hs.
    destruct (search_by_name_guarded _ _ _ _ _ _ _ Hs) as (Hlog & _ & _).
    unfold Complete.from_website. cbn [Py.truthy String.eqb negb]. unfold Eff.ret.
    do 2 eexists. split; [reflexivity|exact Hlog].
Qed.

(** A Dutch company without a website. *)
Lemma no_website_no_request_witness :
  Complete.field "status"
    (Eff.value_of (Complete.process_single_company Examples.no_scans Examples.offline
                     "Acme" "" "NL") Eff.initial) = Some "Not Found"%string /\
  Eff.state_after (Complete.process_single_company Examples.no_scans Examples.offline
                     "Acme" "" "NL") Eff.initial = Eff.initial.
Proof.
  destruct (no_website_no_request Examples.no_scans Examples.offline "Acme" "NL" Eff.initial)
    as [H _].
  unfold Eff.value_of, Eff.state_after. rewrite H.
  - split; reflexivity.
  - cbn. auto 10.
Defined.

(** *** The Dutch extractor of the orchestrator *)

Lemma n_digits_spec n c :
  Complete.DutchKvKExtractor.n_digits n c = true -> Py.len c = n /\ Py.isdigit c = true.
Proof.
  unfold Complete.DutchKvKExtractor.n_digits. intros [H1 H2]%andb_true_iff.
  apply Nat.eqb_eq in H1. auto.
Qed.

(** A row of the Dutch extractor of the orchestrator: a value under [kvk]
    has 8 digits, a value under [btw] has 9 digits (no checksum is asked
    for), and the status is Found exactly when one of the two is there. *)
Theorem dutch_copy_row (w : Complete.world) (company_name company_url : string)
    (st : Eff.state) :
  exists r st',
    Complete.DutchKvKExtractor.process_company w company_name company_url st
      = (inr r, st') /\
    (forall k, r !! "kvk"%string = Some k -> Py.len k = 8 /\ Py.isdigit k = true) /\
    (forall b, r !! "btw"%string = Some b -> Py.len b = 9 /\ Py.isdigit b = true) /\
    (r !! "status"%string = Some "Found"%string /\
     (is_Some (r !! "kvk"%string) \/ is_Some (r !! "btw"%string)) \/
     r !! "status"%string = Some "Not Found"%string /\
     r !! "kvk"%string = None /\ r !! "btw"%string = None).
Proof.
  unfold Complete.DutchKvKExtractor.process_company.
  destruct (new_result_fields company_name company_url) as (_ & _ & _ & F4 & F5).
  cbv zeta in F4, F5.
  assert (Fk : Complete.new_result company_name company_url [] !! "kvk"%string = None).
  { apply F5. cbn. intros [H|[H|[H|[H|[]]]]]; discriminate H. }
  assert (Fb : Complete.new_result company_name company_url [] !! "btw"%string = None).
  { apply F5. cbn. intros [H|[H|[H|[H|[]]]]]; discriminate H. }
  match goal with
  | |- context [Complete.from_website w ?ex company_url ?r st] =>
      destruct (from_website_cases w ex company_url r st)
        as (r' & st' & -> & [[-> _]|(response & Hu & Hg & H200 & Hne & ->)])
  end.
  - do 2 eexists. split; [reflexivity|]. rewrite Fk, Fb, F4.
    split; [intros k; discriminate|]. split; [intros b; discriminate|].
    right. repeat split.
  - do 2 eexists. split; [reflexivity|].
    set (r0 := Complete.new_result company_name company_url []) in *.
    assert (Hk : forall k, Complete.DutchKvKExtractor.extract_kvk_from_html
                             (Eff.text response) = Some k ->
                           Py.len k = 8 /\ Py.isdigit k = true).
    { intros k Ek. apply n_digits_spec. exact (first_code_valid _ _ _ _ _ Ek). }
    assert (Hb : forall b, Complete.DutchKvKExtractor.extract_btw_from_html
                             (Eff.text response) = Some b ->
                           Py.len b = 9 /\ Py.isdigit b = true).
    { intros b Eb. apply n_digits_spec. exact (first_code_valid _ _ _ _ _ Eb). }
    set (pk := Complete.DutchKvKExtractor.pair_if "kvk"
                 (Complete.DutchKvKExtractor.extract_kvk_from_html (Eff.text response))) in *.
    set (pb := Complete.DutchKvKExtractor.pair_if "btw"
                 (Complete.DutchKvKExtractor.extract_btw_from_html (Eff.text response))) in *.
    assert (Ck : pk = [] \/ exists k, pk = [("kvk"%string, k)] /\ Py.len k = 8 /\
                                      Py.isdigit k = true).
    { subst pk. unfold Complete.DutchKvKExtractor.pair_if.
      destruct (Complete.DutchKvKExtractor.extract_kvk_from_html (Eff.text response))
        as [k|]; [|auto].
      destruct (Py.truthy k); [|auto]. right. exists k. split; [reflexivity|]. auto. }
    assert (Cb : pb = [] \/ exists b, pb = [("btw"%string, b)] /\ Py.len b = 9 /\
                                      Py.isdigit b = true).
    { subst pb. unfold Complete.DutchKvKExtractor.pair_if.
      destruct (Complete.DutchKvKExtractor.extract_btw_from_html (Eff.text response))
        as [b|]; [|auto].
      destruct (Py.truthy b); [|auto]. right. exists b. split; [reflexivity|]. auto. }
    clearbody pk pb. clear Hk Hb.
    destruct Ck as [->|(k & -> & Hk8 & Hkd)]; destruct Cb as [->|(b & -> & Hb9 & Hbd)];
      cbn [app] in Hne |- *; [contradiction| | |];
      unfold Complete.found_with; cbn [foldl fst snd];
      repeat first [rewrite lookup_insert_eq | rewrite lookup_insert_ne by discriminate];
      rewrite ?Fk, ?Fb;
      (split; [intros k'; first [intros [= <-]; auto | discriminate]|]);
      (split; [intros b'; first [intros [= <-]; auto | discriminate]|]);
      left; (split; [reflexivity|]); first [left; eexists; reflexivity
                                           |right; eexists; reflexivity].
Qed.

(** ** Similarity and normalisation *)

Lemma lower_upper_char c : Py.lower_char (Py.upper_char c) = Py.lower_char c.
Proof. destruct c as [[] [] [] [] [] [] [] []]; reflexivity. Qed.

Lemma lower_lower_char c : Py.lower_char (Py.lower_char c) = Py.lower_char c.
Proof. destruct c as [[] [] [] [] [] [] [] []]; reflexivity. Qed.

Lemma lower_upper s : Py.lower (Py.upper s) = Py.lower s.
Proof.
  unfold Py.lower, Py.upper. rewrite chars_str, map_map. f_equal.
  apply map_ext. exact lower_upper_char.
Qed.

Lemma lower_lower s : Py.lower (Py.lower s) = Py.lower s.
Proof.
  unfold Py.lower. rewrite chars_str, map_map. f_equal.
  apply map_ext. exact lower_lower_char.
Qed.

Lemma truthy_chars s : Py.truthy s = negb (match Py.chars s with [] => true | _ => false end).
Proof. destruct s; reflexivity. Qed.

Lemma truthy_map f s : Py.truthy (Py.str (map f (Py.chars s))) = Py.truthy s.
Proof. destruct s; reflexivity. Qed.

(** The three scorers do not see the case of their arguments: putting an
    argument in upper or in lower case leaves the score as it is. *)
Theorem similarity_ignores_case (a b : string) :
  NL.similarity (Py.upper a) b = NL.similarity a b /\
  NL.similarity a (Py.upper b) = NL.similarity a b /\
  NL.similarity (Py.lower a) (Py.lower b) = NL.similarity a b /\
  UK.similarity (Py.upper a) b = UK.similarity a b /\
  UK.similarity a (Py.upper b) = UK.similarity a b /\
  UK.similarity (Py.lower a) (Py.lower b) = UK.similarity a b /\
  Complete.UKCompanyNumberExtractor.similarity (Py.upper a) b
  = Complete.UKCompanyNumberExtractor.similarity a b /\
  Complete.UKCompanyNumberExtractor.similarity a (Py.upper b)
  = Complete.UKCompanyNumberExtractor.similarity a b /\
  Complete.UKCompanyNumberExtractor.similarity (Py.lower a) (Py.lower b)
  = Complete.UKCompanyNumberExtractor.similarity a b.
Proof.
  unfold NL.similarity, UK.similarity, Complete.UKCompanyNumberExtractor.similarity,
    NL.normalize, NL.unidecode.
  assert (Tu : forall s, Py.truthy (Py.upper s) = Py.truthy s)
    by (intros s; apply truthy_map).
  assert (Tl : forall s, Py.truthy (Py.lower s) = Py.truthy s)
    by (intros s; apply truthy_map).
  rewrite !Tu, !Tl, !lower_upper, !lower_lower. repeat split.
Qed.

(** *** [normalize] *)

(** A character of a normalised text: a blank, or a digit, a small letter
    or the underscore. *)
Definition plain_char (c : ascii) : bool :=
  Ascii.eqb c " " || (Py.is_word_char c && negb (Py.is_upper_char c)).

(** No whitespace after whitespace ([in_run]: the character before was
    one). *)
Fixpoint spaced (l : list ascii) (in_run : bool) : bool :=
  match l with
  | [] => true
  | c :: l' => if Py.is_space_char c then negb in_run && spaced l' true else spaced l' false
  end.

Lemma plain_lower c : plain_char c = true -> Py.lower_char c = c.
Proof. destruct c as [[] [] [] [] [] [] [] []]; first [reflexivity|discriminate]. Qed.

Lemma plain_punct c : plain_char c = true -> NL.punct_to_space c = c.
Proof. destruct c as [[] [] [] [] [] [] [] []]; first [reflexivity|discriminate]. Qed.

Lemma plain_space c : plain_char c = true -> Py.is_space_char c = true -> c = " "%char.
Proof. destruct c as [[] [] [] [] [] [] [] []]; first [reflexivity|discriminate]. Qed.

(** After lowering and the replacement of punctuation, a character is plain
    or whitespace. *)
Lemma punct_lower_char c :
  let x := NL.punct_to_space (Py.lower_char c) in
  Py.is_space_char x = true \/ plain_char x = true.
Proof. destruct c as [[] [] [] [] [] [] [] []]; cbv; auto. Qed.

Lemma collapse_spaces_plain l r :
  Forall (fun x => Py.is_space_char x = true \/ plain_char x = true) l ->
  Forall (fun x => plain_char x = true) (NL.collapse_spaces l r).
Proof.
  intros H. revert r. induction H as [|c l Hc Hl IH]; intros r; cbn [NL.collapse_spaces];
    [constructor|].
  destruct (Py.is_space_char c) eqn:E.
  - destruct r; [apply IH|]. constructor; [reflexivity|apply IH].
  - destruct Hc as [Hc|Hc]; [congruence|]. constructor; [exact Hc|apply IH].
Qed.

Lemma collapse_spaces_spaced l r : spaced (NL.collapse_spaces l r) r = true.
Proof.
  revert r. induction l as [|c l IH]; intros r; cbn [NL.collapse_spaces]; [reflexivity|].
  destruct (Py.is_space_char c) eqn:E.
  - destruct r; [apply IH|]. cbn. apply IH.
  - cbn [spaced]. rewrite E. apply IH.
Qed.

Lemma collapse_spaces_id l r :
  Forall (fun x => plain_char x = true) l -> spaced l r = true ->
  NL.collapse_spaces l r = l.
Proof.
  intros H. revert r. induction H as [|c l Hc Hl IH]; intros r; cbn [NL.collapse_spaces spaced];
    [reflexivity|].
  destruct (Py.is_space_char c) eqn:E.
  - intros [Hr Hs]%andb_true_iff. apply negb_true_iff in Hr. subst r.
    rewrite (plain_space c Hc E). f_equal. apply IH, Hs.
  - intros Hs. f_equal. apply IH, Hs.
Qed.

Lemma lstrip_chars_suffix l : exists pre, l = (pre ++ Py.lstrip_chars l)%list.
Proof.
  induction l as [|c l [pre IH]]; cbn [Py.lstrip_chars]; [exists []; reflexivity|].
  destruct (Py.is_space_char c).
  - exists (c :: pre). cbn. f_equal. exact IH.
  - exists []. reflexivity.
Qed.

Lemma spaced_lstrip l r : spaced l r = true -> spaced (Py.lstrip_chars l) false = true.
Proof.
  revert r. induction l as [|c l IH]; intros r; cbn [Py.lstrip_chars spaced]; [reflexivity|].
  destruct (Py.is_space_char c) eqn:E.
  - intros [_ Hs]%andb_true_iff. exact (IH _ Hs).
  - intros Hs. cbn [spaced]. rewrite E. exact Hs.
Qed.

Lemma spaced_prefix l1 l2 r : spaced (l1 ++ l2) r = true -> spaced l1 r = true.
Proof.
  revert r. induction l1 as [|c l1 IH]; intros r; cbn [app spaced]; [reflexivity|].
  destruct (Py.is_space_char c).
  - intros [Hr Hs]%andb_true_iff. rewrite Hr. exact (IH _ Hs).
  - apply IH.
Qed.

(** Stripping on the right gives a prefix. *)
Lemma rstrip_prefix l : exists post, l = (rev (Py.lstrip_chars (rev l)) ++ post)%list.
Proof.
  destruct (lstrip_chars_suffix (rev l)) as [pre H].
  exists (rev pre). rewrite <- rev_app_distr, <- H, rev_involutive. reflexivity.
Qed.

Lemma map_fixed (f : ascii -> ascii) l :
  (forall x, plain_char x = true -> f x = x) ->
  Forall (fun x => plain_char x = true) l -> map f l = l.
Proof.
  intros Hf. induction 1 as [|x l Hx Hl IH]; cbn [map]; [reflexivity|].
  rewrite (Hf x Hx), IH. reflexivity.
Qed.

(** The characters of [normalize s]. *)
Definition normal_chars (s : string) : list ascii :=
  rev (Py.lstrip_chars (rev (Py.lstrip_chars
    (NL.collapse_spaces (map NL.punct_to_space (map Py.lower_char (Py.chars s))) false)))).

Lemma normalize_chars s : NL.normalize s = Py.str (normal_chars s).
Proof.
  unfold NL.normalize, NL.unidecode, NL.collapse, Py.strip, Py.lower, normal_chars.
  rewrite !chars_str. reflexivity.
Qed.

Lemma normal_chars_shape s :
  Forall (fun x => plain_char x = true) (normal_chars s) /\
  spaced (normal_chars s) false = true /\
  starts_clean (normal_chars s) /\ starts_clean (rev (normal_chars s)).
Proof.
  unfold normal_chars.
  set (c := NL.collapse_spaces _ false).
  assert (Hc : Forall (fun x => plain_char x = true) c).
  { apply collapse_spaces_plain. rewrite map_map, map_fmap. apply Forall_fmap, Forall_forall.
    intros x _. apply punct_lower_char. }
  assert (Hs : spaced c false = true) by apply collapse_spaces_spaced.
  destruct (lstrip_chars_suffix c) as [pre Hpre].
  destruct (rstrip_prefix (Py.lstrip_chars c)) as [post Hpost].
  assert (Hl : Forall (fun x => plain_char x = true) (Py.lstrip_chars c)).
  { rewrite Hpre in Hc. apply Forall_app in Hc as [_ Hc]. exact Hc. }
  repeat split.
  - rewrite Hpost in Hl. apply Forall_app in Hl as [Hl _]. exact Hl.
  - apply (spaced_prefix _ post). rewrite <- Hpost. eapply spaced_lstrip. exact Hs.
  - apply rstrip_clean, lstrip_chars_clean.
  - rewrite rev_involutive. apply lstrip_chars_clean.
Qed.

(** [normalize] leaves blanks, digits, small letters and underscores only,
    with no blank at either end and no two blanks in a row, and normalising
    a normalised text changes nothing. *)
Theorem normalize_is_idempotent (s : string) :
  NL.normalize (NL.normalize s) = NL.normalize s /\
  forallb plain_char (Py.chars (NL.normalize s)) = true /\
  spaced (Py.chars (NL.normalize s)) false = true /\
  Py.strip (NL.normalize s) = NL.normalize s.
Proof.
  destruct (normal_chars_shape s) as (Hp & Hs & Hb & He).
  rewrite !normalize_chars.
  assert (Hstrip : Py.strip (Py.str (normal_chars s)) = Py.str (normal_chars s)).
  { unfold Py.strip. rewrite chars_str. f_equal. apply strip_chars_fixed; assumption. }
  split; [|split; [|split]].
  - f_equal. unfold normal_chars at 1. rewrite chars_str.
    rewrite (map_fixed Py.lower_char _ plain_lower Hp).
    rewrite (map_fixed NL.punct_to_space _ plain_punct Hp).
    rewrite (collapse_spaces_id _ _ Hp Hs). apply strip_chars_fixed; assumption.
  - rewrite chars_str. apply forallb_forall. rewrite Forall_forall in Hp.
    intros x Hx. apply Hp, list_elem_of_In, Hx.
  - rewrite chars_str. exact Hs.
  - exact Hstrip.
Qed.

(** ** The requests of the scan of a site *)

(** An event of the scan of the pages [urls]: the line that announces a
    page, the request for it, the start of the browser, the load of the page
    in the browser. *)
Definition scan_event (urls : list string) (ev : Eff.event) : Prop :=
  match ev with
  | Eff.EvGet url | Eff.EvDriverGet url => In url urls
  | Eff.EvDriverStart => True
  | Eff.EvInfo line => exists url, In url urls /\ line = ("Checking: " ++ url)%string
  | _ => False
  end.

Definition is_get (ev : Eff.event) : bool :=
  match ev with Eff.EvGet _ => true | _ => false end.

Lemma scan_event_mono urls urls' ev :
  (forall u, In u urls -> In u urls') -> scan_event urls ev -> scan_event urls' ev.
Proof.
  intros Hsub. destruct ev; cbn; auto.
  intros (u & Hu & ->). eauto.
Qed.

Lemma fetch_with_requests_log w url st :
  Eff.log (snd (NL.fetch_with_requests w url st)) = (Eff.log st ++ [Eff.EvGet url])%list.
Proof.
  pose proof (fetch_with_requests_cases w url st) as H. cbv zeta in H. rewrite H.
  destruct (NL.session_get w (Eff.log st) url) as [e|r]; [reflexivity|].
  destruct ((400 <=? Eff.status_code r) && (Eff.status_code r <? 600)); [reflexivity|].
  destruct (Py.contains "html" _ || Py.contains "xml" _); reflexivity.
Qed.

Lemma fetch_with_selenium_log w url st :
  exists new,
    Eff.log (snd (NL.fetch_with_selenium w url st)) = (Eff.log st ++ new)%list /\
    Forall (scan_event [url]) new /\ List.filter is_get new = [].
Proof.
  unfold NL.fetch_with_selenium, Eff.bind.
  destruct (setup_selenium_returns w st) as (st1 & -> & Hon & Hoff).
  cbn [Eff.get_driver].
  assert (H1 : exists new1, Eff.log st1 = (Eff.log st ++ new1)%list /\
                            Forall (scan_event [url]) new1 /\ List.filter is_get new1 = []).
  { destruct (Eff.driver st) eqn:Ed.
    - rewrite (Hon eq_refl). exists []. rewrite app_nil_r. repeat split. constructor.
    - destruct (Hoff eq_refl) as [Hl _]. exists [Eff.EvDriverStart]. rewrite Hl.
      repeat split. repeat constructor. }
  destruct H1 as (new1 & Hl1 & Hf1 & Hg1).
  destruct (negb (Eff.driver st1)); [unfold Eff.ret; cbn [snd]; eauto|].
  unfold Eff.try_except, Eff.bind, Eff.call, Eff.ret.
  exists (new1 ++ [Eff.EvDriverGet url])%list.
  assert (Hnew : Forall (scan_event [url]) (new1 ++ [Eff.EvDriverGet url]) /\
                 List.filter is_get (new1 ++ [Eff.EvDriverGet url]) = []).
  { split.
    - apply Forall_app. split; [exact Hf1|].
      apply Forall_cons. split; [left; reflexivity|apply Forall_nil_2].
    - rewrite List.filter_app, Hg1. reflexivity. }
  destruct (NL.driver_get w (Eff.log st1) url); cbn [snd Eff.log];
    rewrite Hl1, <- app_assoc; (split; [reflexivity|exact Hnew]).
Qed.

Lemma visit_log w url company_name names found st :
  exists new,
    Eff.log (snd (NL.visit w url company_name names found st)) = (Eff.log st ++ new)%list /\
    Forall (scan_event [url]) new /\ length (List.filter is_get new) = 1.
Proof.
  unfold NL.visit, Eff.try_except, Eff.bind.
  pose proof (fetch_with_requests_log w url st) as Hreq.
  destruct (NL.fetch_with_requests w url st) as [[e|first] st1]; cbn [snd] in Hreq.
  { unfold Eff.ret. cbn [snd]. exists [Eff.EvGet url]. repeat split; [exact Hreq|].
    repeat constructor. }
  assert (H2 : exists new2,
    Eff.log (snd ((if NL.truthy_opt first then Eff.ret first
                   else NL.fetch_with_selenium w url) st1))
    = (Eff.log st1 ++ new2)%list /\
    Forall (scan_event [url]) new2 /\ List.filter is_get new2 = []).
  { destruct (NL.truthy_opt first); [|apply fetch_with_selenium_log].
    exists []. unfold Eff.ret. cbn [snd]. rewrite app_nil_r. repeat split. constructor. }
  destruct H2 as (new2 & Hl2 & Hf2 & Hg2).
  exists ([Eff.EvGet url] ++ new2)%list.
  assert (Hend : forall st2,
             Eff.log st2 = (Eff.log st1 ++ new2)%list ->
             Eff.log st2 = (Eff.log st ++ [Eff.EvGet url] ++ new2)%list /\
             Forall (scan_event [url]) ([Eff.EvGet url] ++ new2) /\
             length (List.filter is_get ([Eff.EvGet url] ++ new2)) = 1).
  { intros st2 H. rewrite H, Hreq, <- app_assoc. split; [reflexivity|].
    split; [apply Forall_app; split; [repeat constructor|exact Hf2]|].
    cbn [app List.filter is_get length]. rewrite Hg2. reflexivity. }
  destruct ((if NL.truthy_opt first then Eff.ret first else NL.fetch_with_selenium w url) st1)
    as [[e|html_content] st2]; cbn [snd] in Hl2.
  { unfold Eff.ret. cbn [snd]. apply Hend, Hl2. }
  destruct html_content as [html|]; [|unfold Eff.ret; cbn [snd]; apply Hend, Hl2].
  destruct (Py.truthy html); [|unfold Eff.ret; cbn [snd]; apply Hend, Hl2].
  destruct (NL.soup w html); unfold Eff.ret; cbn [snd]; apply Hend, Hl2.
Qed.

Lemma visit_paths_log w base company_name paths :
  forall names found st,
  exists new,
    Eff.log (snd (NL.visit_paths w base company_name paths names found st))
    = (Eff.log st ++ new)%list /\
    Forall (scan_event (map (fun path => (base ++ path)%string) paths)) new /\
    length (List.filter is_get new) <= length paths.
Proof.
  induction paths as [|path paths IH]; intros names found st; cbn [NL.visit_paths].
  - exists []. unfold Eff.ret. cbn [snd]. rewrite app_nil_r. repeat split; [constructor|].
    cbn. lia.
  - unfold Eff.bind, Eff.info, Eff.call.
    set (st0 := {| Eff.driver := Eff.driver st;
                   Eff.log := (Eff.log st ++ [Eff.EvInfo ("Checking: " ++ base ++ path)])%list |}).
    destruct (visit_log w (base ++ path)%string company_name names found st0)
      as (new1 & Hl1 & Hf1 & Hg1).
    assert (Hf1' : Forall (scan_event (map (fun p => (base ++ p)%string) (path :: paths)))
                     (Eff.EvInfo ("Checking: " ++ base ++ path) :: new1)).
    { constructor.
      - cbn. exists (base ++ path)%string. auto.
      - eapply Forall_impl; [exact Hf1|]. intros ev. apply scan_event_mono.
        intros u [<-|[]]. left. reflexivity. }
    destruct (NL.visit w (base ++ path)%string company_name names found st0)
      as [[e|r] st1]; cbn [snd] in Hl1.
    { exists (Eff.EvInfo ("Checking: " ++ base ++ path) :: new1). cbn [snd].
      rewrite Hl1. subst st0. cbn [Eff.log]. rewrite <- app_assoc.
      split; [reflexivity|]. split; [exact Hf1'|]. cbn [List.filter is_get length]. lia. }
    destruct (snd r).
    { exists (Eff.EvInfo ("Checking: " ++ base ++ path) :: new1). unfold Eff.ret. cbn [snd].
      rewrite Hl1. subst st0. cbn [Eff.log]. rewrite <- app_assoc.
      split; [reflexivity|]. split; [exact Hf1'|]. cbn [List.filter is_get length]. lia. }
    destruct (IH (fst (fst r)) (snd (fst r)) st1) as (new2 & Hl2 & Hf2 & Hg2).
    exists ((Eff.EvInfo ("Checking: " ++ base ++ path) :: new1) ++ new2)%list.
    rewrite Hl2, Hl1. subst st0. cbn [Eff.log]. rewrite <- !app_assoc.
    split; [reflexivity|]. split.
    + apply Forall_app. split; [exact Hf1'|].
      eapply Forall_impl; [exact Hf2|]. intros ev. apply scan_event_mono.
      intros u Hu. right. exact Hu.
    + rewrite List.filter_app, length_app. cbn [List.filter is_get length]. lia.
Qed.

(** The scan of a site asks for pages of that site only: every request and
    every page load goes to the base url (without its final slashes) followed
    by one of the 21 paths, and at most 21 requests are sent. *)
Theorem site_scan_stays_on_the_site (w : NL.world) (base_url company_name : string)
    (st : Eff.state) :
  let pages :=
    map (fun path => (Py.rstrip_slash base_url ++ path)%string) NL.get_dutch_paths in
  exists new,
    Eff.log (Eff.state_after (NL.search_website_for_info w base_url company_name) st)
    = (Eff.log st ++ new)%list /\
    (forall url, In (Eff.EvGet url) new \/ In (Eff.EvDriverGet url) new -> In url pages) /\
    (forall ev, In ev new ->
       match ev with Eff.EvKvkSearch _ | Eff.EvLeiLookup _ => False | _ => True end) /\
    length (List.filter is_get new) <= 21.
Proof.
  intros pages. unfold NL.search_website_for_info, Eff.state_after.
  destruct (visit_paths_log w (Py.rstrip_slash base_url) company_name NL.get_dutch_paths
              [] NL.no_codes st) as (new & Hl & Hf & Hg).
  exists new. split; [exact Hl|]. rewrite Forall_forall in Hf.
  split; [|split; [|exact Hg]].
  - intros url [H|H]; apply list_elem_of_In, Hf in H; exact H.
  - intros ev H. apply list_elem_of_In, Hf in H. destruct ev; cbn in H; auto.
Qed.
